(** * Query rewriting and multi-query retrieval fusion

    A shallow embedding of [query_rewriter.py] and of the search half of
    [vector_store.py], with the properties of the rewriting engine stated
    and proved over it; then of their callers, [query] and [batch_query] of
    [rag_pipeline.py] and the endpoints [/query] and [/rewrite] of
    [api.py], and of the text functions of [document_processor.py].

    Conventions of the embedding.
    - A Python [str] is a [string]; each [ascii] stands for one character
      whose code point is below 256, so [String.length] is Python's [len].
    - A Python [int] is a [Z]; list slicing [l[:n]] is written out for
      negative [n] as well.
    - A Python [dict] is an association list in insertion order.
    - The language model, the embedding service and the vector backend are
      outside the repository: they are fields of an environment, indexed by
      the number of requests issued so far, so that two identical requests
      may be answered differently.
    - Exceptions are values of [Outcome]; a method of an object is a
      function from the object's state to an outcome and a new state. *)

From Stdlib Require Import List String Ascii ZArith Lia Bool Arith PeanoNat.
From Stdlib Require Import QArith DecimalString.
From Stdlib Require Import Permutation Sorted.
Import ListNotations.

Local Open Scope string_scope.
Local Open Scope list_scope.
Local Open Scope nat_scope.

(** ** Python primitives on strings and lists *)

Module Py.

Definition code (c : ascii) : nat := nat_of_ascii c.

(** [str.isspace] on one character, for code points below 256. *)
Definition isspace (c : ascii) : bool :=
  let n := code c in
  ((9 <=? n) && (n <=? 13)) || ((28 <=? n) && (n <=? 32))
  || (n =? 133) || (n =? 160).

(** [str.lower] on one character: the ASCII capitals and the Latin-1
    capitals (all of 192..222 but the multiplication sign 215). *)
Definition lower_char (c : ascii) : ascii :=
  let n := code c in
  if ((65 <=? n) && (n <=? 90))
     || ((192 <=? n) && (n <=? 222) && negb (n =? 215))
  then ascii_of_nat (n + 32) else c.

Fixpoint lower (s : string) : string :=
  match s with
  | EmptyString => EmptyString
  | String c s' => String (lower_char c) (lower s')
  end.

Fixpoint lstrip_by (p : ascii -> bool) (s : string) : string :=
  match s with
  | EmptyString => EmptyString
  | String c s' => if p c then lstrip_by p s' else s
  end.

Fixpoint rev_onto (s acc : string) : string :=
  match s with
  | EmptyString => acc
  | String c s' => rev_onto s' (String c acc)
  end.

Definition reverse (s : string) : string := rev_onto s EmptyString.

Definition strip_by (p : ascii -> bool) (s : string) : string :=
  reverse (lstrip_by p (reverse (lstrip_by p s))).

(** [s.strip()] *)
Definition strip (s : string) : string := strip_by isspace s.

(** [s.strip(c)] for a one-character argument. *)
Definition strip_char (c : ascii) (s : string) : string :=
  strip_by (Ascii.eqb c) s.

(** [s.split()]: the maximal runs of characters that are not white space. *)
Fixpoint split_from (cur : string) (s : string) : list string :=
  match s with
  | EmptyString => if String.eqb cur "" then [] else [reverse cur]
  | String c s' =>
      if isspace c
      then (if String.eqb cur "" then split_from "" s'
            else reverse cur :: split_from "" s')
      else split_from (String c cur) s'
  end.

Definition split (s : string) : list string := split_from "" s.

(** [s.split(sep)] for a one-character separator: empty fields are kept. *)
Fixpoint split_on_from (sep : ascii) (cur : string) (s : string) : list string :=
  match s with
  | EmptyString => [reverse cur]
  | String c s' =>
      if Ascii.eqb c sep
      then reverse cur :: split_on_from sep "" s'
      else split_on_from sep (String c cur) s'
  end.

Definition split_on (sep : ascii) (s : string) : list string :=
  split_on_from sep "" s.

(** [s.count(c)] for a one-character argument. *)
Fixpoint count (c : ascii) (s : string) : nat :=
  match s with
  | EmptyString => 0
  | String d s' => (if Ascii.eqb d c then 1 else 0) + count c s'
  end.

(** [sub in s] *)
Fixpoint contains (sub s : string) : bool :=
  String.prefix sub s
  || match s with
     | EmptyString => false
     | String _ s' => contains sub s'
     end.

Definition len (s : string) : nat := String.length s.

(** [x in l] for a list of strings. *)
Definition mem (x : string) (l : list string) : bool :=
  existsb (String.eqb x) l.

(** [l[:n]] for any integer [n]: a negative [n] counts from the end. *)
Definition slice_to {A} (n : Z) (l : list A) : list A :=
  if (0 <=? n)%Z then firstn (Z.to_nat n) l
  else firstn (List.length l - Z.to_nat (- n)) l.

(** No string occurs twice in [l]. *)
Fixpoint distinct (l : list string) : bool :=
  match l with
  | [] => true
  | x :: rest => negb (mem x rest) && distinct rest
  end.

(** [any(w in s for w in ws)] *)
Definition any_in (ws : list string) (s : string) : bool :=
  existsb (fun w => contains w s) ws.

(** A dictionary keyed by strings, in insertion order. *)
Section Dict.
Context {V : Type}.

Fixpoint get (k : string) (d : list (string * V)) : option V :=
  match d with
  | [] => None
  | (k', v) :: d' => if String.eqb k k' then Some v else get k d'
  end.

(** [d[k] = v]: an existing key keeps its place, a new one goes last. *)
Fixpoint set (k : string) (v : V) (d : list (string * V)) : list (string * V) :=
  match d with
  | [] => [(k, v)]
  | (k', v') :: d' =>
      if String.eqb k k' then (k', v) :: d' else (k', v') :: set k v d'
  end.

(** [d.pop(next(iter(d)))]: drop the entry inserted first. *)
Definition pop_first (d : list (string * V)) : list (string * V) := tl d.

Definition keys (d : list (string * V)) : list string := map fst d.
End Dict.

End Py.

(** ** Outcomes of calls *)

(** The exceptions that travel through the modelled code. *)
Inductive Exn : Type :=
| KeyError (key : string)
| IndexError
| BackendError (msg : string).

(** What a method call produces: a value, or a raised exception. *)
Inductive Outcome (A : Type) : Type :=
| Ok (a : A)
| Raise (e : Exn).
Arguments Ok {A} a.
Arguments Raise {A} e.

(** What a request to an outside service produces: its answer, or an
    exception whose text is [msg]. *)
Inductive Reply (A : Type) : Type :=
| Returned (a : A)
| Failed (msg : string).
Arguments Returned {A} a.
Arguments Failed {A} msg.

(** A method of an object whose state has type [S]. The state is kept when
    an exception is raised, as Python keeps the fields of [self]. *)
Definition Method (S A : Type) : Type := S -> Outcome A * S.

Definition ret {S A} (a : A) : Method S A := fun s => (Ok a, s).

Definition raise {S A} (e : Exn) : Method S A := fun s => (Raise e, s).

Definition bind {S A B} (m : Method S A) (k : A -> Method S B) : Method S B :=
  fun s =>
    match m s with
    | (Ok a, s') => k a s'
    | (Raise e, s') => (Raise e, s')
    end.

(** [try: m finally: f] *)
Definition finally {S A} (m : Method S A) (f : S -> S) : Method S A :=
  fun s => let (out, s') := m s in (out, f s').

Declare Scope method_scope.
Delimit Scope method_scope with method.
Notation "x <- m ;; k" := (bind m (fun x => k))
  (at level 100, m at next level, right associativity) : method_scope.
Notation "m ;;; k" := (bind m (fun _ => k))
  (at level 100, right associativity) : method_scope.

(** ** query_rewriter.py *)

Module RewriteResult.

(** The values found in the [metadata] dictionary of a result. *)
Inductive MetaValue : Type :=
| MInt (n : Z)
| MBool (b : bool)
| MFloat (q : Q)
| MStr (s : string)
| MList (l : list string).

Definition truthy (v : MetaValue) : bool :=
  match v with
  | MInt n => negb (n =? 0)%Z
  | MBool b => b
  | MFloat q => negb (Qeq_bool q 0)
  | MStr s => negb (String.eqb s "")
  | MList l => negb (List.length l =? 0)
  end.

(** The dictionary returned by [rewrite]: the keys [original],
    [rewritten] and [strategy] are always there, [metadata] and [error]
    are there or not. *)
Record t : Type := mk {
  original : string;
  rewritten : list string;
  strategy : string;
  metadata : option (list (string * MetaValue));
  error : option string
}.

Definition with_rewritten (l : list string) (r : t) : t :=
  mk (original r) l (strategy r) (metadata r) (error r).

Definition with_metadata (m : list (string * MetaValue)) (r : t) : t :=
  mk (original r) (rewritten r) (strategy r) (Some m) (error r).

End RewriteResult.

Module QueryRewriter.
Import Py.
Local Open Scope method_scope.

Inductive RewriteStrategy : Type :=
| EXPANSION | DECOMPOSITION | REFINEMENT | HYBRID.

Definition value (s : RewriteStrategy) : string :=
  match s with
  | EXPANSION => "expansion"
  | DECOMPOSITION => "decomposition"
  | REFINEMENT => "refinement"
  | HYBRID => "hybrid"
  end.

(** The three prompt templates are fixed texts; a prompt is determined
    by the template and by what is spliced into it. *)
Inductive Prompt : Type :=
| ExpansionPrompt (query : string) (max_queries : Z)
| DecompositionPrompt (query : string) (max_queries : Z)
| RefinementPrompt (query : string) (context_str : string).

Record ChatRequest : Type := {
  prompt : Prompt;
  temperature : Q;
  max_tokens : Z
}.

(** What the module takes from outside the repository. The first
    argument of a service is the number of requests issued before this
    one. A reply that makes the code inside a [try] block raise (no
    choice, no content, a malformed vector) is a [Failed] reply. *)
Class Env : Type := {
  (** the values of a context dictionary, with [bool(v)], [str(v)] and
      [str(d)] for a whole dictionary *)
  Any : Type;
  truthy : Any -> bool;
  str : Any -> string;
  str_dict : list (string * Any) -> string;
  (** [hashlib.md5(s.encode()).hexdigest()] *)
  md5_hexdigest : string -> string;
  (** [client.chat.completions.create(...).choices[0].message.content] *)
  chat_completions_create : nat -> ChatRequest -> Reply string;
  (** [[item.embedding for item in client.embeddings.create(...).data]] *)
  Embedding : Type;
  embeddings_create : nat -> list string -> Reply (list Embedding);
  (** the floating-point computations: the cosine of two vectors, the
      test [similarity > 0.95], and [a > b * 0.7] on two lengths *)
  Similarity : Type;
  cosine : Embedding -> Embedding -> Similarity;
  gt_095 : Similarity -> bool;
  gt_70_percent : nat -> nat -> bool
}.

Section Rewriter.
Context {E : Env}.

Definition Context_ : Type := option (list (string * Any)).

(** The fields of a [QueryRewriter]; [client] counts the requests
    issued through [self.client]. *)
Record Self : Type := mkSelf {
  client : nat;
  strategy : RewriteStrategy;
  max_queries : Z;
  _query_cache : list (string * RewriteResult.t)
}.

Definition __init__ (strategy : RewriteStrategy) : Self :=
  mkSelf 0 strategy 3 [].

Definition set_max_queries (m : Z) : Method Self unit :=
  fun self => (Ok tt, mkSelf (client self) (strategy self) m (_query_cache self)).

Definition set_query_cache (c : list (string * RewriteResult.t)) : Method Self unit :=
  fun self => (Ok tt, mkSelf (client self) (strategy self) (max_queries self) c).

Definition get_self : Method Self Self := fun self => (Ok self, self).

(** One request to the completion service. *)
Definition complete (request : ChatRequest) : Method Self (Reply string) :=
  fun self =>
    (Ok (chat_completions_create (client self) request),
     mkSelf (S (client self)) (strategy self) (max_queries self) (_query_cache self)).

(** One request to the embedding service. *)
Definition embed (input : list string) : Method Self (Reply (list Embedding)) :=
  fun self =>
    (Ok (embeddings_create (client self) input),
     mkSelf (S (client self)) (strategy self) (max_queries self) (_query_cache self)).

Definition str_int (n : Z) : string := NilZero.string_of_int (Z.to_int n).

(** [str(context) if context else ""] *)
Definition context_str_of (context : Context_) : string :=
  match context with
  | Some (b :: d) => str_dict (b :: d)
  | _ => ""
  end.

Definition _get_cache_key (self : Self) (query : string) (context : Context_) : string :=
  let context_str := context_str_of context in
  let combined :=
    (query ++ ":" ++ value (strategy self) ++ ":"
       ++ str_int (max_queries self) ++ ":" ++ context_str)%string in
  md5_hexdigest combined.

(** The pairs [(i, j, similarity)], [i < j], whose similarity exceeds
    the threshold, in the order of the two nested loops. *)
Definition similar_pairs_of (embeddings : list Embedding) : list (nat * nat * Similarity) :=
  let n := List.length embeddings in
  flat_map
    (fun i =>
       flat_map
         (fun j =>
            match nth_error embeddings i, nth_error embeddings j with
            | Some ei, Some ej =>
                let similarity := cosine ei ej in
                if gt_095 similarity then [(i, j, similarity)] else []
            | _, _ => []
            end)
         (seq (i + 1) (n - (i + 1))))
    (seq 0 n).

Definition _calculate_semantic_similarity (queries : list string)
  : Method Self (list (nat * nat * Similarity)) :=
  if List.length queries <=? 1 then ret []
  else
    response <- embed queries ;;
    match response with
    | Returned embeddings => ret (similar_pairs_of embeddings)
    | Failed _ => ret []
    end.

(** The first loop of [_deduplicate_queries]. *)
Fixpoint unique_from (seen : list string) (queries : list string) : list string :=
  match queries with
  | [] => []
  | q :: rest =>
      let q_lower := strip (lower q) in
      if mem q_lower seen then unique_from seen rest
      else q :: unique_from (q_lower :: seen) rest
  end.

(** The loop over the similar pairs; [unique_queries[i]] raises when
    [i] is out of range. *)
Fixpoint mark_from (unique_queries : list string) (to_remove : list nat)
    (similar_pairs : list (nat * nat * Similarity)) : Outcome (list nat) :=
  match similar_pairs with
  | [] => Ok to_remove
  | (i, j, _) :: rest =>
      match nth_error unique_queries i, nth_error unique_queries j with
      | Some qi, Some qj =>
          if len qj <? len qi
          then mark_from unique_queries (i :: to_remove) rest
          else mark_from unique_queries (j :: to_remove) rest
      | _, _ => Raise IndexError
      end
  end.

(** [[q for idx, q in enumerate(l) if idx not in to_remove]], counting
    from [idx]. *)
Fixpoint keep_from (to_remove : list nat) (idx : nat) (l : list string) : list string :=
  match l with
  | [] => []
  | q :: rest =>
      if existsb (Nat.eqb idx) to_remove then keep_from to_remove (S idx) rest
      else q :: keep_from to_remove (S idx) rest
  end.

Definition _deduplicate_queries (queries : list string) : Method Self (list string) :=
  if List.length queries <=? 1 then ret queries
  else
    let unique_queries := unique_from [] queries in
    if List.length unique_queries <=? 1 then ret unique_queries
    else
      similar_pairs <- _calculate_semantic_similarity unique_queries ;;
      match similar_pairs with
      | [] => ret unique_queries
      | _ :: _ =>
          match mark_from unique_queries [] similar_pairs with
          | Ok to_remove => ret (keep_from to_remove 0 unique_queries)
          | Raise e => raise e
          end
      end.

Definition has_multiple_questions (query : string) : bool :=
  (1 <? count "?" query) || contains " y " (lower query) || contains " o " (lower query).

Definition has_comparisons (query : string) : bool :=
  any_in ["comparar"; "diferencia"; "versus"; "vs"; "mejor"] (lower query).

Definition o_acute : string := String (ascii_of_nat 243) "".
Definition e_acute : string := String (ascii_of_nat 233) "".

Definition has_conditionals (query : string) : bool :=
  any_in ["si"; "cuando"; ("c" ++ o_acute ++ "mo")%string;
          ("por qu" ++ e_acute)%string; ("d" ++ o_acute ++ "nde")%string]
         (lower query).

Definition _determine_query_complexity (query : string) : string :=
  let words := split query in
  let word_count := List.length words in
  if (word_count <=? 5) && negb (has_multiple_questions query) then "simple"
  else if (15 <? word_count) || has_multiple_questions query || has_comparisons query
       then "complex"
       else "medium".

Definition _adjust_max_queries (self : Self) (query : string) : Z :=
  let complexity := _determine_query_complexity query in
  if String.eqb complexity "simple" then Z.min 2 (max_queries self)
  else if String.eqb complexity "complex" then Z.min 5 (Z.max 3 (max_queries self))
  else max_queries self.

Definition newline : ascii := "010"%char.

(** [[q.strip() for q in lines if q.strip() and len(q.strip()) > 10]] *)
Definition long_lines (lines : list string) : list string :=
  map strip
      (filter (fun q => negb (String.eqb (strip q) "") && (10 <? len (strip q))) lines).

Definition _expand_query (query : string) (context : Context_)
  : Method Self RewriteResult.t :=
  self <- get_self ;;
  response <- complete {| prompt := ExpansionPrompt query (max_queries self);
                          temperature := 0.4; max_tokens := 350 |} ;;
  match response with
  | Returned content =>
      let expanded_queries := split_on newline (strip content) in
      let expanded_queries := long_lines expanded_queries in
      let expanded_queries := slice_to (max_queries self) expanded_queries in
      ret (RewriteResult.mk query (query :: expanded_queries) "expansion"
             (Some [("num_variations",
                      RewriteResult.MInt (Z.of_nat (List.length expanded_queries)));
                    ("temperature", RewriteResult.MFloat 0.4)])
             None)
  | Failed e =>
      ret (RewriteResult.mk query [query] "expansion" None (Some e))
  end.

Definition _decompose_query (query : string) (context : Context_)
  : Method Self RewriteResult.t :=
  self <- get_self ;;
  response <- complete {| prompt := DecompositionPrompt query (max_queries self);
                          temperature := 0.3; max_tokens := 350 |} ;;
  match response with
  | Returned content =>
      let sub_queries := split_on newline (strip content) in
      let sub_queries := long_lines sub_queries in
      let sub_queries := slice_to (max_queries self) sub_queries in
      ret (RewriteResult.mk query
             (if 1 <? List.length sub_queries then sub_queries else [query])
             "decomposition"
             (Some [("num_sub_queries",
                      RewriteResult.MInt (Z.of_nat (List.length sub_queries)));
                    ("was_decomposed",
                      RewriteResult.MBool (1 <? List.length sub_queries));
                    ("temperature", RewriteResult.MFloat 0.4)])
             None)
  | Failed e =>
      ret (RewriteResult.mk query [query] "decomposition" None (Some e))
  end.

Definition history_header : string :=
  (String newline (String newline "Contexto de la Conversaci")
     ++ o_acute ++ "n:" ++ String newline "")%string.

Definition double_quote : ascii := "034"%char.
Definition single_quote : ascii := "039"%char.

(** The first block of [_refine_query]: the conversation history, when
    the context has one, under its header. *)
Definition conversation_context (context : Context_) : string :=
  match context with
  | Some d =>
      match get "conversation_history" d with
      | Some history =>
          if truthy history then (history_header ++ str history)%string else ""
      | None => ""
      end
  | None => ""
  end.

Definition _refine_query (query : string) (context : Context_)
  : Method Self RewriteResult.t :=
  let context_str := conversation_context context in
  response <- complete {| prompt := RefinementPrompt query context_str;
                          temperature := 0.1; max_tokens := 150 |} ;;
  match response with
  | Returned content =>
      let refined_query := strip content in
      let refined_query := strip_char single_quote (strip_char double_quote refined_query) in
      ret (RewriteResult.mk query
             (if negb (String.eqb refined_query "")
                 && negb (String.eqb refined_query query)
              then [refined_query] else [query])
             "refinement"
             (Some [("refined", RewriteResult.MBool (negb (String.eqb refined_query query)));
                    ("temperature", RewriteResult.MFloat 0.2)])
             None)
  | Failed e =>
      ret (RewriteResult.mk query [query] "refinement" None (Some e))
  end.

(** [l[0]] *)
Definition item0 (l : list string) : Method Self string :=
  match l with
  | x :: _ => ret x
  | [] => raise IndexError
  end.

(** [result["metadata"]] *)
Definition item_metadata (result : RewriteResult.t)
  : Method Self (list (string * RewriteResult.MetaValue)) :=
  match RewriteResult.metadata result with
  | Some m => ret m
  | None => raise (KeyError "metadata")
  end.

(** [m.get(key)] read as a condition. *)
Definition get_truthy (key : string) (m : list (string * RewriteResult.MetaValue)) : bool :=
  match get key m with
  | Some v => RewriteResult.truthy v
  | None => false
  end.

(** The last loop of [_hybrid_rewrite]; [n] is [len(unique_queries)]
    on entry. *)
Fixpoint unique_upto (max_queries : Z) (seen : list string) (n : nat)
    (all_queries : list string) : list string :=
  match all_queries with
  | [] => []
  | q :: rest =>
      let q_clean := lower (strip q) in
      if negb (mem q_clean seen) && (10 <? len (strip q))
      then strip q ::
           (if (max_queries <=? Z.of_nat (S n))%Z then []
            else unique_upto max_queries (q_clean :: seen) (S n) rest)
      else unique_upto max_queries seen n rest
  end.

(** [[q for q in l if q not in [query, refined_query]]] *)
Definition novel (query refined_query : string) (l : list string) : list string :=
  filter (fun q => negb (mem q [query; refined_query])) l.

(** [_expand_query] run with [self.max_queries] set to [m] for the
    call and put back afterwards. *)
Definition expand_with_max (m : Z) (query : string) (context : Context_)
  : Method Self RewriteResult.t :=
  self <- get_self ;;
  let original_max := max_queries self in
  set_max_queries m ;;;
  expanded_result <- _expand_query query context ;;
  set_max_queries original_max ;;;
  ret expanded_result.

Definition _hybrid_rewrite (query : string) (context : Context_)
  : Method Self RewriteResult.t :=
  let complexity := _determine_query_complexity query in
  branch <-
    (if String.eqb complexity "simple" then
       refined_result <- _refine_query query context ;;
       refined_query <- item0 (RewriteResult.rewritten refined_result) ;;
       if negb (String.eqb refined_query query)
       then ret ([query; refined_query], ["refinement"; "expansion"])
       else
         expanded_result <- expand_with_max 2 query context ;;
         ret (slice_to 2 (RewriteResult.rewritten expanded_result),
              ["refinement"; "expansion"])
     else if String.eqb complexity "complex" then
       decomposed_result <- _decompose_query query context ;;
       decomposed_metadata <- item_metadata decomposed_result ;;
       if get_truthy "was_decomposed" decomposed_metadata
       then ret (RewriteResult.rewritten decomposed_result, ["decomposition"])
       else
         refined_result <- _refine_query query context ;;
         refined_query <- item0 (RewriteResult.rewritten refined_result) ;;
         self <- get_self ;;
         expanded_result <-
           expand_with_max (Z.max 2 (max_queries self - 1)) refined_query context ;;
         ret ([query; refined_query]
                ++ novel query refined_query (RewriteResult.rewritten expanded_result),
              ["refinement"; "expansion"])
     else
       refined_result <- _refine_query query context ;;
       refined_query <- item0 (RewriteResult.rewritten refined_result) ;;
       self <- get_self ;;
       if negb (String.eqb refined_query query)
          && gt_70_percent (len refined_query) (len query)
       then
         expanded_result <-
           expand_with_max (Z.max 2 (max_queries self - 1)) refined_query context ;;
         ret ([query; refined_query]
                ++ novel query refined_query (RewriteResult.rewritten expanded_result),
              ["refinement"; "expansion"])
       else
         expanded_result <-
           expand_with_max (Z.max 2 (max_queries self)) query context ;;
         ret (RewriteResult.rewritten expanded_result, ["refinement"; "expansion"])) ;;
  let all_queries := fst branch in
  let strategies_applied := snd branch in
  self <- get_self ;;
  let unique_queries := unique_upto (max_queries self) [] 0 all_queries in
  ret (RewriteResult.mk query unique_queries "hybrid"
         (Some [("num_variations",
                  RewriteResult.MInt (Z.of_nat (List.length unique_queries)));
                ("strategies_applied", RewriteResult.MList strategies_applied);
                ("complexity", RewriteResult.MStr complexity)])
         None).

(** The strategy dispatch of [rewrite]. *)
Definition apply_strategy (query : string) (context : Context_)
  : Method Self RewriteResult.t :=
  self <- get_self ;;
  match strategy self with
  | EXPANSION => _expand_query query context
  | DECOMPOSITION => _decompose_query query context
  | REFINEMENT => _refine_query query context
  | HYBRID => _hybrid_rewrite query context
  end.

(** The block "Apply semantic deduplication" of [rewrite]. *)
Definition apply_deduplication (result : RewriteResult.t)
  : Method Self RewriteResult.t :=
  if 1 <? List.length (RewriteResult.rewritten result) then
    let original_count := List.length (RewriteResult.rewritten result) in
    deduplicated <- _deduplicate_queries (RewriteResult.rewritten result) ;;
    let result := RewriteResult.with_rewritten deduplicated result in
    if List.length deduplicated <? original_count then
      m <- item_metadata result ;;
      let m := set "deduplicated" (RewriteResult.MBool true) m in
      let m := set "removed_duplicates"
                 (RewriteResult.MInt
                    (Z.of_nat original_count - Z.of_nat (List.length deduplicated))) m in
      ret (RewriteResult.with_metadata m result)
    else ret result
  else ret result.

(** The block "Cache the result" of [rewrite]. *)
Definition store (cache_key : string) (result : RewriteResult.t) : Method Self unit :=
  self <- get_self ;;
  let cache := set cache_key result (_query_cache self) in
  set_query_cache (if 100 <? List.length cache then pop_first cache else cache).

Definition rewrite (query : string) (context : Context_)
  : Method Self RewriteResult.t :=
  fun self =>
    let cache_key := _get_cache_key self query context in
    match get cache_key (_query_cache self) with
    | Some cached => (Ok cached, self)
    | None =>
        let original_max := max_queries self in
        let adaptive_max := _adjust_max_queries self query in
        finally
          ((if negb (adaptive_max =? original_max)%Z
            then set_max_queries adaptive_max else ret tt) ;;;
           result <- apply_strategy query context ;;
           result <- apply_deduplication result ;;
           store cache_key result ;;;
           ret result)
          (fun self' =>
             mkSelf (client self') (strategy self') original_max (_query_cache self'))
          self
    end.

(** [[self.rewrite(query, context) for query in queries]] *)
Fixpoint batch_rewrite (queries : list string) (context : Context_)
  : Method Self (list RewriteResult.t) :=
  match queries with
  | [] => ret []
  | query :: rest =>
      result <- rewrite query context ;;
      results <- batch_rewrite rest context ;;
      ret (result :: results)
  end.

Definition create_rewriter (strategy : RewriteStrategy) (max_queries : Z) : Self :=
  let rewriter := __init__ strategy in
  mkSelf (client rewriter) strategy max_queries (_query_cache rewriter).

End Rewriter.
End QueryRewriter.

(** ** vector_store.py: [search] and [search_multiple] *)

Module VectorStore.
Import Py.
Local Open Scope method_scope.

(** What the module takes from outside the repository: the vector
    backend, the order of its scores (floating-point numbers, compared
    with [<] by [list.sort]) and the configured default of [top_k]. *)
Class Backend : Type := {
  Metadata : Type;
  Score : Type;
  lt : Score -> Score -> bool;
  (** [vector_store.similarity_search_with_score(query, k, filter)],
      after the given number of earlier searches *)
  similarity_search_with_score :
    nat -> string -> Z -> option Metadata -> Reply (list (string * Metadata * Score));
  top_k_results : Z
}.

Section Store.
Context {B : Backend}.

(** One formatted hit: the dictionary with the keys [content],
    [metadata] and [score]. *)
Record Result : Type := mkResult {
  content : string;
  metadata : Metadata;
  score : Score
}.

(** [vector_store] is [None] until documents are added; otherwise it is
    the backend, with the number of searches it has served. *)
Record Self : Type := mkSelf {
  vector_store : option nat
}.

Definition format (hit : string * Metadata * Score) : Result :=
  let '(page_content, doc_metadata, s) := hit in
  mkResult page_content doc_metadata s.

(** [top_k or settings.top_k_results] *)
Definition or_default (top_k : option Z) : Z :=
  match top_k with
  | Some k => if (k =? 0)%Z then top_k_results else k
  | None => top_k_results
  end.

Definition search (query : string) (top_k : option Z) (filter_metadata : option Metadata)
  : Method Self (list Result) :=
  fun self =>
    match vector_store self with
    | None => (Ok [], self)
    | Some served =>
        let top_k := or_default top_k in
        match similarity_search_with_score served query top_k filter_metadata with
        | Returned results => (Ok (map format results), mkSelf (Some (S served)))
        | Failed e => (Raise (BackendError e), mkSelf (Some (S served)))
        end
    end.

(** The inner loop of [search_multiple]: the pair is [all_results] and
    [seen_contents]. *)
Fixpoint collect (deduplicate : bool) (results : list Result)
    (acc : list Result * list string) : list Result * list string :=
  match results with
  | [] => acc
  | result :: rest =>
      let '(all_results, seen_contents) := acc in
      if deduplicate then
        if mem (content result) seen_contents
        then collect deduplicate rest acc
        else collect deduplicate rest
               (all_results ++ [result], content result :: seen_contents)
      else collect deduplicate rest (all_results ++ [result], seen_contents)
  end.

(** The outer loop of [search_multiple]. *)
Fixpoint gather (deduplicate : bool) (top_k : option Z) (queries : list string)
    (acc : list Result * list string) : Method Self (list Result * list string) :=
  match queries with
  | [] => ret acc
  | query :: rest =>
      results <- search query top_k None ;;
      gather deduplicate top_k rest (collect deduplicate results acc)
  end.

(** [all_results.sort(key=lambda x: x["score"], reverse=True)]: the
    sort is stable, so a hit goes behind the hits whose score is not
    smaller than its own. *)
Fixpoint insert_desc (r : Result) (sorted : list Result) : list Result :=
  match sorted with
  | [] => [r]
  | e :: rest =>
      if lt (score e) (score r) then r :: e :: rest
      else e :: insert_desc r rest
  end.

Definition sort_desc (l : list Result) : list Result :=
  fold_left (fun sorted r => insert_desc r sorted) l [].

Definition search_multiple (queries : list string) (top_k : option Z)
    (deduplicate : bool) : Method Self (list Result) :=
  acc <- gather deduplicate top_k queries ([], []) ;;
  ret (sort_desc (fst acc)).

End Store.
End VectorStore.

(** ** Scripted services, for running the code on concrete inputs *)

Module Demo.
Import Py.

(** Context values are strings; a dictionary is rendered the way Python
    renders a dictionary of plain strings. *)
Fixpoint render_items (d : list (string * string)) : string :=
  match d with
  | [] => ""
  | [(k, v)] => "'" ++ k ++ "': '" ++ v ++ "'"
  | (k, v) :: rest => "'" ++ k ++ "': '" ++ v ++ "', " ++ render_items rest
  end.

Definition render (d : list (string * string)) : string :=
  "{" ++ render_items d ++ "}".

(** Embeddings are integer vectors; the similarity of two of them is
    kept as their dot product and their two squared norms, and it
    exceeds 0.95 when the dot product is positive and its square exceeds
    0.9025 times the product of the squared norms. *)
Fixpoint dot (u v : list Z) : Z :=
  match u, v with
  | a :: u', b :: v' => a * b + dot u' v'
  | _, _ => 0
  end.

Definition cosine (u v : list Z) : Z * Z * Z := (dot u v, dot u u, dot v v).

Definition gt_095 (s : Z * Z * Z) : bool :=
  let '(d, nu, nv) := s in
  (0 <? d)%Z && (9025 * nu * nv <? 10000 * d * d)%Z.

Definition gt_70_percent (a b : nat) : bool := 7 * b <? 10 * a.

(** The environment whose completion and embedding services are the two
    given functions; the digest of a text is the text itself. *)
Definition env (chat : nat -> QueryRewriter.ChatRequest -> Reply string)
    (embeddings : nat -> list string -> Reply (list (list Z))) : QueryRewriter.Env :=
  {| QueryRewriter.Any := string;
     QueryRewriter.truthy := fun v => negb (String.eqb v "");
     QueryRewriter.str := fun v => v;
     QueryRewriter.str_dict := render;
     QueryRewriter.md5_hexdigest := fun s => s;
     QueryRewriter.chat_completions_create := chat;
     QueryRewriter.Embedding := list Z;
     QueryRewriter.embeddings_create := embeddings;
     QueryRewriter.Similarity := Z * Z * Z;
     QueryRewriter.cosine := cosine;
     QueryRewriter.gt_095 := gt_095;
     QueryRewriter.gt_70_percent := gt_70_percent |}.

(** Both services unreachable. *)
Definition offline : QueryRewriter.Env :=
  env (fun _ _ => Failed "connection refused")
      (fun _ _ => Failed "connection refused").

Definition nl : string := String QueryRewriter.newline "".

(** A completion service that answers every kind of prompt. *)
Definition answer (request : QueryRewriter.ChatRequest) : string :=
  match QueryRewriter.prompt request with
  | QueryRewriter.ExpansionPrompt query _ =>
      query ++ " deducibles copagos" ++ nl
        ++ "corta" ++ nl
        ++ query ++ " limites de cobertura" ++ nl
        ++ query ++ " servicios preventivos"
  | QueryRewriter.DecompositionPrompt query _ =>
      "cobertura hospitalaria del plan A" ++ nl
        ++ "cobertura hospitalaria del plan B"
  | QueryRewriter.RefinementPrompt query _ =>
      query ++ " cobertura hospitalaria"
  end.

(** An embedding service that looks the vectors up in a table; a text
    that is not in the table gets the zero vector. *)
Definition vector_in (table : list (string * list Z)) (text : string) : list Z :=
  match get text table with
  | Some v => v
  | None => [0; 0]%Z
  end.

Definition online (table : list (string * list Z)) : QueryRewriter.Env :=
  env (fun _ request => Returned (answer request))
      (fun _ input => Returned (map (vector_in table) input)).

(** Three variants: the first two are nearly parallel, the third is far
    from both. *)
Definition three_variants : list string :=
  ["cobertura del plan"; "cobertura del plan familiar"; "copagos y deducibles"].

Definition three_vectors : list (string * list Z) :=
  [("cobertura del plan", [100; 0]%Z);
   ("cobertura del plan familiar", [99; 14]%Z);
   ("copagos y deducibles", [80; 60]%Z)].

(** The queries [consulta 0], ..., [consulta n-1]. *)
Definition numbered (n : nat) : list string :=
  map (fun i => ("consulta " ++ QueryRewriter.str_int (Z.of_nat i))%string) (seq 0 n).

(** A vector backend with integer scores that holds two documents per
    query word and fails on the query [caida]. *)
Definition backend : VectorStore.Backend :=
  {| VectorStore.Metadata := string;
     VectorStore.Score := Z;
     VectorStore.lt := Z.ltb;
     VectorStore.similarity_search_with_score :=
       fun _ query _ _ =>
         if String.eqb query "caida" then Failed "backend unreachable"
         else if String.eqb query "plan"
         then Returned [("doc plan", "a.pdf", 3%Z); ("doc comun", "c.pdf", 9%Z)]
         else Returned [("doc comun", "c.pdf", 1%Z); ("doc otro", "b.pdf", 5%Z)];
     VectorStore.top_k_results := 5 |}.

(** A query of sixteen words. *)
Definition sixteen_words : string :=
  "uno dos tres cuatro cinco seis siete ocho nueve diez once doce trece catorce quince fin".

End Demo.

(** ** Vocabulary of the statements *)

Module Spec.
Import Py QueryRewriter.

(** [l1] is [l2] with some elements left out, the others in their order. *)
Inductive subseq {A : Type} : list A -> list A -> Prop :=
| subseq_nil : subseq [] []
| subseq_skip (x : A) (l1 l2 : list A) : subseq l1 l2 -> subseq l1 (x :: l2)
| subseq_keep (x : A) (l1 l2 : list A) : subseq l1 l2 -> subseq (x :: l1) (x :: l2).

(** What two variants must share to count as the same variant in the
    first stage of the deduplication. *)
Definition exact_key (q : string) : string := strip (lower q).

Section Rewriter.
Context {E : Env}.

(** Position [k] is marked for removal: it is the longer member, or on
    equal lengths the second member, of a pair of positions [i < j] whose
    embeddings are more similar than the threshold. *)
Definition marked (unique_queries : list string) (embeddings : list Embedding) (k : nat) : Prop :=
  exists i j qi qj ei ej,
    i < j
    /\ nth_error unique_queries i = Some qi /\ nth_error unique_queries j = Some qj
    /\ nth_error embeddings i = Some ei /\ nth_error embeddings j = Some ej
    /\ gt_095 (cosine ei ej) = true
    /\ ((len qj < len qi /\ k = i) \/ (len qi <= len qj /\ k = j)).

(** The reading of the deduplication under which a pair that is not more
    similar than the threshold always keeps both of its members. *)
Definition keeps_dissimilar_pairs (queries : list string) (self : Self) : Prop :=
  forall embeddings out self',
    embeddings_create (client self) (unique_from [] queries) = Returned embeddings ->
    _deduplicate_queries queries self = (Ok out, self') ->
    forall i j qi qj ei ej,
      i < j ->
      nth_error (unique_from [] queries) i = Some qi ->
      nth_error (unique_from [] queries) j = Some qj ->
      nth_error embeddings i = Some ei -> nth_error embeddings j = Some ej ->
      gt_095 (cosine ei ej) = false ->
      In qi out /\ In qj out.

(** A method that leaves the strategy, the budget and the cache of the
    rewriter as it found them, whatever it returns or raises; only the
    request counter may move. *)
Definition stable {A} (m : Method Self A) : Prop :=
  forall self out self', m self = (out, self') ->
    strategy self' = strategy self
    /\ max_queries self' = max_queries self
    /\ _query_cache self' = _query_cache self.

(** The rewriter after [self.max_queries = m]. *)
Definition with_max (m : Z) (self : Self) : Self :=
  mkSelf (client self) (strategy self) m (_query_cache self).

(** The cache after [cache[key] = result] and the eviction that follows. *)
Definition stored (key : string) (result : RewriteResult.t)
    (cache : list (string * RewriteResult.t)) : list (string * RewriteResult.t) :=
  let cache := set key result cache in
  if 100 <? List.length cache then pop_first cache else cache.

(** The request that [_expand_query] sends for a query. *)
Definition expansion_request (self : Self) (query : string) : ChatRequest :=
  {| prompt := ExpansionPrompt query (max_queries self);
     temperature := 0.4; max_tokens := 350 |}.

(** The reading of the expansion row of the strategy table under which
    the truncation to the budget comes after the original query is put in
    front: a successful expansion begins with the query and holds at most
    [max_queries] variants. *)
Definition expansion_within_budget (self : Self) (query : string) (context : Context_) : Prop :=
  forall r self',
    _expand_query query context self = (Ok r, self') ->
    RewriteResult.error r = None ->
    hd_error (RewriteResult.rewritten r) = Some query
    /\ (Z.of_nat (List.length (RewriteResult.rewritten r)) <= max_queries self)%Z.

(** The requests that [_decompose_query] and [_refine_query] send. *)
Definition decomposition_request (self : Self) (query : string) : ChatRequest :=
  {| prompt := DecompositionPrompt query (max_queries self);
     temperature := 0.3; max_tokens := 350 |}.

Definition refinement_request (query : string) (context : Context_) : ChatRequest :=
  {| prompt := RefinementPrompt query (conversation_context context);
     temperature := 0.1; max_tokens := 150 |}.

(** The rewriter after one more request to an outside service. *)
Definition after_request (self : Self) : Self :=
  mkSelf (S (client self)) (strategy self) (max_queries self) (_query_cache self).

(** The rewriters a program can hold: a new one, one on which [rewrite]
    was called (whatever the call did), and one whose public fields
    [strategy] and [max_queries] were assigned. *)
Inductive reachable : Self -> Prop :=
| reach_init (s : RewriteStrategy) : reachable (__init__ s)
| reach_rewrite (self : Self) (query : string) (context : Context_)
    (out : Outcome RewriteResult.t) (self' : Self) :
    reachable self -> rewrite query context self = (out, self') -> reachable self'
| reach_assign (self : Self) (s : RewriteStrategy) (m : Z) :
    reachable self -> reachable (mkSelf (client self) s m (_query_cache self)).

(** A result that, if it came from the hybrid strategy on a simple
    query, holds at most two variants. *)
Definition small_when_simple (r : RewriteResult.t) : Prop :=
  RewriteResult.strategy r = "hybrid" ->
  _determine_query_complexity (RewriteResult.original r) = "simple" ->
  List.length (RewriteResult.rewritten r) <= 2.

(** The entry stored under the key of a call, if there is one, was stored
    for the same query under the hybrid strategy: the digest of the call
    collides with no other entry of the cache. *)
Definition own_entry (self : Self) (query : string) (context : Context_) : Prop :=
  forall cached,
    get (_get_cache_key self query context) (_query_cache self) = Some cached ->
    RewriteResult.original cached = query /\ RewriteResult.strategy cached = "hybrid".

End Rewriter.
End Spec.

Module FusionSpec.
Import Py VectorStore.
Local Open Scope method_scope.

Section Store.
Context {B : Backend}.

(** The searches of [search_multiple] alone, one variant after the other:
    the hits of every variant, or the first exception. *)
Fixpoint search_each (queries : list string) (top_k : option Z)
  : Method Self (list (list Result)) :=
  match queries with
  | [] => ret []
  | query :: rest =>
      results <- search query top_k None ;;
      others <- search_each rest top_k ;;
      ret (results :: others)
  end.

(** [r] is the first of [hits] to carry its content. *)
Definition first_seen (r : Result) (hits : list Result) : Prop :=
  exists before after,
    hits = before ++ r :: after /\ ~ In (content r) (map content before).

(** [a] may stand before [b] in a list sorted by descending score. *)
Definition not_below (a b : Result) : Prop := lt (score a) (score b) = false.

(** The reading of the fusion under which a failed search counts as no
    hit: when the backend answers at least one of the variants whenever it
    is asked, the fusion returns a result. *)
Definition absorbs_failed_searches (queries : list string) (top_k : option Z)
    (self : Self) : Prop :=
  (exists q, In q queries
             /\ forall n, exists hits,
                 similarity_search_with_score n q (or_default top_k) None = Returned hits) ->
  exists out self', search_multiple queries top_k true self = (Ok out, self').

End Store.
End FusionSpec.

(** ** rag_pipeline.py: [query] and [batch_query] *)

Module RAGPipeline.
Import Py.
Local Open Scope method_scope.

(** [try: m except Exception as e: h e] *)
Definition catch {S A : Type} (m : Method S A) (h : Exn -> Method S A) : Method S A :=
  fun s =>
    match m s with
    | (Ok a, s') => (Ok a, s')
    | (Raise e, s') => h e s'
    end.

(** [str(e)] *)
Definition str_exn (e : Exn) : string :=
  match e with
  | KeyError key => "'" ++ key ++ "'"
  | IndexError => "list index out of range"
  | BackendError msg => msg
  end.

Section Pipeline.
Context {E : QueryRewriter.Env} {B : VectorStore.Backend}.

(** The request of [_generate_answer]: the system prompt is a fixed text,
    the user prompt is built from the question and the documents, and the
    sampling settings are those of the configuration. *)
Record AnswerRequest : Type := {
  question : string;
  documents : list VectorStore.Result
}.

(** The answer service of the pipeline's own client; its first argument
    is the number of requests sent before this one. *)
Variable answer_completions_create : nat -> AnswerRequest -> Reply string.

Record RewriteInfo : Type := {
  strategy : string;
  num_queries : nat;
  queries : list string
}.

Record Source : Type := {
  content : string;
  metadata : VectorStore.Metadata;
  relevance_score : VectorStore.Score
}.

Record ResponseMetadata : Type := {
  query_rewrite : option RewriteInfo;
  documents_retrieved : nat;
  model_used : option string
}.

(** The dictionary returned by [query]: [answer] is always there. *)
Record Response : Type := {
  answer : string;
  sources : option (list Source);
  response_metadata : option ResponseMetadata;
  error : option string
}.

(** The fields of a [RAGPipeline]; [client] counts the requests sent
    through the pipeline's own client. *)
Record Self : Type := mkSelf {
  enable_rewrite : bool;
  max_queries : Z;
  client : nat;
  model : string;
  vector_store : VectorStore.Self;
  query_rewriter : option QueryRewriter.Self
}.

(** A method of the rewriter [rewriter] run as part of a method of the
    pipeline that holds it. *)
Definition on_rewriter {A} (m : Method QueryRewriter.Self A) (rewriter : QueryRewriter.Self)
  : Method Self A :=
  fun self =>
    let (out, rewriter') := m rewriter in
    (out, mkSelf (enable_rewrite self) (max_queries self) (client self) (model self)
            (vector_store self) (Some rewriter')).

(** A method of the vector store run as part of a method of the pipeline. *)
Definition on_store {A} (m : Method VectorStore.Self A) : Method Self A :=
  fun self =>
    let (out, store') := m (vector_store self) in
    (out, mkSelf (enable_rewrite self) (max_queries self) (client self) (model self)
            store' (query_rewriter self)).

Definition get_self : Method Self Self := fun self => (Ok self, self).

Definition _generate_answer (question : string) (documents : list VectorStore.Result)
  : Method Self string :=
  fun self =>
    let self' := mkSelf (enable_rewrite self) (max_queries self) (S (client self))
                   (model self) (vector_store self) (query_rewriter self) in
    match answer_completions_create (client self)
            {| question := question; documents := documents |} with
    | Returned content => (Ok (strip content), self')
    | Failed msg => (Raise (BackendError msg), self')
    end.

Definition not_found : string :=
  "I couldn't find relevant information to answer your question.".

Definition as_source (doc : VectorStore.Result) : Source :=
  {| content := VectorStore.content doc;
     metadata := VectorStore.metadata doc;
     relevance_score := VectorStore.score doc |}.

(** Step 1 of [query]: the queries to search and the rewrite information. *)
Definition rewrite_step (question : string) (context : QueryRewriter.Context_)
  : Method Self (list string * option RewriteInfo) :=
  self <- get_self ;;
  match enable_rewrite self, query_rewriter self with
  | true, Some rewriter =>
      rewrite_result <- on_rewriter (QueryRewriter.rewrite question context) rewriter ;;
      let queries_to_search := RewriteResult.rewritten rewrite_result in
      ret (queries_to_search,
           Some {| strategy := RewriteResult.strategy rewrite_result;
                   num_queries := List.length queries_to_search;
                   queries := queries_to_search |})
  | _, _ => ret ([question], None)
  end.

(** Step 2 of [query]: the retrieval. *)
Definition retrieve_step (queries_to_search : list string) (top_k : option Z)
  : Method Self (list VectorStore.Result) :=
  if 1 <? List.length queries_to_search
  then on_store (VectorStore.search_multiple queries_to_search top_k true)
  else
    match queries_to_search with
    | first :: _ => on_store (VectorStore.search first top_k None)
    | [] => raise IndexError
    end.

Definition query (question : string) (top_k : option Z)
    (context : QueryRewriter.Context_) (return_sources : bool) : Method Self Response :=
  catch
    (step1 <- rewrite_step question context ;;
     let queries_to_search := fst step1 in
     let rewrite_info := snd step1 in
     retrieved_docs <- retrieve_step queries_to_search top_k ;;
     match retrieved_docs with
     | [] =>
         ret {| answer := not_found;
                sources := Some [];
                response_metadata :=
                  Some {| query_rewrite := rewrite_info;
                          documents_retrieved := 0;
                          model_used := None |};
                error := None |}
     | _ :: _ =>
         answer <- _generate_answer question retrieved_docs ;;
         self <- get_self ;;
         ret {| answer := answer;
                sources :=
                  if return_sources
                  then Some (map as_source
                               (slice_to (VectorStore.or_default top_k) retrieved_docs))
                  else None;
                response_metadata :=
                  Some {| query_rewrite := rewrite_info;
                          documents_retrieved := List.length retrieved_docs;
                          model_used := Some (model self) |};
                error := None |}
     end)
    (fun e =>
       ret {| answer := "An error occurred: " ++ str_exn e;
              sources := None;
              response_metadata := None;
              error := Some (str_exn e) |}).


End Pipeline.
End RAGPipeline.

Module DemoPipeline.

(** An answer service that always answers, with white space around. *)
Definition answers (n : nat) (request : RAGPipeline.AnswerRequest (B := Demo.backend))
  : Reply string :=
  Returned "  Segun el documento 1, el plan cubre la hospitalizacion.  ".

(** A pipeline over a loaded store, with or without a hybrid rewriter. *)
Definition pipeline (enable_rewrite : bool) : RAGPipeline.Self :=
  RAGPipeline.mkSelf enable_rewrite 3 0 "gpt-4-turbo-preview"
    (VectorStore.mkSelf (Some 0))
    (if enable_rewrite then Some (QueryRewriter.create_rewriter QueryRewriter.HYBRID 3)
     else None).

End DemoPipeline.

Module PipelineSpec.
Import Py RAGPipeline.

Section Pipeline.
Context {E : QueryRewriter.Env} {B : VectorStore.Backend}.

(** The pipeline with its rewriter replaced. *)
Definition with_rewriter (rewriter : QueryRewriter.Self) (self : Self) : Self :=
  mkSelf (enable_rewrite self) (max_queries self) (client self) (model self)
    (vector_store self) (Some rewriter).

(** The pipeline with its store replaced. *)
Definition with_store (store : VectorStore.Self) (self : Self) : Self :=
  mkSelf (enable_rewrite self) (max_queries self) (client self) (model self)
    store (query_rewriter self).

(** The pipeline after one more request for an answer. *)
Definition after_answer (self : Self) : Self :=
  mkSelf (enable_rewrite self) (max_queries self) (S (client self)) (model self)
    (vector_store self) (query_rewriter self).

(** The response of [query] to the exception [e]. *)
Definition error_response (e : Exn) : Response :=
  {| answer := "An error occurred: " ++ str_exn e;
     sources := None;
     response_metadata := None;
     error := Some (str_exn e) |}.

(** The response of [query] when nothing was retrieved. *)
Definition not_found_response (rewrite_info : option RewriteInfo) : Response :=
  {| answer := not_found;
     sources := Some [];
     response_metadata :=
       Some {| query_rewrite := rewrite_info;
               documents_retrieved := 0;
               model_used := None |};
     error := None |}.

(** The response of [query] when documents were retrieved and the answer
    service returned [content]. *)
Definition answered_response (rewrite_info : option RewriteInfo) (top_k : option Z)
    (return_sources : bool) (model_name : string) (retrieved_docs : list VectorStore.Result)
    (content : string) : Response :=
  {| answer := strip content;
     sources :=
       if return_sources
       then Some (map as_source (slice_to (VectorStore.or_default top_k) retrieved_docs))
       else None;
     response_metadata :=
       Some {| query_rewrite := rewrite_info;
               documents_retrieved := List.length retrieved_docs;
               model_used := Some model_name |};
     error := None |}.

(** The rewrite information [query] records for a result of [rewrite]. *)
Definition info_of (r : RewriteResult.t) : RewriteInfo :=
  {| strategy := RewriteResult.strategy r;
     num_queries := List.length (RewriteResult.rewritten r);
     queries := RewriteResult.rewritten r |}.

End Pipeline.
End PipelineSpec.

Module RankSpec.
Import Py VectorStore.

Section Store.
Context {B : Backend}.


End Store.
End RankSpec.

(** ** [document_processor.py]: the text functions *)

Module DocumentProcessor.
Import Py.

(** [re.sub(r'\s+', ' ', text)]: every maximal run of white space becomes
    one space; [in_run] tells that the character before was white space. *)
Fixpoint sub_spaces_from (in_run : bool) (text : string) : string :=
  match text with
  | EmptyString => EmptyString
  | String c rest =>
      if isspace c
      then (if in_run then sub_spaces_from true rest
            else String " " (sub_spaces_from true rest))
      else String c (sub_spaces_from false rest)
  end.

Definition sub_spaces (text : string) : string := sub_spaces_from false text.

Definition preprocess_text (text : string) : string :=
  let text := sub_spaces text in
  strip text.

Section Chunks.

(** The metadata values a caller may attach, other than texts and
    integers. *)
Variable Any : Type.

Inductive MetaValue : Type :=
| MStr (s : string)
| MInt (n : Z)
| MAny (a : Any).

(** [self.text_splitter.split_text], of the text splitting library. *)
Variable split_text : string -> list string.

Record Chunk : Type := {
  content : string;
  metadata : list (string * MetaValue)
}.

(** [d.update(m)] *)
Definition update (d m : list (string * MetaValue)) : list (string * MetaValue) :=
  fold_left (fun d kv => set (fst kv) (snd kv) d) m d.

(** The loop of [load_text] from the chunk of index [i] on. *)
Fixpoint load_text_from (i : nat) (chunks : list string)
    (metadata : option (list (string * MetaValue))) : list Chunk :=
  match chunks with
  | [] => []
  | chunk :: rest =>
      let chunk_metadata :=
        [("source", MStr "raw_text");
         ("chunk_id", MInt (Z.of_nat i));
         ("chunk_size", MInt (Z.of_nat (len chunk)))] in
      let chunk_metadata :=
        match metadata with
        | Some (entry :: others) => update chunk_metadata (entry :: others)
        | _ => chunk_metadata
        end in
      {| content := chunk; metadata := chunk_metadata |}
      :: load_text_from (S i) rest metadata
  end.

Definition load_text (text : string) (metadata : option (list (string * MetaValue)))
  : list Chunk :=
  load_text_from 0 (split_text text) metadata.

End Chunks.
End DocumentProcessor.

(** ** [api.py]: the endpoints over the pipeline *)

Module Api.
Import Py.

(** What an endpoint produces: a response body, or an [HTTPException]. *)
Inductive HTTP (A : Type) : Type :=
| Respond (a : A)
| HTTPException (status_code : nat) (detail : string).
Arguments Respond {A} a.
Arguments HTTPException {A} status_code detail.

Section Endpoints.
Context {E : QueryRewriter.Env} {B : VectorStore.Backend}.

Variable answer_completions_create : nat -> RAGPipeline.AnswerRequest -> Reply string.

(** The text of the validation error of [QueryResponse] for a result
    that lacks the required field [metadata]. *)
Variable validation_error : RAGPipeline.Response -> string.

Record QueryRequest : Type := {
  question : string;
  top_k : option Z;
  max_queries : option Z;
  enable_rewrite : option bool;
  return_sources : bool;
  context : QueryRewriter.Context_
}.

(** [answer] and [metadata] are required, [sources] is optional. *)
Record QueryResponse : Type := {
  answer : string;
  sources : option (list RAGPipeline.Source);
  metadata : RAGPipeline.ResponseMetadata
}.

(** [pipeline.enable_rewrite = b] *)
Definition set_enable_rewrite (b : bool) (pipeline : RAGPipeline.Self) : RAGPipeline.Self :=
  RAGPipeline.mkSelf b (RAGPipeline.max_queries pipeline) (RAGPipeline.client pipeline)
    (RAGPipeline.model pipeline) (RAGPipeline.vector_store pipeline)
    (RAGPipeline.query_rewriter pipeline).

(** [if pipeline.query_rewriter: pipeline.query_rewriter.max_queries = n] *)
Definition set_rewriter_max_queries (n : Z) (pipeline : RAGPipeline.Self) : RAGPipeline.Self :=
  match RAGPipeline.query_rewriter pipeline with
  | Some rewriter =>
      RAGPipeline.mkSelf (RAGPipeline.enable_rewrite pipeline)
        (RAGPipeline.max_queries pipeline) (RAGPipeline.client pipeline)
        (RAGPipeline.model pipeline) (RAGPipeline.vector_store pipeline)
        (Some (QueryRewriter.mkSelf (QueryRewriter.client rewriter)
                 (QueryRewriter.strategy rewriter) n (QueryRewriter._query_cache rewriter)))
  | None => pipeline
  end.

(** [POST /query]; the state is the global [pipeline]. *)
Definition query (request : QueryRequest) (pipeline : option RAGPipeline.Self)
  : HTTP QueryResponse * option RAGPipeline.Self :=
  match pipeline with
  | None => (HTTPException 503 "Pipeline not initialized", None)
  | Some pipeline =>
      let original_rewrite_setting := RAGPipeline.enable_rewrite pipeline in
      let original_max_queries := RAGPipeline.max_queries pipeline in
      let pipeline :=
        match enable_rewrite request with
        | Some b => set_enable_rewrite b pipeline
        | None => pipeline
        end in
      let pipeline :=
        match max_queries request with
        | Some n => set_rewriter_max_queries n pipeline
        | None => pipeline
        end in
      match RAGPipeline.query answer_completions_create (question request) (top_k request)
              (context request) (return_sources request) pipeline with
      | (Ok result, pipeline) =>
          let pipeline := set_enable_rewrite original_rewrite_setting pipeline in
          let pipeline := set_rewriter_max_queries original_max_queries pipeline in
          match RAGPipeline.response_metadata result with
          | Some result_metadata =>
              (Respond {| answer := RAGPipeline.answer result;
                          sources := RAGPipeline.sources result;
                          metadata := result_metadata |},
               Some pipeline)
          | None => (HTTPException 500 (validation_error result), Some pipeline)
          end
      | (Raise e, pipeline) => (HTTPException 500 (RAGPipeline.str_exn e), Some pipeline)
      end
  end.

(** [POST /rewrite] *)
Definition rewrite_query (question : string) (pipeline : option RAGPipeline.Self)
  : HTTP RewriteResult.t * option RAGPipeline.Self :=
  match pipeline with
  | None => (HTTPException 503 "Query rewriter not available", None)
  | Some pipeline =>
      match RAGPipeline.query_rewriter pipeline with
      | None => (HTTPException 503 "Query rewriter not available", Some pipeline)
      | Some rewriter =>
          match RAGPipeline.on_rewriter (QueryRewriter.rewrite question None) rewriter
                  pipeline with
          | (Ok result, pipeline) => (Respond result, Some pipeline)
          | (Raise e, pipeline) =>
              (HTTPException 500 (RAGPipeline.str_exn e), Some pipeline)
          end
      end
  end.

End Endpoints.
End Api.

(** Vocabulary for the text functions. *)
Module TextSpec.
Import Py.

(** [sep.join(l)] *)
Fixpoint join (sep : string) (l : list string) : string :=
  match l with
  | [] => ""
  | [x] => x
  | x :: rest => x ++ sep ++ join sep rest
  end.

(** No character of [s] is white space. *)
Fixpoint no_space (s : string) : bool :=
  match s with
  | EmptyString => true
  | String c rest => negb (isspace c) && no_space rest
  end.

(** Every character of [s] is white space. *)
Fixpoint all_space (s : string) : bool :=
  match s with
  | EmptyString => true
  | String c rest => isspace c && all_space rest
  end.

(** [s.rstrip()], by recursion on [s]. *)
Fixpoint rstrip (s : string) : string :=
  match s with
  | EmptyString => EmptyString
  | String c rest =>
      match rstrip rest with
      | EmptyString => if isspace c then EmptyString else String c EmptyString
      | r => String c r
      end
  end.

End TextSpec.

(** Vocabulary for the endpoints. *)
Module ApiSpec.

Section Endpoints.
Context {E : QueryRewriter.Env} {B : VectorStore.Backend}.

(** The pipeline as [POST /query] runs it: with the overrides of the
    request in place. *)
Definition with_overrides (request : Api.QueryRequest) (pipeline : RAGPipeline.Self)
  : RAGPipeline.Self :=
  let pipeline :=
    match Api.enable_rewrite request with
    | Some b => Api.set_enable_rewrite b pipeline
    | None => pipeline
    end in
  match Api.max_queries request with
  | Some n => Api.set_rewriter_max_queries n pipeline
  | None => pipeline
  end.

(** What a call of the pipeline's [query] leaves of the settings: the
    switch, the budget, and the strategy and budget of the rewriter, if
    there is one. *)
Definition settings_kept (self self' : RAGPipeline.Self) : Prop :=
  RAGPipeline.enable_rewrite self' = RAGPipeline.enable_rewrite self
  /\ RAGPipeline.max_queries self' = RAGPipeline.max_queries self
  /\ match RAGPipeline.query_rewriter self with
     | None => RAGPipeline.query_rewriter self' = None
     | Some rewriter =>
         exists rewriter',
           RAGPipeline.query_rewriter self' = Some rewriter'
           /\ QueryRewriter.strategy rewriter' = QueryRewriter.strategy rewriter
           /\ QueryRewriter.max_queries rewriter' = QueryRewriter.max_queries rewriter
     end.

End Endpoints.
End ApiSpec.

(** * Properties *)

(** ** The Python primitives on examples *)

Example lower_ex : Py.lower "Find  Cats?" = "find  cats?".
Proof. reflexivity. Qed.

Example strip_ex : Py.strip "  find cats   " = "find cats".
Proof. reflexivity. Qed.

Example split_ex : Py.split "  What  is AI? " = ["What"; "is"; "AI?"].
Proof. reflexivity. Qed.

Example split_on_ex : Py.split_on "/" "a//b/" = ["a"; ""; "b"; ""].
Proof. reflexivity. Qed.

Example contains_ex : Py.contains " y " "plan a y plan b" = true /\ Py.contains " o " "como" = false.
Proof. split; reflexivity. Qed.

Example slice_ex : Py.slice_to 2 [1;2;3] = [1;2] /\ Py.slice_to (-1) [1;2;3] = [1;2] /\ Py.slice_to (-5) [1;2;3] = [].
Proof. repeat split; reflexivity. Qed.


(** ** The complexity classifier *)

Section Classifier.
Import Py QueryRewriter.

Lemma classify_simple (query : string) :
  List.length (split query) <= 5 ->
  has_multiple_questions query = false ->
  _determine_query_complexity query = "simple".
Proof.
  intros Hwords Hmulti. unfold _determine_query_complexity.
  apply Nat.leb_le in Hwords. rewrite Hwords, Hmulti. reflexivity.
Qed.

Lemma classify_long (query : string) :
  15 < List.length (split query) ->
  _determine_query_complexity query = "complex".
Proof.
  intros Hwords. unfold _determine_query_complexity.
  assert (H5 : (List.length (split query) <=? 5) = false) by (apply Nat.leb_gt; lia).
  apply Nat.ltb_lt in Hwords. rewrite H5, Hwords. reflexivity.
Qed.

Lemma no_multiple_questions (query : string) :
  count "?" query <= 1 ->
  contains " y " (lower query) = false ->
  contains " o " (lower query) = false ->
  has_multiple_questions query = false.
Proof.
  intros Hq Hy Ho. unfold has_multiple_questions.
  rewrite Hy, Ho. assert (H : (1 <? count "?" query) = false) by (apply Nat.ltb_ge; exact Hq).
  rewrite H. reflexivity.
Qed.

(** C7. The classifier is a function of the query alone; a query of at
    most five words with at most one question mark and neither " y " nor
    " o " in its lower-cased text is [simple]; a query of more than
    fifteen words is [complex]. *)
Theorem classify_thresholds :
  (forall q1 q2 : string,
      q1 = q2 -> _determine_query_complexity q1 = _determine_query_complexity q2)
  /\ (forall query : string,
         List.length (split query) <= 5 ->
         count "?" query <= 1 ->
         contains " y " (lower query) = false ->
         contains " o " (lower query) = false ->
         _determine_query_complexity query = "simple")
  /\ (forall query : string,
         15 < List.length (split query) ->
         _determine_query_complexity query = "complex").
Proof.
  split; [| split].
  - intros q1 q2 Heq. now subst.
  - intros query Hwords Hq Hy Ho.
    apply classify_simple; [exact Hwords | now apply no_multiple_questions].
  - exact classify_long.
Qed.

Lemma classify_thresholds_witness :
  _determine_query_complexity "What is AI?" = "simple"
  /\ _determine_query_complexity Demo.sixteen_words = "complex".
Proof.
  destruct classify_thresholds as (_ & Hsimple & Hcomplex). split.
  - apply Hsimple; vm_compute; try reflexivity; lia.
  - apply Hcomplex. vm_compute. lia.
Defined.

End Classifier.

(** ** What the methods of the rewriter leave unchanged *)

Section Frames.
Import Py QueryRewriter Spec.
Context {E : Env}.
Local Open Scope method_scope.

Lemma stable_ret {A} (a : A) : stable (ret a).
Proof. intros self out self' H. inversion H; subst. auto. Qed.

Lemma stable_raise {A} (e : Exn) : stable (@raise Self A e).
Proof. intros self out self' H. inversion H; subst. auto. Qed.

Lemma stable_bind {A B} (m : Method Self A) (k : A -> Method Self B) :
  stable m -> (forall a, stable (k a)) -> stable (bind m k).
Proof.
  intros Hm Hk self out self' H. unfold bind in H.
  destruct (m self) as [[a | e] s1] eqn:Hrun.
  - destruct (Hm _ _ _ Hrun) as (H1 & H2 & H3).
    destruct (Hk a _ _ _ H) as (H4 & H5 & H6).
    repeat split; congruence.
  - inversion H; subst. exact (Hm _ _ _ Hrun).
Qed.

Lemma stable_get_self : stable get_self.
Proof. intros self out self' H. inversion H; subst. auto. Qed.

Lemma stable_complete (request : ChatRequest) : stable (complete request).
Proof. intros self out self' H. inversion H; subst. cbn. auto. Qed.

Lemma stable_embed (input : list string) : stable (embed input).
Proof. intros self out self' H. inversion H; subst. cbn. auto. Qed.

Lemma stable_item0 (l : list string) : stable (item0 l).
Proof. destruct l; [apply stable_raise | apply stable_ret]. Qed.

Lemma stable_item_metadata (r : RewriteResult.t) : stable (item_metadata r).
Proof.
  unfold item_metadata. destruct (RewriteResult.metadata r);
    [apply stable_ret | apply stable_raise].
Qed.

End Frames.

Create HintDb stable.

#[local] Hint Resolve stable_ret stable_raise stable_get_self stable_complete
  stable_embed stable_item0 stable_item_metadata : stable.

Ltac stable_step :=
  lazymatch goal with
  | |- Spec.stable (bind _ _) => apply stable_bind; [| intros ?]
  | |- Spec.stable (match ?x with _ => _ end) => destruct x
  | |- Spec.stable (if ?b then _ else _) => destruct b
  | |- Spec.stable _ => solve [auto with stable]
  end.

Ltac stable_tac := repeat stable_step.

Section FramesOfStrategies.
Import Py QueryRewriter Spec.
Context {E : Env}.
Local Open Scope method_scope.

Lemma stable__expand_query query context : stable (_expand_query query context).
Proof. unfold _expand_query. stable_tac. Qed.

Lemma stable__decompose_query query context : stable (_decompose_query query context).
Proof. unfold _decompose_query. stable_tac. Qed.

Lemma stable__refine_query query context : stable (_refine_query query context).
Proof. unfold _refine_query. stable_tac. Qed.

Lemma stable__calculate_semantic_similarity queries :
  stable (_calculate_semantic_similarity queries).
Proof. unfold _calculate_semantic_similarity. stable_tac. Qed.

Lemma stable__deduplicate_queries queries : stable (_deduplicate_queries queries).
Proof.
  unfold _deduplicate_queries.
  destruct (List.length queries <=? 1); [apply stable_ret |].
  destruct (List.length (unique_from [] queries) <=? 1); [apply stable_ret |].
  apply stable_bind; [apply stable__calculate_semantic_similarity |].
  intros [| p ps]; [apply stable_ret |].
  destruct (mark_from _ _ _); [apply stable_ret | apply stable_raise].
Qed.

(** [_expand_query] under a temporary budget: the budget is back when the
    call is over. *)
Lemma expand_with_max_run m query context self :
  expand_with_max m query context self
  = let (out, self') := _expand_query query context (with_max m self) in
    (out, with_max (max_queries self) self').
Proof.
  unfold expand_with_max, bind, get_self, set_max_queries, with_max.
  destruct (_expand_query query context _) as [[r | e] s1] eqn:Hrun; cbn.
  - reflexivity.
  - exfalso. revert Hrun. unfold _expand_query, bind, get_self, complete. cbn.
    destruct (chat_completions_create _ _); discriminate.
Qed.

Lemma stable_expand_with_max m query context : stable (expand_with_max m query context).
Proof.
  intros self out self' H. rewrite expand_with_max_run in H.
  destruct (_expand_query query context (with_max m self)) as [o s1] eqn:Hrun.
  inversion H; subst. apply stable__expand_query in Hrun. cbn in *. tauto.
Qed.

End FramesOfStrategies.

#[local] Hint Resolve stable__expand_query stable__decompose_query stable__refine_query
  stable__deduplicate_queries stable_expand_with_max : stable.

Section FramesOfRewrite.
Import Py QueryRewriter Spec.
Context {E : Env}.
Local Open Scope method_scope.

Lemma stable__hybrid_rewrite query context : stable (_hybrid_rewrite query context).
Proof. unfold _hybrid_rewrite. stable_tac. Qed.

Lemma stable_apply_strategy query context : stable (apply_strategy query context).
Proof.
  unfold apply_strategy. apply stable_bind; [apply stable_get_self |].
  intros self. destruct (strategy self); auto with stable.
  apply stable__hybrid_rewrite.
Qed.

Lemma stable_apply_deduplication result : stable (apply_deduplication result).
Proof. unfold apply_deduplication. stable_tac. Qed.

End FramesOfRewrite.

(** ** The two paths of [rewrite] *)

Section RewritePaths.
Import Py QueryRewriter Spec.
Context {E : Env}.
Local Open Scope method_scope.

Lemma rewrite_hit query context self cached :
  get (_get_cache_key self query context) (_query_cache self) = Some cached ->
  rewrite query context self = (Ok cached, self).
Proof. intros Hget. unfold rewrite. rewrite Hget. reflexivity. Qed.

Lemma adjust_then_run {A} (m : Method Self A) (a : Z) self :
  bind (if negb (a =? max_queries self)%Z then set_max_queries a else ret tt)
       (fun _ => m) self
  = m (with_max a self).
Proof.
  unfold bind. destruct (a =? max_queries self)%Z eqn:Ha; cbn.
  - apply Z.eqb_eq in Ha. subst a. destruct self; reflexivity.
  - reflexivity.
Qed.

(** On a miss the strategy runs under the adapted budget, its result is
    deduplicated and stored, and the budget is put back on every path. *)
Lemma rewrite_miss query context self :
  get (_get_cache_key self query context) (_query_cache self) = None ->
  rewrite query context self
  = match apply_strategy query context (with_max (_adjust_max_queries self query) self) with
    | (Ok r0, sb) =>
        match apply_deduplication r0 sb with
        | (Ok r, sc) =>
            (Ok r, mkSelf (client sc) (strategy self) (max_queries self)
                     (stored (_get_cache_key self query context) r (_query_cache self)))
        | (Raise e, sc) =>
            (Raise e, mkSelf (client sc) (strategy self) (max_queries self) (_query_cache self))
        end
    | (Raise e, sb) =>
        (Raise e, mkSelf (client sb) (strategy self) (max_queries self) (_query_cache self))
    end.
Proof.
  intros Hget. unfold rewrite. rewrite Hget. unfold finally.
  rewrite adjust_then_run.
  unfold bind at 1.
  destruct (apply_strategy query context _) as [[r0 | e] sb] eqn:Hs;
    apply stable_apply_strategy in Hs; cbn in Hs; destruct Hs as (Hs1 & Hs2 & Hs3).
  - unfold bind at 1.
    destruct (apply_deduplication r0 sb) as [[r | e] sc] eqn:Hd;
      apply stable_apply_deduplication in Hd; destruct Hd as (Hd1 & Hd2 & Hd3).
    + unfold bind, store, get_self, set_query_cache, ret, stored. cbn.
      rewrite Hd1, Hd3, Hs1, Hs3. reflexivity.
    + rewrite Hd1, Hd3, Hs1, Hs3. reflexivity.
  - rewrite Hs1, Hs3. reflexivity.
Qed.

End RewritePaths.

(** ** The dictionary that holds the cache *)

Section DictFacts.
Import Py.
Context {V : Type}.

Lemma get_app_miss (k : string) (d d' : list (string * V)) :
  get k d = None -> get k (d ++ d') = get k d'.
Proof.
  induction d as [| [k' v'] d IH]; cbn; [reflexivity |].
  destruct (String.eqb k k'); [discriminate | exact IH].
Qed.

Lemma set_miss (k : string) (v : V) (d : list (string * V)) :
  get k d = None -> set k v d = d ++ [(k, v)].
Proof.
  induction d as [| [k' v'] d IH]; cbn; [reflexivity |].
  destruct (String.eqb k k'); [discriminate |].
  intros H. now rewrite IH.
Qed.

Lemma get_last (k : string) (v : V) : get k [(k, v)] = Some v.
Proof. cbn. now rewrite String.eqb_refl. Qed.

Lemma get_in_keys (k : string) (d : list (string * V)) :
  get k d = None <-> ~ In k (keys d).
Proof.
  induction d as [| [k' v'] d IH]; cbn.
  - tauto.
  - destruct (String.eqb_spec k k') as [-> | Hne].
    + split; [discriminate | intros H; exfalso; apply H; now left].
    + rewrite IH. split; intros H; [intros [Heq | Hin]; [congruence | tauto] | tauto].
Qed.

End DictFacts.

Section CacheFacts.
Import Py QueryRewriter Spec.

Lemma stored_miss key r (cache : list (string * RewriteResult.t)) :
  get key cache = None ->
  stored key r cache
  = if 100 <=? List.length cache then tl (cache ++ [(key, r)]) else cache ++ [(key, r)].
Proof.
  intros Hget. unfold stored, pop_first. rewrite (set_miss _ _ _ Hget).
  rewrite length_app. change (List.length [(key, r)]) with 1.
  replace (100 <? List.length cache + 1) with (100 <=? List.length cache); [reflexivity |].
  destruct (100 <=? List.length cache) eqn:H1; symmetry.
  - apply Nat.leb_le in H1. apply Nat.ltb_lt. lia.
  - apply Nat.leb_gt in H1. apply Nat.ltb_ge. lia.
Qed.

Lemma get_stored key r (cache : list (string * RewriteResult.t)) :
  get key cache = None -> get key (stored key r cache) = Some r.
Proof.
  intros Hget. rewrite (stored_miss _ _ _ Hget).
  destruct (100 <=? List.length cache) eqn:Hlen.
  - destruct cache as [| [k' v'] cache]; [discriminate |]. cbn in *.
    destruct (String.eqb key k'); [discriminate |].
    rewrite (get_app_miss _ _ _ Hget). apply get_last.
  - rewrite (get_app_miss _ _ _ Hget). apply get_last.
Qed.

Lemma length_stored key r (cache : list (string * RewriteResult.t)) :
  List.length cache <= 100 -> List.length (stored key r cache) <= 100.
Proof.
  intros Hlen. unfold stored, pop_first.
  destruct (100 <? List.length (set key r cache)) eqn:Hover; [| now apply Nat.ltb_ge in Hover].
  assert (Hset : List.length (set key r cache) <= S (List.length cache)).
  { clear. induction cache as [| [k' v'] c IH]; cbn; [lia |].
    destruct (String.eqb key k'); cbn; lia. }
  destruct (set key r cache); cbn in *; lia.
Qed.

End CacheFacts.

(** ** A second call is answered from the cache *)

Section Idempotence.
Import Py QueryRewriter Spec.
Context {E : Env}.

Lemma rewrite_keeps_key query context self out self1 :
  rewrite query context self = (out, self1) ->
  strategy self1 = strategy self /\ max_queries self1 = max_queries self.
Proof.
  intros Hrun.
  destruct (get (_get_cache_key self query context) (_query_cache self)) as [cached |] eqn:Hget.
  - rewrite (rewrite_hit _ _ _ _ Hget) in Hrun. inversion Hrun; subst. auto.
  - rewrite (rewrite_miss _ _ _ Hget) in Hrun.
    destruct (apply_strategy _ _ _) as [[r0 | e] sb].
    + destruct (apply_deduplication r0 sb) as [[r | e] sc];
        inversion Hrun; subst; auto.
    + inversion Hrun; subst; auto.
Qed.

Lemma rewrite_caches query context self r self1 :
  rewrite query context self = (Ok r, self1) ->
  get (_get_cache_key self query context) (_query_cache self1) = Some r.
Proof.
  intros Hrun.
  destruct (get (_get_cache_key self query context) (_query_cache self)) as [cached |] eqn:Hget.
  - rewrite (rewrite_hit _ _ _ _ Hget) in Hrun. inversion Hrun; subst. exact Hget.
  - rewrite (rewrite_miss _ _ _ Hget) in Hrun.
    destruct (apply_strategy _ _ _) as [[r0 | e] sb]; [| discriminate].
    destruct (apply_deduplication r0 sb) as [[r' | e] sc]; [| discriminate].
    inversion Hrun; subst. cbn. now apply get_stored.
Qed.

(** C6. When [rewrite] has returned a result, the same call on the
    rewriter it left behind finds that result under its key and returns it,
    leaving the rewriter (its request counter included) as it is; and the
    key is the same for two rewriters with the same strategy and budget and
    two contexts with the same rendering. *)
Theorem rewrite_twice_hits_cache :
  (forall query context self r self1,
      rewrite query context self = (Ok r, self1) ->
      get (_get_cache_key self1 query context) (_query_cache self1) = Some r
      /\ rewrite query context self1 = (Ok r, self1))
  /\ (forall query self self' context context',
         strategy self = strategy self' ->
         max_queries self = max_queries self' ->
         context_str_of context = context_str_of context' ->
         _get_cache_key self query context = _get_cache_key self' query context').
Proof.
  split.
  - intros query context self r self1 Hrun.
    destruct (rewrite_keeps_key _ _ _ _ _ Hrun) as (Hs & Hm).
    assert (Hkey : _get_cache_key self1 query context = _get_cache_key self query context).
    { unfold _get_cache_key. now rewrite Hs, Hm. }
    assert (Hget := rewrite_caches _ _ _ _ _ Hrun). rewrite <- Hkey in Hget.
    split; [exact Hget | now apply rewrite_hit].
  - intros query self self' context context' Hs Hm Hc.
    unfold _get_cache_key. now rewrite Hs, Hm, Hc.
Qed.

End Idempotence.

Lemma rewrite_twice_hits_cache_witness :
  exists r self1,
    QueryRewriter.rewrite (E := Demo.online []) "What is AI?" None
      (QueryRewriter.create_rewriter QueryRewriter.HYBRID 3) = (Ok r, self1)
    /\ Py.get (QueryRewriter._get_cache_key (E := Demo.online []) self1 "What is AI?" None)
         (QueryRewriter._query_cache self1) = Some r
    /\ QueryRewriter.rewrite (E := Demo.online []) "What is AI?" None self1 = (Ok r, self1).
Proof.
  eexists. eexists. split.
  - vm_compute. reflexivity.
  - apply (proj1 (rewrite_twice_hits_cache (E := Demo.online [])) "What is AI?" None
             (QueryRewriter.create_rewriter QueryRewriter.HYBRID 3)).
    vm_compute. reflexivity.
Defined.

(** ** The expansion strategy *)

Section Expansion.
Import Py QueryRewriter Spec.
Context {E : Env}.

Lemma length_slice_to {A} (n : Z) (l : list A) :
  (0 <= n)%Z -> (Z.of_nat (List.length (slice_to n l)) <= n)%Z.
Proof.
  intros Hn. unfold slice_to.
  assert (H : (0 <=? n)%Z = true) by now apply Z.leb_le.
  rewrite H, length_firstn. lia.
Qed.

Lemma slice_to_incl {A} (n : Z) (l : list A) : incl (slice_to n l) l.
Proof.
  assert (Hfirst : forall k x, In x (firstn k l) -> In x l).
  { intros k x Hx. rewrite <- (firstn_skipn k l). apply in_or_app. now left. }
  unfold slice_to. intros x Hx.
  destruct (0 <=? n)%Z; eapply Hfirst; eassumption.
Qed.

Lemma long_lines_spec (lines : list string) (v : string) :
  In v (long_lines lines) ->
  10 < len v /\ exists line, In line lines /\ v = strip line.
Proof.
  unfold long_lines. intros Hin. apply in_map_iff in Hin.
  destruct Hin as (line & <- & Hin). apply filter_In in Hin.
  destruct Hin as (Hin & Hlong). apply andb_true_iff in Hlong.
  destruct Hlong as (_ & Hlong). apply Nat.ltb_lt in Hlong.
  split; [exact Hlong | now exists line].
Qed.

(** C9, as the code has it. When the completion service answers, the
    answer is stripped and split by line, every line is stripped, the lines
    that are then empty or of at most ten characters are dropped, the rest
    is cut to the budget, and only then is the original query put in front.
    So the variants begin with the original query and, for a budget that is
    not negative, there are at most [max_queries + 1] of them. *)
Theorem expand_query_shape self query context content :
  chat_completions_create (client self) (expansion_request self query) = Returned content ->
  (0 <= max_queries self)%Z ->
  exists r self',
    _expand_query query context self = (Ok r, self')
    /\ RewriteResult.rewritten r
       = query :: slice_to (max_queries self) (long_lines (split_on newline (strip content)))
    /\ hd_error (RewriteResult.rewritten r) = Some query
    /\ Forall (fun v => 10 < len v
                        /\ exists line, In line (split_on newline (strip content))
                                        /\ v = strip line)
              (tl (RewriteResult.rewritten r))
    /\ (Z.of_nat (List.length (RewriteResult.rewritten r)) <= max_queries self + 1)%Z
    /\ RewriteResult.error r = None.
Proof.
  intros Hreply Hmax.
  unfold _expand_query, bind, get_self, complete. cbn.
  unfold expansion_request in Hreply. rewrite Hreply. cbn.
  eexists. eexists. split; [reflexivity |]. cbn.
  repeat split.
  - apply Forall_forall. intros v Hv.
    apply slice_to_incl in Hv. now apply long_lines_spec.
  - pose proof (length_slice_to (max_queries self)
                  (long_lines (split_on newline (strip content))) Hmax). lia.
Qed.

End Expansion.

Lemma expand_query_shape_witness :
  exists r self',
    QueryRewriter._expand_query (E := Demo.online []) "que cubre el plan" None
      (QueryRewriter.create_rewriter QueryRewriter.EXPANSION 1) = (Ok r, self')
    /\ RewriteResult.rewritten r = ["que cubre el plan"; "que cubre el plan deducibles copagos"].
Proof.
  destruct (expand_query_shape (E := Demo.online [])
              (QueryRewriter.create_rewriter QueryRewriter.EXPANSION 1)
              "que cubre el plan" None
              (Demo.answer (Spec.expansion_request
                              (QueryRewriter.create_rewriter QueryRewriter.EXPANSION 1)
                              "que cubre el plan")))
    as (r & self' & Hrun & Hvariants & _).
  - reflexivity.
  - vm_compute. discriminate.
  - exists r, self'. split; [exact Hrun |]. rewrite Hvariants. vm_compute. reflexivity.
Defined.

(** C9, as the claim has it, fails: with a budget of one variant and an
    answer of three long lines, the expansion returns two variants. *)
Lemma expansion_exceeds_budget :
  ~ Spec.expansion_within_budget (E := Demo.online [])
      (QueryRewriter.create_rewriter QueryRewriter.EXPANSION 1) "que cubre el plan" None.
Proof.
  intros Hclaim.
  destruct (Hclaim _ _ eq_refl eq_refl) as (_ & Hlen).
  vm_compute in Hlen. apply Hlen. reflexivity.
Qed.

(** ** The bounded cache *)

Section CacheBound.
Import Py QueryRewriter Spec.
Context {E : Env}.

Lemma mem_In (x : string) (l : list string) : mem x l = true <-> In x l.
Proof.
  unfold mem. rewrite existsb_exists. split.
  - intros (y & Hin & Heq). apply String.eqb_eq in Heq. now subst.
  - intros Hin. exists x. split; [exact Hin | apply String.eqb_refl].
Qed.

Lemma distinct_NoDup (l : list string) : distinct l = true -> NoDup l.
Proof.
  induction l as [| x l IH]; cbn; intros H; constructor.
  - apply andb_true_iff in H. destruct H as (H & _).
    intros Hin. apply mem_In in Hin. rewrite Hin in H. discriminate.
  - apply IH. apply andb_true_iff in H. tauto.
Qed.

(** What one call does to the cache: nothing, or one insertion at the end
    followed by the eviction of the oldest entry when the bound is passed. *)
Lemma rewrite_cache_cases query context self out self' :
  rewrite query context self = (out, self') ->
  _query_cache self' = _query_cache self
  \/ (exists r, out = Ok r
                /\ get (_get_cache_key self query context) (_query_cache self) = None
                /\ _query_cache self'
                   = stored (_get_cache_key self query context) r (_query_cache self)).
Proof.
  intros Hrun.
  destruct (get (_get_cache_key self query context) (_query_cache self)) as [cached |] eqn:Hget.
  - rewrite (rewrite_hit _ _ _ _ Hget) in Hrun. inversion Hrun; subst. now left.
  - rewrite (rewrite_miss _ _ _ Hget) in Hrun.
    destruct (apply_strategy _ _ _) as [[r0 | e] sb].
    + destruct (apply_deduplication r0 sb) as [[r | e] sc]; inversion Hrun; subst.
      * right. exists r. auto.
      * now left.
    + inversion Hrun; subst. now left.
Qed.

Lemma reachable_bound self : reachable self -> List.length (_query_cache self) <= 100.
Proof.
  induction 1 as [s | self query context out self' Hreach IH Hrun | self s m Hreach IH].
  - cbn. lia.
  - destruct (rewrite_cache_cases _ _ _ _ _ Hrun) as [Hsame | (r & _ & _ & Hstored)].
    + now rewrite Hsame.
    + rewrite Hstored. now apply length_stored.
  - exact IH.
Qed.

Lemma key_of_same_fields self self' query context :
  strategy self' = strategy self -> max_queries self' = max_queries self ->
  _get_cache_key self' query context = _get_cache_key self query context.
Proof. intros Hs Hm. unfold _get_cache_key. now rewrite Hs, Hm. Qed.

Lemma keys_stored_incl key r (cache : list (string * RewriteResult.t)) k :
  get key cache = None -> In k (keys (stored key r cache)) -> k = key \/ In k (keys cache).
Proof.
  intros Hget Hin. rewrite (stored_miss _ _ _ Hget) in Hin.
  assert (Hall : In k (keys (cache ++ [(key, r)])) -> k = key \/ In k (keys cache)).
  { unfold keys. rewrite map_app. intros H. apply in_app_or in H.
    destruct H as [H | [H | []]]; [now right | now left]. }
  destruct (100 <=? List.length cache); [| now apply Hall].
  apply Hall. destruct (cache ++ [(key, r)]); [exact Hin | now right].
Qed.

(** A batch of calls whose keys are new and pairwise distinct appends its
    results to the cache in call order and drops the oldest entries beyond
    the bound. *)
Lemma batch_rewrite_fifo queries : forall context self results self',
  List.length (_query_cache self) <= 100 ->
  NoDup (map (fun q => _get_cache_key self q context) queries) ->
  (forall q, In q queries ->
             ~ In (_get_cache_key self q context) (keys (_query_cache self))) ->
  batch_rewrite queries context self = (Ok results, self') ->
  List.length results = List.length queries
  /\ _query_cache self'
     = skipn (List.length (_query_cache self) + List.length queries - 100)
         (_query_cache self
            ++ combine (map (fun q => _get_cache_key self q context) queries) results).
Proof.
  induction queries as [| query rest IH]; intros context self results self' Hlen Hnodup Hnew Hrun.
  - cbn in Hrun. inversion Hrun; subst. cbn. split; [reflexivity |].
    rewrite app_nil_r.
    replace (List.length (_query_cache self') + 0 - 100) with 0 by lia. reflexivity.
  - cbn [batch_rewrite] in Hrun. unfold bind in Hrun.
    destruct (rewrite query context self) as [[r | e] s1] eqn:Hfirst; [| discriminate].
    destruct (batch_rewrite rest context s1) as [[rs | e] s2] eqn:Hrest; [| discriminate].
    inversion Hrun; subst results self'. clear Hrun.
    destruct (rewrite_keeps_key _ _ _ _ _ Hfirst) as (Hs & Hm).
    assert (Hkey : forall q, _get_cache_key s1 q context = _get_cache_key self q context)
      by (intros q; now apply key_of_same_fields).
    assert (Hmiss : get (_get_cache_key self query context) (_query_cache self) = None).
    { apply get_in_keys. apply Hnew. now left. }
    destruct (rewrite_cache_cases _ _ _ _ _ Hfirst) as [Hsame | (r' & Hr & _ & Hstored)].
    { exfalso. pose proof (rewrite_caches _ _ _ _ _ Hfirst) as Hget.
      rewrite Hsame, Hmiss in Hget. discriminate. }
    inversion Hr; subst r'. clear Hr.
    cbn [map] in Hnodup. apply NoDup_cons_iff in Hnodup. destruct Hnodup as (Hfresh & Hnodup).
    destruct (IH context s1 rs s2) as (Hlen' & Hcache).
    + rewrite Hstored. now apply length_stored.
    + erewrite map_ext; [exact Hnodup | intros q; apply Hkey].
    + intros q Hq Hin. rewrite Hkey, Hstored in Hin.
      apply keys_stored_incl in Hin; [| exact Hmiss].
      destruct Hin as [Heq | Hin].
      * apply Hfresh. rewrite <- Heq. apply in_map_iff. now exists q.
      * apply (Hnew q); [now right | exact Hin].
    + exact Hrest.
    + split; [cbn; now rewrite Hlen' |].
      rewrite Hcache, Hstored, (stored_miss _ _ _ Hmiss).
      erewrite (map_ext (fun q => _get_cache_key s1 q context)); [| intros q; apply Hkey].
      cbn [map combine List.length].
      set (new := combine (map (fun q => _get_cache_key self q context) rest) rs).
      set (entry := (_get_cache_key self query context, r)).
      set (cache := _query_cache self) in *.
      destruct (100 <=? List.length cache) eqn:Hfull.
      * apply Nat.leb_le in Hfull.
        destruct cache as [| oldest cache0] eqn:Hc; [cbn in Hfull; lia |].
        cbn [app tl List.length] in *. rewrite length_app. cbn [List.length].
        replace (List.length cache0 + 1 + List.length rest - 100) with (List.length rest) by lia.
        replace (S (List.length cache0) + S (List.length rest) - 100)
          with (S (List.length rest)) by lia.
        cbn [skipn]. now rewrite <- app_assoc.
      * apply Nat.leb_gt in Hfull. rewrite length_app. cbn [List.length].
        rewrite <- app_assoc. cbn [app]. f_equal. lia.
Qed.

End CacheBound.

Section CacheEviction.
Import Py QueryRewriter Spec.
Context {E : Env}.

Lemma get_of_entry {V} (d : list (string * V)) (k : string) (v : V) :
  NoDup (keys d) -> In (k, v) d -> get k d = Some v.
Proof.
  induction d as [| [k' v'] d IH]; cbn; intros Hnodup Hin; [contradiction |].
  apply NoDup_cons_iff in Hnodup. destruct Hnodup as (Hfresh & Hnodup).
  destruct Hin as [Heq | Hin].
  - inversion Heq; subst. now rewrite String.eqb_refl.
  - destruct (String.eqb_spec k k') as [-> | Hne]; [| now apply IH].
    exfalso. apply Hfresh. unfold keys. apply in_map_iff. now exists (k', v).
Qed.

Lemma keys_combine (ks : list string) (vs : list RewriteResult.t) :
  List.length vs = List.length ks -> keys (combine ks vs) = ks.
Proof.
  revert vs. induction ks as [| k ks IH]; intros [| v vs] Hlen; cbn in *; try discriminate.
  - reflexivity.
  - f_equal. apply IH. lia.
Qed.

(** C4. The cache of a rewriter never holds more than 100 entries after a
    call; a call either leaves the cache as it is (a hit, or an exception)
    or appends one entry and, when 100 entries were there, drops the one
    inserted first; a hit returns the stored result and moves nothing; and
    101 calls with pairwise distinct keys on an empty cache leave the last
    100 entries in call order, the first key being absent. *)
Theorem cache_bounded_fifo :
  (forall self, reachable self -> List.length (_query_cache self) <= 100)
  /\ (forall query context self out self',
         rewrite query context self = (out, self') ->
         _query_cache self' = _query_cache self
         \/ (exists r,
                out = Ok r
                /\ get (_get_cache_key self query context) (_query_cache self) = None
                /\ _query_cache self'
                   = if 100 <=? List.length (_query_cache self)
                     then tl (_query_cache self ++ [(_get_cache_key self query context, r)])
                     else _query_cache self ++ [(_get_cache_key self query context, r)]))
  /\ (forall query context self cached,
         get (_get_cache_key self query context) (_query_cache self) = Some cached ->
         rewrite query context self = (Ok cached, self))
  /\ (forall first rest context self results self',
         _query_cache self = [] ->
         List.length (first :: rest) = 101 ->
         NoDup (map (fun q => _get_cache_key self q context) (first :: rest)) ->
         batch_rewrite (first :: rest) context self = (Ok results, self') ->
         _query_cache self'
         = combine (map (fun q => _get_cache_key self q context) rest) (tl results)
         /\ List.length (_query_cache self') = 100
         /\ get (_get_cache_key self first context) (_query_cache self') = None
         /\ (forall k r, In (k, r) (_query_cache self') -> get k (_query_cache self') = Some r)).
Proof.
  split; [exact reachable_bound |]. split; [| split; [exact rewrite_hit |]].
  - intros query context self out self' Hrun.
    destruct (rewrite_cache_cases _ _ _ _ _ Hrun) as [Hsame | (r & Hr & Hmiss & Hstored)];
      [now left | right].
    exists r. rewrite <- (stored_miss _ _ _ Hmiss). auto.
  - intros first rest context self results self' Hempty Hlen Hnodup Hrun.
    destruct (batch_rewrite_fifo (first :: rest) context self results self') as (Hres & Hcache).
    + rewrite Hempty. cbn. lia.
    + exact Hnodup.
    + intros q _. rewrite Hempty. cbn. tauto.
    + exact Hrun.
    + rewrite Hempty, Hlen in Hcache. cbn [List.length Nat.add app] in Hcache.
      change (101 - 100) with 1 in Hcache.
      destruct results as [| r0 rs]; [discriminate |].
      cbn [map combine skipn tl] in *.
      assert (Hrs : List.length rs = List.length rest) by (cbn in Hres; lia).
      assert (Hkeys : keys (_query_cache self')
                      = map (fun q => _get_cache_key self q context) rest).
      { rewrite Hcache. apply keys_combine. now rewrite length_map. }
      apply NoDup_cons_iff in Hnodup. destruct Hnodup as (Hfresh & Hnodup).
      split; [exact Hcache |]. split; [| split].
      * rewrite Hcache, length_combine, length_map. cbn in Hlen. lia.
      * apply get_in_keys. now rewrite Hkeys.
      * intros k r Hin. apply get_of_entry; [now rewrite Hkeys | exact Hin].
Qed.

End CacheEviction.

Lemma cache_bounded_fifo_witness :
  exists results self',
    QueryRewriter.batch_rewrite (E := Demo.offline) (Demo.numbered 101) None
      (QueryRewriter.create_rewriter QueryRewriter.EXPANSION 3) = (Ok results, self')
    /\ List.length (QueryRewriter._query_cache self') = 100
    /\ Py.get "consulta 0:expansion:3:" (QueryRewriter._query_cache self') = None.
Proof.
  assert (Hrun : exists results self',
             QueryRewriter.batch_rewrite (E := Demo.offline) (Demo.numbered 101) None
               (QueryRewriter.create_rewriter QueryRewriter.EXPANSION 3) = (Ok results, self'))
    by (eexists; eexists; vm_compute; reflexivity).
  destruct Hrun as (results & self' & Hrun).
  exists results, self'. split; [exact Hrun |].
  destruct (proj2 (proj2 (proj2 (cache_bounded_fifo (E := Demo.offline))))
              "consulta 0" (tl (Demo.numbered 101)) None
              (QueryRewriter.create_rewriter QueryRewriter.EXPANSION 3)
              results self' eq_refl eq_refl) as (_ & Hlen & Hgone & _).
  - apply distinct_NoDup. vm_compute. reflexivity.
  - exact Hrun.
  - split; [exact Hlen | exact Hgone].
Defined.

(** ** A failed completion under the hybrid strategy *)

Section GenerationFailure.
Import Py QueryRewriter Spec.
Context {E : Env}.

Lemma decompose_failure self query context msg :
  chat_completions_create (client self) (decomposition_request self query) = Failed msg ->
  _decompose_query query context self
  = (Ok (RewriteResult.mk query [query] "decomposition" None (Some msg)), after_request self).
Proof.
  intros Hfail. unfold _decompose_query, bind, get_self, complete.
  unfold decomposition_request in Hfail. cbn. rewrite Hfail. reflexivity.
Qed.

Lemma adjust_complex self query :
  _determine_query_complexity query = "complex" ->
  _adjust_max_queries self query = Z.min 5 (Z.max 3 (max_queries self)).
Proof. intros H. unfold _adjust_max_queries. rewrite H. reflexivity. Qed.

Lemma adjust_simple self query :
  _determine_query_complexity query = "simple" ->
  _adjust_max_queries self query = Z.min 2 (max_queries self).
Proof. intros H. unfold _adjust_max_queries. rewrite H. reflexivity. Qed.

(** The three base strategies degrade to the identity rewrite: when the
    one completion request of an uncached call fails, [rewrite] returns the
    original query as the only variant, with the error recorded. *)
Lemma base_strategy_failure_degrades self query context msg :
  strategy self <> HYBRID ->
  get (_get_cache_key self query context) (_query_cache self) = None ->
  (forall request, chat_completions_create (client self) request = Failed msg) ->
  exists self',
    rewrite query context self
    = (Ok (RewriteResult.mk query [query] (value (strategy self)) None (Some msg)), self').
Proof.
  intros Hbase Hmiss Hfail. rewrite (rewrite_miss _ _ _ Hmiss).
  unfold apply_strategy, bind at 1, get_self.
  set (s0 := with_max (_adjust_max_queries self query) self).
  change (strategy s0) with (strategy self).
  destruct (strategy self); [| | | contradiction].
  - unfold _expand_query, bind, get_self, complete.
    change (client s0) with (client self). rewrite Hfail. cbn. now eexists.
  - unfold _decompose_query, bind, get_self, complete.
    change (client s0) with (client self). rewrite Hfail. cbn. now eexists.
  - unfold _refine_query, bind, complete.
    change (client s0) with (client self). rewrite Hfail. cbn. now eexists.
Qed.

(** C1, the failing path. Under the hybrid strategy, when the query is
    complex and the decomposition request fails, [_decompose_query] returns
    its result without the [metadata] key, [_hybrid_rewrite] reads that key,
    and [rewrite] raises [KeyError] to its caller; nothing is cached and the
    budget is put back. *)
Theorem hybrid_decomposition_failure_raises self query context msg :
  strategy self = HYBRID ->
  _determine_query_complexity query = "complex" ->
  get (_get_cache_key self query context) (_query_cache self) = None ->
  chat_completions_create (client self)
    (decomposition_request (with_max (Z.min 5 (Z.max 3 (max_queries self))) self) query)
  = Failed msg ->
  rewrite query context self = (Raise (KeyError "metadata"), after_request self).
Proof.
  intros Hhybrid Hcomplex Hmiss Hfail.
  rewrite (rewrite_miss _ _ _ Hmiss), (adjust_complex _ _ Hcomplex).
  set (s0 := with_max (Z.min 5 (Z.max 3 (max_queries self))) self) in *.
  assert (Hs0 : strategy s0 = HYBRID) by exact Hhybrid.
  unfold apply_strategy, bind at 1, get_self.
  rewrite Hs0. unfold _hybrid_rewrite. rewrite Hcomplex.
  change (String.eqb "complex" "simple") with false.
  change (String.eqb "complex" "complex") with true. cbv iota.
  unfold bind at 1. unfold bind at 1.
  rewrite (decompose_failure s0 query context msg Hfail).
  cbn. unfold after_request. reflexivity.
Qed.

End GenerationFailure.

Lemma hybrid_decomposition_failure_raises_witness :
  QueryRewriter.rewrite (E := Demo.offline) "compare plan A versus plan B now" None
    (QueryRewriter.create_rewriter QueryRewriter.HYBRID 3)
  = (Raise (KeyError "metadata"),
     Spec.after_request (QueryRewriter.create_rewriter QueryRewriter.HYBRID 3)).
Proof.
  apply (hybrid_decomposition_failure_raises (E := Demo.offline)) with (msg := "connection refused");
    reflexivity.
Defined.

(** ** Running the strategies *)

Section Runs.
Import Py QueryRewriter Spec.
Context {E : Env}.

Lemma bind_ok {A B} (m : Method Self A) (k : A -> Method Self B) s a s' :
  m s = (Ok a, s') -> bind m k s = k a s'.
Proof. intros H. unfold bind. now rewrite H. Qed.

Lemma bind_raise {A B} (m : Method Self A) (k : A -> Method Self B) s e s' :
  m s = (Raise e, s') -> bind m k s = (Raise e, s').
Proof. intros H. unfold bind. now rewrite H. Qed.

Lemma bind_assoc {A B C} (m : Method Self A) (k : A -> Method Self B)
    (h : B -> Method Self C) s :
  bind (bind m k) h s = bind m (fun a => bind (k a) h) s.
Proof. unfold bind. destruct (m s) as [[a | e] s1]; reflexivity. Qed.

(** [_refine_query] never raises and returns exactly one variant. *)
Lemma refine_run query context self :
  exists x rr,
    _refine_query query context self = (Ok rr, after_request self)
    /\ RewriteResult.rewritten rr = [x].
Proof.
  unfold _refine_query, bind, complete.
  destruct (chat_completions_create (client self) _) as [content | msg].
  - cbn.
    match goal with |- context [if ?b then _ else _] => destruct b end;
      eexists; eexists; split; reflexivity.
  - eexists. eexists. split; reflexivity.
Qed.

Lemma refine_failure query context self msg :
  chat_completions_create (client self) (refinement_request query context) = Failed msg ->
  _refine_query query context self
  = (Ok (RewriteResult.mk query [query] "refinement" None (Some msg)), after_request self).
Proof.
  intros Hfail. unfold _refine_query, bind, complete.
  unfold refinement_request in Hfail. rewrite Hfail. reflexivity.
Qed.

(** [_expand_query] never raises and returns the original query first. *)
Lemma expand_run query context self :
  exists rest r,
    _expand_query query context self = (Ok r, after_request self)
    /\ RewriteResult.rewritten r = query :: rest.
Proof.
  unfold _expand_query, bind, get_self, complete. cbn.
  destruct (chat_completions_create (client self) _) as [content | msg];
    eexists; eexists; split; reflexivity.
Qed.

Lemma expand_failure query context self msg :
  chat_completions_create (client self) (expansion_request self query) = Failed msg ->
  _expand_query query context self
  = (Ok (RewriteResult.mk query [query] "expansion" None (Some msg)), after_request self).
Proof.
  intros Hfail. unfold _expand_query, bind, get_self, complete. cbn.
  unfold expansion_request in Hfail. rewrite Hfail. reflexivity.
Qed.

Lemma expand_with_max_total m query context self :
  exists rest r,
    expand_with_max m query context self = (Ok r, after_request self)
    /\ RewriteResult.rewritten r = query :: rest.
Proof.
  rewrite expand_with_max_run.
  destruct (expand_run query context (with_max m self)) as (rest & r & Hrun & Hrw).
  rewrite Hrun. exists rest, r. split; [reflexivity | exact Hrw].
Qed.

Lemma expand_with_max_failure m query context self msg :
  chat_completions_create (client self) (expansion_request (with_max m self) query)
  = Failed msg ->
  expand_with_max m query context self
  = (Ok (RewriteResult.mk query [query] "expansion" None (Some msg)), after_request self).
Proof.
  intros Hfail. rewrite expand_with_max_run.
  rewrite (expand_failure query context (with_max m self) msg Hfail). reflexivity.
Qed.

Lemma length_unique_upto m seen n l :
  List.length (unique_upto m seen n l) <= List.length l.
Proof.
  revert seen n. induction l as [| q l IH]; intros seen n;
    cbn [unique_upto List.length]; [lia |].
  destruct (negb (mem (lower (strip q)) seen) && (10 <? len (strip q))).
  - destruct (m <=? Z.of_nat (S n))%Z; cbn [List.length]; [lia |].
    specialize (IH (lower (strip q) :: seen) (S n)). lia.
  - specialize (IH seen n). lia.
Qed.

Lemma length_slice_to_le {A} (n : Z) (l : list A) :
  (0 <= n)%Z -> List.length (slice_to n l) <= Z.to_nat n.
Proof.
  intros Hn. unfold slice_to.
  assert (H : (0 <=? n)%Z = true) by now apply Z.leb_le.
  rewrite H. apply firstn_le_length.
Qed.

(** The result of [_hybrid_rewrite] on a simple query: it never raises,
    and its variants are drawn from at most two candidates. *)
Lemma hybrid_simple_run query context self :
  _determine_query_complexity query = "simple" ->
  exists all_queries self',
    _hybrid_rewrite query context self
    = (Ok (RewriteResult.mk query
             (unique_upto (max_queries self) [] 0 all_queries) "hybrid"
             (Some [("num_variations",
                      RewriteResult.MInt
                        (Z.of_nat (List.length
                                     (unique_upto (max_queries self) [] 0 all_queries))));
                    ("strategies_applied", RewriteResult.MList ["refinement"; "expansion"]);
                    ("complexity", RewriteResult.MStr "simple")])
             None), self')
    /\ List.length all_queries <= 2.
Proof.
  intros Hsimple. unfold _hybrid_rewrite. rewrite Hsimple.
  change (String.eqb "simple" "simple") with true. cbv iota.
  destruct (refine_run query context self) as (x & rr & Hrefine & Hone).
  rewrite bind_assoc, (bind_ok _ _ _ _ _ Hrefine), Hone.
  rewrite bind_assoc. unfold item0. rewrite (bind_ok (ret x) _ _ x _ eq_refl).
  destruct (String.eqb x query) eqn:Hx; cbn [negb].
  - destruct (expand_with_max_total 2 query context (after_request self))
      as (rest & r & Hexpand & Hrw).
    rewrite bind_assoc, (bind_ok _ _ _ _ _ Hexpand).
    rewrite (bind_ok (ret _) _ _ _ _ eq_refl). cbn [fst snd].
    rewrite (bind_ok get_self _ _ _ _ eq_refl).
    eexists. eexists. split; [reflexivity |].
    apply (length_slice_to_le 2). lia.
  - rewrite (bind_ok (ret _) _ _ _ _ eq_refl). cbn [fst snd].
    rewrite (bind_ok get_self _ _ _ _ eq_refl).
    eexists. eexists. split; [reflexivity |]. cbn. lia.
Qed.

End Runs.

(** ** A short query under the hybrid strategy *)

Section ShortQuery.
Import Py QueryRewriter Spec.
Context {E : Env}.

Lemma apply_strategy_hybrid query context self :
  strategy self = HYBRID ->
  apply_strategy query context self = _hybrid_rewrite query context self.
Proof.
  intros Hhybrid. unfold apply_strategy.
  rewrite (bind_ok get_self _ _ _ _ eq_refl). now rewrite Hhybrid.
Qed.

(** With every completion request failing, the hybrid strategy on a
    simple query has the query as its only candidate, and the last loop
    drops a candidate of at most ten characters. *)
Lemma hybrid_offline_short query context self :
  _determine_query_complexity query = "simple" ->
  len (strip query) <= 10 ->
  (forall n request, exists msg, chat_completions_create n request = Failed msg) ->
  exists r self',
    _hybrid_rewrite query context self = (Ok r, self')
    /\ RewriteResult.original r = query
    /\ RewriteResult.rewritten r = []
    /\ RewriteResult.error r = None.
Proof.
  intros Hsimple Hshort Hdown. unfold _hybrid_rewrite. rewrite Hsimple.
  change (String.eqb "simple" "simple") with true. cbv iota.
  destruct (Hdown (client self) (refinement_request query context)) as (msg1 & Hfail1).
  rewrite bind_assoc, (bind_ok _ _ _ _ _ (refine_failure _ _ _ _ Hfail1)).
  cbn [RewriteResult.rewritten item0].
  rewrite bind_assoc, (bind_ok (ret query) _ _ query _ eq_refl).
  rewrite String.eqb_refl. cbn [negb].
  destruct (Hdown (client (after_request self))
              (expansion_request (with_max 2 (after_request self)) query)) as (msg2 & Hfail2).
  rewrite bind_assoc, (bind_ok _ _ _ _ _ (expand_with_max_failure _ _ _ _ _ Hfail2)).
  rewrite (bind_ok (ret _) _ _ _ _ eq_refl). cbn [fst snd RewriteResult.rewritten].
  rewrite (bind_ok get_self _ _ _ _ eq_refl).
  change (slice_to 2 [query]) with [query].
  assert (Hdrop : forall m, unique_upto m [] 0 [query] = []).
  { intros m. cbn [unique_upto]. apply Nat.ltb_ge in Hshort. rewrite Hshort.
    now rewrite andb_false_r. }
  rewrite Hdrop. eexists. eexists. split; [reflexivity |]. cbn. auto.
Qed.

(** C2, the failing path. Under the hybrid strategy, for a simple query
    of at most ten characters (white space at both ends not counted) that
    is not cached, when every completion request fails, [rewrite] returns
    a result whose list of variants is empty. *)
Theorem hybrid_short_query_no_variants self query context :
  strategy self = HYBRID ->
  _determine_query_complexity query = "simple" ->
  len (strip query) <= 10 ->
  get (_get_cache_key self query context) (_query_cache self) = None ->
  (forall n request, exists msg, chat_completions_create n request = Failed msg) ->
  exists r self',
    rewrite query context self = (Ok r, self')
    /\ RewriteResult.original r = query
    /\ RewriteResult.rewritten r = []
    /\ RewriteResult.error r = None.
Proof.
  intros Hhybrid Hsimple Hshort Hmiss Hdown.
  rewrite (rewrite_miss _ _ _ Hmiss).
  rewrite apply_strategy_hybrid by exact Hhybrid.
  destruct (hybrid_offline_short query context
              (with_max (_adjust_max_queries self query) self) Hsimple Hshort Hdown)
    as (r & sb & Hrun & Horig & Hempty & Herr).
  rewrite Hrun. unfold apply_deduplication. rewrite Hempty.
  change (1 <? List.length (@nil string)) with false. cbv iota.
  unfold ret. exists r. eexists. split; [reflexivity | auto].
Qed.

End ShortQuery.

Lemma hybrid_short_query_no_variants_witness :
  exists r self',
    QueryRewriter.rewrite (E := Demo.offline) "Hola" None
      (QueryRewriter.create_rewriter QueryRewriter.HYBRID 3) = (Ok r, self')
    /\ RewriteResult.original r = "Hola"
    /\ RewriteResult.rewritten r = []
    /\ RewriteResult.error r = None.
Proof.
  apply (hybrid_short_query_no_variants (E := Demo.offline)).
  - reflexivity.
  - reflexivity.
  - vm_compute. lia.
  - reflexivity.
  - intros n request. exists "connection refused". reflexivity.
Defined.

(** ** Simple queries under the hybrid strategy *)

Section SimpleHybrid.
Import Py QueryRewriter Spec.
Context {E : Env}.

Lemma bind_ok_inv {A B} (m : Method Self A) (k : A -> Method Self B) s b s' :
  bind m k s = (Ok b, s') ->
  exists a s1, m s = (Ok a, s1) /\ k a s1 = (Ok b, s').
Proof.
  unfold bind. destruct (m s) as [[a | e] s1]; [| discriminate].
  intros H. now exists a, s1.
Qed.

Lemma length_unique_from seen l : List.length (unique_from seen l) <= List.length l.
Proof.
  revert seen. induction l as [| q l IH]; intros seen; cbn [unique_from List.length]; [lia |].
  destruct (mem (strip (lower q)) seen).
  - specialize (IH seen). lia.
  - specialize (IH (strip (lower q) :: seen)). cbn [List.length]. lia.
Qed.

Lemma length_keep_from to_remove idx l :
  List.length (keep_from to_remove idx l) <= List.length l.
Proof.
  revert idx. induction l as [| q l IH]; intros idx; cbn [keep_from List.length]; [lia |].
  specialize (IH (S idx)).
  destruct (existsb (Nat.eqb idx) to_remove); cbn [List.length]; lia.
Qed.

Lemma mark_from_raises unique_queries pairs : forall to_remove e,
  mark_from unique_queries to_remove pairs = Raise e -> e = IndexError.
Proof.
  induction pairs as [| [[i j] sim] pairs IH]; intros to_remove e; cbn [mark_from].
  - discriminate.
  - destruct (nth_error unique_queries i); [| intros H; now inversion H].
    destruct (nth_error unique_queries j); [| intros H; now inversion H].
    destruct (len _ <? len _); apply IH.
Qed.

Lemma similarity_never_raises queries self :
  exists pairs self', _calculate_semantic_similarity queries self = (Ok pairs, self').
Proof.
  unfold _calculate_semantic_similarity.
  destruct (List.length queries <=? 1); [now eexists; eexists |].
  unfold bind, embed. destruct (embeddings_create _ _); now eexists; eexists.
Qed.

(** [_deduplicate_queries] returns no more variants than it was given,
    and raises nothing but [IndexError]. *)
Lemma deduplicate_outcome queries self out self' :
  _deduplicate_queries queries self = (out, self') ->
  match out with
  | Ok l => List.length l <= List.length queries
  | Raise e => e = IndexError
  end.
Proof.
  unfold _deduplicate_queries.
  destruct (List.length queries <=? 1); [intros H; inversion H; subst; lia |].
  pose proof (length_unique_from [] queries) as Huniq.
  destruct (List.length (unique_from [] queries) <=? 1);
    [intros H; inversion H; subst; exact Huniq |].
  destruct (similarity_never_raises (unique_from [] queries) self) as (pairs & s1 & Hsim).
  rewrite (bind_ok _ _ _ _ _ Hsim).
  destruct pairs as [| p pairs]; [intros H; inversion H; subst; exact Huniq |].
  destruct (mark_from _ _ _) as [to_remove | e] eqn:Hmark; intros H; inversion H; subst.
  - pose proof (length_keep_from to_remove 0 (unique_from [] queries)). lia.
  - eapply mark_from_raises; eassumption.
Qed.

(** The deduplication block of [rewrite] keeps the query and the strategy
    name of a result and does not add variants; on a result that carries
    metadata it raises nothing but [IndexError]. *)
Lemma apply_deduplication_outcome r0 self out self' :
  apply_deduplication r0 self = (out, self') ->
  match out with
  | Ok r =>
      RewriteResult.original r = RewriteResult.original r0
      /\ RewriteResult.strategy r = RewriteResult.strategy r0
      /\ List.length (RewriteResult.rewritten r) <= List.length (RewriteResult.rewritten r0)
  | Raise e => RewriteResult.metadata r0 <> None -> e = IndexError
  end.
Proof.
  unfold apply_deduplication.
  destruct (1 <? List.length (RewriteResult.rewritten r0));
    [| intros H; inversion H; subst; auto].
  unfold bind at 1.
  destruct (_deduplicate_queries (RewriteResult.rewritten r0) self) as [[l | e] s1] eqn:Hd;
    apply deduplicate_outcome in Hd.
  - destruct (List.length l <? List.length (RewriteResult.rewritten r0)).
    + unfold bind, item_metadata. cbn [RewriteResult.with_rewritten RewriteResult.metadata].
      destruct (RewriteResult.metadata r0) as [m |]; intros H; inversion H; subst; cbn.
      * auto.
      * intros Hm. now contradiction Hm.
    + intros H; inversion H; subst; cbn. auto.
  - intros H; inversion H; subst. auto.
Qed.

Lemma hybrid_original query context self r self' :
  _hybrid_rewrite query context self = (Ok r, self') ->
  RewriteResult.original r = query /\ RewriteResult.strategy r = "hybrid".
Proof.
  unfold _hybrid_rewrite. intros H.
  apply bind_ok_inv in H. destruct H as (branch & s1 & _ & H).
  apply bind_ok_inv in H. destruct H as (s & s2 & _ & H).
  inversion H; subst. cbn. auto.
Qed.

(** What a strategy returns is small when it is a hybrid result for a
    simple query. *)
Lemma apply_strategy_small query context self r self' :
  apply_strategy query context self = (Ok r, self') -> small_when_simple r.
Proof.
  unfold apply_strategy. rewrite (bind_ok get_self _ _ _ _ eq_refl).
  destruct (strategy self); intros Hrun Htag Hsimple.
  - exfalso. revert Hrun Htag. unfold _expand_query, bind, get_self, complete. cbn.
    destruct (chat_completions_create _ _); intros H; inversion H; subst; cbn; discriminate.
  - exfalso. revert Hrun Htag. unfold _decompose_query, bind, get_self, complete. cbn.
    destruct (chat_completions_create _ _); intros H; inversion H; subst; cbn; discriminate.
  - exfalso. revert Hrun Htag. unfold _refine_query, bind, complete. cbn.
    destruct (chat_completions_create _ _); intros H; inversion H; subst; cbn; discriminate.
  - destruct (hybrid_original _ _ _ _ _ Hrun) as (Horig & _). rewrite Horig in Hsimple.
    destruct (hybrid_simple_run query context self Hsimple) as (all_queries & s1 & Hsimple_run & Hlen).
    rewrite Hsimple_run in Hrun. inversion Hrun; subst. cbn.
    pose proof (length_unique_upto (max_queries self) [] 0 all_queries). lia.
Qed.

Lemma get_In {V} (k : string) (d : list (string * V)) (v : V) :
  get k d = Some v -> In (k, v) d.
Proof.
  induction d as [| [k' v'] d IH]; cbn; [discriminate |].
  destruct (String.eqb_spec k k') as [-> | Hne].
  - intros H. inversion H; subst. now left.
  - intros H. right. now apply IH.
Qed.

Lemma stored_incl key r (cache : list (string * RewriteResult.t)) entry :
  In entry (stored key r cache) -> entry = (key, r) \/ In entry cache.
Proof.
  unfold stored, pop_first.
  assert (Hset : In entry (set key r cache) -> entry = (key, r) \/ In entry cache).
  { induction cache as [| [k' v'] c IH]; cbn.
    - intros [H | []]. now left.
    - destruct (String.eqb_spec key k') as [-> | Hne]; cbn.
      + intros [H | H]; [now left | right; now right].
      + intros [H | H]; [right; now left |].
        destruct (IH H) as [Heq | Hin]; [now left | right; now right]. }
  destruct (100 <? List.length (set key r cache)); [| exact Hset].
  intros Hin. apply Hset. destruct (set key r cache); [exact Hin | now right].
Qed.

(** Every entry of the cache of a reachable rewriter is small when it is
    a hybrid result for a simple query. *)
Lemma reachable_cache_small self :
  reachable self ->
  forall k r, In (k, r) (_query_cache self) -> small_when_simple r.
Proof.
  induction 1 as [s | self query context out self' Hreach IH Hrun | self s m Hreach IH];
    intros k r Hin.
  - contradiction.
  - destruct (get (_get_cache_key self query context) (_query_cache self))
      as [cached |] eqn:Hget.
    + rewrite (rewrite_hit _ _ _ _ Hget) in Hrun. inversion Hrun; subst. eauto.
    + rewrite (rewrite_miss _ _ _ Hget) in Hrun.
      destruct (apply_strategy _ _ _) as [[r0 | e] sb] eqn:Hs.
      * destruct (apply_deduplication r0 sb) as [[r1 | e] sc] eqn:Hd;
          inversion Hrun; subst; cbn in Hin; [| eauto].
        apply stored_incl in Hin. destruct Hin as [Heq | Hin]; [| eauto].
        inversion Heq; subst.
        apply apply_strategy_small in Hs. apply apply_deduplication_outcome in Hd.
        destruct Hd as (Horig & Htag & Hlen).
        intros Hh Hsimple. rewrite Htag in Hh. rewrite Horig in Hsimple.
        specialize (Hs Hh Hsimple). lia.
      * inversion Hrun; subst; cbn in Hin. eauto.
  - cbn in Hin. eauto.
Qed.

(** C10. For a rewriter under the hybrid strategy and a query classified
    as simple, the budget is lowered to [min(2, max_queries)] for the call;
    the hybrid branch run under that budget returns, as its variants, the
    last loop's cut of at most two candidates to that budget; and [rewrite]
    returns at most two variants whatever [max_queries] is, when the entry
    found under the key of the call, if any, was stored for this query. The
    call raises only when the embedding service returns more vectors than
    it was sent ([IndexError]). *)
Theorem simple_hybrid_at_most_two self query context :
  reachable self ->
  strategy self = HYBRID ->
  _determine_query_complexity query = "simple" ->
  own_entry self query context ->
  _adjust_max_queries self query = Z.min 2 (max_queries self)
  /\ (exists all_queries r0 sb,
         _hybrid_rewrite query context (with_max (Z.min 2 (max_queries self)) self)
         = (Ok r0, sb)
         /\ List.length all_queries <= 2
         /\ RewriteResult.rewritten r0
            = unique_upto (Z.min 2 (max_queries self)) [] 0 all_queries)
  /\ match rewrite query context self with
     | (Ok r, _) => List.length (RewriteResult.rewritten r) <= 2
     | (Raise e, _) => e = IndexError
     end.
Proof.
  intros Hreach Hhybrid Hsimple Hown. split; [now apply adjust_simple |]. split.
  { destruct (hybrid_simple_run query context
                (with_max (Z.min 2 (max_queries self)) self) Hsimple)
      as (all_queries & sb & Hrun & Hlen).
    eexists all_queries, _, sb. split; [exact Hrun |]. split; [exact Hlen | reflexivity]. }
  destruct (get (_get_cache_key self query context) (_query_cache self))
    as [cached |] eqn:Hget.
  - rewrite (rewrite_hit _ _ _ _ Hget).
    destruct (Hown cached Hget) as (Horig & Htag).
    apply (reachable_cache_small self Hreach _ cached (get_In _ _ _ Hget)).
    + exact Htag.
    + now rewrite Horig.
  - rewrite (rewrite_miss _ _ _ Hget).
    rewrite apply_strategy_hybrid by exact Hhybrid.
    destruct (hybrid_simple_run query context
                (with_max (_adjust_max_queries self query) self) Hsimple)
      as (all_queries & sb & Hrun & Hlen).
    rewrite Hrun.
    match goal with
    | |- context [apply_deduplication ?r0 sb] =>
        destruct (apply_deduplication r0 sb) as [[r | e] sc] eqn:Hd;
        apply apply_deduplication_outcome in Hd
    end.
    + destruct Hd as (_ & _ & Hd). cbn [RewriteResult.rewritten] in Hd.
      pose proof (length_unique_upto
                    (max_queries (with_max (_adjust_max_queries self query) self))
                    [] 0 all_queries). lia.
    + apply Hd. cbn. discriminate.
Qed.

End SimpleHybrid.

Lemma simple_hybrid_at_most_two_witness :
  match QueryRewriter.rewrite (E := Demo.online []) "What is AI?" None
          (QueryRewriter.__init__ QueryRewriter.HYBRID) with
  | (Ok r, _) => List.length (RewriteResult.rewritten r) <= 2
  | (Raise e, _) => e = IndexError
  end.
Proof.
  apply (simple_hybrid_at_most_two (E := Demo.online [])).
  - apply Spec.reach_init.
  - reflexivity.
  - reflexivity.
  - intros cached Hget. discriminate Hget.
Defined.

(** ** The deduplication of variants *)

Section ExactDuplicates.
Import Py QueryRewriter Spec.

Lemma subseq_refl {A} (l : list A) : subseq l l.
Proof. induction l; constructor; assumption. Qed.

Lemma subseq_In {A} (l1 l2 : list A) (x : A) : subseq l1 l2 -> In x l1 -> In x l2.
Proof.
  induction 1 as [| y l1 l2 Hsub IH | y l1 l2 Hsub IH]; cbn; intros Hin.
  - exact Hin.
  - right. now apply IH.
  - destruct Hin as [Heq | Hin]; [now left | right; now apply IH].
Qed.

Lemma unique_from_subseq seen queries : subseq (unique_from seen queries) queries.
Proof.
  revert seen. induction queries as [| q l IH]; intros seen; cbn [unique_from].
  - constructor.
  - fold (exact_key q). destruct (mem (exact_key q) seen); constructor; apply IH.
Qed.

Lemma unique_from_keys seen queries k :
  In k (map exact_key (unique_from seen queries)) ->
  In k (map exact_key queries) /\ ~ In k seen.
Proof.
  revert seen. induction queries as [| q l IH]; intros seen; cbn [unique_from map].
  - intros [].
  - fold (exact_key q). destruct (mem (exact_key q) seen) eqn:Hmem.
    + intros Hin. destruct (IH _ Hin) as (H1 & H2). split; [now right | exact H2].
    + cbn [map]. intros [Heq | Hin].
      * subst k. split; [now left |]. intros Hin. apply mem_In in Hin. congruence.
      * destruct (IH _ Hin) as (H1 & H2). split; [now right |].
        intros Hseen. apply H2. now right.
Qed.

(** The survivors of the first stage have pairwise different keys. *)
Lemma unique_from_NoDup seen queries : NoDup (map exact_key (unique_from seen queries)).
Proof.
  revert seen. induction queries as [| q l IH]; intros seen; cbn [unique_from].
  - constructor.
  - fold (exact_key q). destruct (mem (exact_key q) seen); [apply IH |].
    cbn [map]. constructor; [| apply IH].
    intros Hin. apply unique_from_keys in Hin. destruct Hin as (_ & Hin).
    apply Hin. now left.
Qed.

(** Every variant has a survivor with its key, unless the key was seen. *)
Lemma unique_from_covers seen queries q :
  In q queries -> ~ In (exact_key q) seen ->
  In (exact_key q) (map exact_key (unique_from seen queries)).
Proof.
  revert seen. induction queries as [| q' l IH]; intros seen; cbn [unique_from].
  - intros [].
  - fold (exact_key q'). intros [Heq | Hin] Hseen.
    + subst q'. destruct (mem (exact_key q) seen) eqn:Hmem.
      * apply mem_In in Hmem. contradiction.
      * now left.
    + destruct (mem (exact_key q') seen) eqn:Hmem; [now apply IH |].
      cbn [map]. destruct (String.eqb_spec (exact_key q') (exact_key q)) as [Heq | Hne].
      * now left.
      * right. apply IH; [exact Hin |]. intros [Heq | Hs]; [congruence | contradiction].
Qed.

(** The first occurrence wins: a variant survives when no variant before
    it has its key. *)
Lemma unique_from_first seen before q after :
  ~ In (exact_key q) seen ->
  ~ In (exact_key q) (map exact_key before) ->
  In q (unique_from seen (before ++ q :: after)).
Proof.
  revert seen. induction before as [| b before IH]; intros seen Hseen Hbefore;
    cbn [app unique_from].
  - fold (exact_key q). destruct (mem (exact_key q) seen) eqn:Hmem.
    + apply mem_In in Hmem. contradiction.
    + now left.
  - fold (exact_key b). cbn [map] in Hbefore.
    destruct (mem (exact_key b) seen).
    + apply IH; [exact Hseen |]. intros H. apply Hbefore. now right.
    + right. apply IH.
      * intros [Heq | Hs]; [| contradiction]. apply Hbefore. now left.
      * intros H. apply Hbefore. now right.
Qed.

Lemma NoDup_map_inv_keys (l : list string) : NoDup (map exact_key l) -> NoDup l.
Proof.
  induction l as [| x l IH]; cbn [map]; intros H; constructor;
    apply NoDup_cons_iff in H; destruct H as (Hx & Hl).
  - intros Hin. apply Hx. now apply in_map.
  - now apply IH.
Qed.

End ExactDuplicates.

Section SimilarPairs.
Import Py QueryRewriter Spec.
Context {E : Env}.

Lemma in_similar_pairs (embeddings : list Embedding) i j s :
  In (i, j, s) (similar_pairs_of embeddings)
  <-> i < j
      /\ exists ei ej,
           nth_error embeddings i = Some ei /\ nth_error embeddings j = Some ej
           /\ s = cosine ei ej /\ gt_095 s = true.
Proof.
  unfold similar_pairs_of. rewrite in_flat_map. split.
  - intros (i' & Hi & Hin). apply in_flat_map in Hin. destruct Hin as (j' & Hj & Hin).
    apply in_seq in Hj.
    destruct (nth_error embeddings i') as [ei |] eqn:Hei; [| contradiction].
    destruct (nth_error embeddings j') as [ej |] eqn:Hej; [| contradiction].
    destruct (gt_095 (cosine ei ej)) eqn:Hsim; [| contradiction].
    destruct Hin as [Heq | []]. inversion Heq; subst.
    split; [lia |]. exists ei, ej. auto.
  - intros (Hlt & ei & ej & Hei & Hej & Hs & Hsim).
    assert (Hj : j < List.length embeddings) by (apply nth_error_Some; congruence).
    exists i. split; [apply in_seq; lia |].
    apply in_flat_map. exists j. split; [apply in_seq; lia |].
    rewrite Hei, Hej. subst s. rewrite Hsim. now left.
Qed.

Lemma mark_from_ok unique_queries pairs : forall to_remove,
  (forall i j s, In (i, j, s) pairs ->
                 i < List.length unique_queries /\ j < List.length unique_queries) ->
  exists marks,
    mark_from unique_queries to_remove pairs = Ok marks
    /\ forall k,
        In k marks
        <-> In k to_remove
            \/ exists i j s qi qj,
                 In (i, j, s) pairs
                 /\ nth_error unique_queries i = Some qi
                 /\ nth_error unique_queries j = Some qj
                 /\ ((len qj < len qi /\ k = i) \/ (len qi <= len qj /\ k = j)).
Proof.
  induction pairs as [| [[i j] s] pairs IH]; intros to_remove Hvalid; cbn [mark_from].
  - exists to_remove. split; [reflexivity |]. intros k. split; [now left |].
    intros [H | (i & j & s & qi & qj & [] & _)]. exact H.
  - destruct (Hvalid i j s (or_introl eq_refl)) as (Hi & Hj).
    destruct (nth_error unique_queries i) as [qi |] eqn:Hqi;
      [| apply nth_error_None in Hqi; lia].
    destruct (nth_error unique_queries j) as [qj |] eqn:Hqj;
      [| apply nth_error_None in Hqj; lia].
    assert (Hrest : forall i' j' s', In (i', j', s') pairs ->
                      i' < List.length unique_queries /\ j' < List.length unique_queries)
      by (intros i' j' s' Hin; apply (Hvalid i' j' s'); now right).
    destruct (len qj <? len qi) eqn:Hlen.
    + apply Nat.ltb_lt in Hlen.
      destruct (IH (i :: to_remove) Hrest) as (marks & Hrun & Hmarks).
      exists marks. split; [exact Hrun |]. intros k. rewrite Hmarks. split.
      * intros [[Heq | Hin] | (i' & j' & s' & qi' & qj' & Hin & H)].
        -- right. exists i, j, s, qi, qj. repeat split; auto. now left.
        -- now left.
        -- right. exists i', j', s', qi', qj'. split; [now right | exact H].
      * intros [Hin | (i' & j' & s' & qi' & qj' & [Heq | Hin] & Hi' & Hj' & Hk)].
        -- left. now right.
        -- inversion Heq; subst i' j' s'. rewrite Hqi in Hi'. rewrite Hqj in Hj'.
           inversion Hi'; inversion Hj'; subst qi' qj'.
           destruct Hk as [(_ & Hk) | (Hle & _)]; [left; now left | lia].
        -- right. exists i', j', s', qi', qj'. auto.
    + apply Nat.ltb_ge in Hlen.
      destruct (IH (j :: to_remove) Hrest) as (marks & Hrun & Hmarks).
      exists marks. split; [exact Hrun |]. intros k. rewrite Hmarks. split.
      * intros [[Heq | Hin] | (i' & j' & s' & qi' & qj' & Hin & H)].
        -- right. exists i, j, s, qi, qj. repeat split; auto. now left.
        -- now left.
        -- right. exists i', j', s', qi', qj'. split; [now right | exact H].
      * intros [Hin | (i' & j' & s' & qi' & qj' & [Heq | Hin] & Hi' & Hj' & Hk)].
        -- left. now right.
        -- inversion Heq; subst i' j' s'. rewrite Hqi in Hi'. rewrite Hqj in Hj'.
           inversion Hi'; inversion Hj'; subst qi' qj'.
           destruct Hk as [(Hlt & _) | (_ & Hk)]; [lia | left; now left].
        -- right. exists i', j', s', qi', qj'. auto.
Qed.

Lemma existsb_eqb_In (idx : nat) (l : list nat) : existsb (Nat.eqb idx) l = true <-> In idx l.
Proof.
  rewrite existsb_exists. split.
  - intros (x & Hin & Heq). apply Nat.eqb_eq in Heq. now subst.
  - intros Hin. exists idx. split; [exact Hin | apply Nat.eqb_refl].
Qed.

Lemma keep_from_subseq marks idx l : subseq (keep_from marks idx l) l.
Proof.
  revert idx. induction l as [| q l IH]; intros idx; cbn [keep_from].
  - constructor.
  - destruct (existsb (Nat.eqb idx) marks); constructor; apply IH.
Qed.

Lemma in_keep_from marks l q : forall idx,
  In q (keep_from marks idx l)
  <-> exists k, nth_error l k = Some q /\ ~ In (idx + k) marks.
Proof.
  induction l as [| q' l IH]; intros idx; cbn [keep_from].
  - split; [intros [] | intros ([| k] & H & _); discriminate].
  - destruct (existsb (Nat.eqb idx) marks) eqn:Hmark.
    + apply existsb_eqb_In in Hmark. rewrite IH. split.
      * intros (k & Hk & Hn). exists (S k). split; [exact Hk |].
        now replace (idx + S k) with (S idx + k) by lia.
      * intros ([| k] & Hk & Hn).
        -- exfalso. apply Hn. now rewrite Nat.add_0_r.
        -- exists k. split; [exact Hk |].
           now replace (S idx + k) with (idx + S k) by lia.
    + assert (Hfree : ~ In idx marks).
      { intros Hin. apply existsb_eqb_In in Hin. congruence. }
      cbn [In]. rewrite IH. split.
      * intros [Heq | (k & Hk & Hn)].
        -- subst q'. exists 0. split; [reflexivity | now rewrite Nat.add_0_r].
        -- exists (S k). split; [exact Hk |].
           now replace (idx + S k) with (S idx + k) by lia.
      * intros ([| k] & Hk & Hn).
        -- left. cbn in Hk. now inversion Hk.
        -- right. exists k. split; [exact Hk |].
           now replace (S idx + k) with (idx + S k) by lia.
Qed.

End SimilarPairs.

Section Deduplication.
Import Py QueryRewriter Spec.
Context {E : Env}.

Lemma unique_from_short queries :
  List.length queries <= 1 -> unique_from [] queries = queries.
Proof.
  destruct queries as [| q [| q' l]]; cbn [List.length]; intros H; [reflexivity | | lia].
  reflexivity.
Qed.

Lemma keep_from_nil idx l : keep_from [] idx l = l.
Proof.
  revert idx. induction l as [| q l IH]; intros idx; cbn [keep_from existsb]; [reflexivity |].
  now rewrite IH.
Qed.

Lemma marked_iff_pairs unique_queries (embeddings : list Embedding) k :
  marked unique_queries embeddings k
  <-> exists i j s qi qj,
        In (i, j, s) (similar_pairs_of embeddings)
        /\ nth_error unique_queries i = Some qi
        /\ nth_error unique_queries j = Some qj
        /\ ((len qj < len qi /\ k = i) \/ (len qi <= len qj /\ k = j)).
Proof.
  unfold marked. split.
  - intros (i & j & qi & qj & ei & ej & Hlt & Hqi & Hqj & Hei & Hej & Hsim & Hk).
    exists i, j, (cosine ei ej), qi, qj. split; [| auto].
    apply in_similar_pairs. split; [exact Hlt |]. exists ei, ej. auto.
  - intros (i & j & s & qi & qj & Hin & Hqi & Hqj & Hk).
    apply in_similar_pairs in Hin. destruct Hin as (Hlt & ei & ej & Hei & Hej & Hs & Hsim).
    subst s. exists i, j, qi, qj, ei, ej. auto 10.
Qed.

(** Dropping the marked positions keeps the order, and keeps a variant
    exactly when its position is not marked. *)
Lemma keep_from_spec unique_queries (embeddings : list Embedding) marks :
  NoDup unique_queries ->
  (forall k, In k marks <-> marked unique_queries embeddings k) ->
  subseq (keep_from marks 0 unique_queries) unique_queries
  /\ forall k q,
      nth_error unique_queries k = Some q ->
      (In q (keep_from marks 0 unique_queries) <-> ~ marked unique_queries embeddings k).
Proof.
  intros Hnodup Hmarks. split; [apply keep_from_subseq |].
  intros k q Hk. rewrite in_keep_from. split.
  - intros (k' & Hk' & Hfree) Hmarked. apply Hfree. cbn [Nat.add]. apply Hmarks.
    assert (Heq : k' = k).
    { eapply (proj1 (NoDup_nth_error unique_queries) Hnodup).
      - apply nth_error_Some. congruence.
      - congruence. }
    now subst k'.
  - intros Hfree. exists k. split; [exact Hk |]. cbn [Nat.add]. intros Hin.
    apply Hfree. now apply Hmarks.
Qed.

Lemma similarity_run queries self (embeddings : list Embedding) :
  1 < List.length queries ->
  embeddings_create (client self) queries = Returned embeddings ->
  _calculate_semantic_similarity queries self
  = (Ok (similar_pairs_of embeddings), after_request self).
Proof.
  intros Hlen Hreply. unfold _calculate_semantic_similarity.
  assert (H : (List.length queries <=? 1) = false) by (apply Nat.leb_gt; exact Hlen).
  rewrite H. unfold bind, embed. rewrite Hreply. reflexivity.
Qed.

Lemma similarity_failure queries self msg :
  embeddings_create (client self) queries = Failed msg ->
  exists self', _calculate_semantic_similarity queries self = (Ok [], self').
Proof.
  intros Hreply. unfold _calculate_semantic_similarity.
  destruct (List.length queries <=? 1); [now eexists |].
  unfold bind, embed. rewrite Hreply. now eexists.
Qed.

(** C8, as the code has it. The first stage keeps the first variant of
    every key (the variant lower-cased and stripped of white space at both
    ends), in order. Then, when the embedding service returns one vector
    per survivor, a survivor is dropped exactly when its position is
    marked: it is the longer member, or on equal lengths the second
    member, of some pair more similar than the threshold. The others are
    returned in their order; a pair that is not more similar than the
    threshold marks nothing, but its members may be marked through other
    pairs. When the embedding request fails, the survivors of the first
    stage are returned as they are. *)
Theorem deduplicate_drops_marked :
  (forall queries,
      subseq (unique_from [] queries) queries
      /\ NoDup (map exact_key (unique_from [] queries))
      /\ (forall q, In q queries ->
                    In (exact_key q) (map exact_key (unique_from [] queries)))
      /\ (forall before q after,
             queries = before ++ q :: after ->
             ~ In (exact_key q) (map exact_key before) ->
             In q (unique_from [] queries)))
  /\ (forall queries self embeddings,
         embeddings_create (client self) (unique_from [] queries) = Returned embeddings ->
         List.length embeddings = List.length (unique_from [] queries) ->
         exists out self',
           _deduplicate_queries queries self = (Ok out, self')
           /\ subseq out (unique_from [] queries)
           /\ forall k q,
               nth_error (unique_from [] queries) k = Some q ->
               (In q out <-> ~ marked (unique_from [] queries) embeddings k))
  /\ (forall queries self msg,
         embeddings_create (client self) (unique_from [] queries) = Failed msg ->
         exists self',
           _deduplicate_queries queries self = (Ok (unique_from [] queries), self')).
Proof.
  split; [| split].
  - intros queries. split; [apply unique_from_subseq |].
    split; [apply unique_from_NoDup |]. split.
    + intros q Hin. apply unique_from_covers; [exact Hin | intros []].
    + intros before q after -> Hfirst. apply unique_from_first; [intros [] | exact Hfirst].
  - intros queries self embeddings Hreply Hsize.
    set (unique_queries := unique_from [] queries) in *.
    assert (Hnodup : NoDup unique_queries)
      by (apply NoDup_map_inv_keys, unique_from_NoDup).
    assert (Hfew : List.length unique_queries <= 1 ->
                   forall k, ~ marked unique_queries embeddings k).
    { intros Hlen k (i & j & qi & qj & ei & ej & Hlt & _ & Hqj & _).
      assert (j < List.length unique_queries) by (apply nth_error_Some; congruence). lia. }
    assert (Hall : forall (l : list string) (self' : Self),
               l = unique_queries ->
               (forall k, ~ marked unique_queries embeddings k) ->
               exists (out : list string) (self0 : Self),
                 (Ok l, self') = (Ok out, self0)
                 /\ subseq out unique_queries
                 /\ forall k q,
                     nth_error unique_queries k = Some q ->
                     (In q out <-> ~ marked unique_queries embeddings k)).
    { intros l self' -> Hnone. exists unique_queries, self'. split; [reflexivity |].
      split; [apply subseq_refl |]. intros k q Hk. split; [intros _; apply Hnone |].
      intros _. eapply nth_error_In; eassumption. }
    unfold _deduplicate_queries.
    destruct (List.length queries <=? 1) eqn:Hshort.
    { apply Nat.leb_le in Hshort.
      apply (Hall queries self).
      - symmetry. apply unique_from_short, Hshort.
      - apply Hfew. unfold unique_queries. now rewrite unique_from_short. }
    fold unique_queries.
    destruct (List.length unique_queries <=? 1) eqn:Hone.
    { apply Nat.leb_le in Hone. apply (Hall unique_queries self eq_refl), Hfew, Hone. }
    apply Nat.leb_gt in Hone.
    rewrite (bind_ok _ _ _ _ _ (similarity_run _ _ _ Hone Hreply)).
    destruct (similar_pairs_of embeddings) as [| p pairs] eqn:Hpairs.
    { apply (Hall unique_queries (after_request self) eq_refl).
      intros k Hmarked. apply marked_iff_pairs in Hmarked.
      destruct Hmarked as (i & j & s & _ & _ & Hin & _). rewrite Hpairs in Hin. exact Hin. }
    rewrite <- Hpairs.
    destruct (mark_from_ok unique_queries (similar_pairs_of embeddings) [])
      as (marks & Hmark & Hmarks).
    { intros i j s Hin. apply in_similar_pairs in Hin.
      destruct Hin as (_ & ei & ej & Hei & Hej & _).
      rewrite <- Hsize. split; apply nth_error_Some; congruence. }
    rewrite Hmark. unfold ret.
    exists (keep_from marks 0 unique_queries), (after_request self).
    split; [reflexivity |]. apply (keep_from_spec unique_queries embeddings); [exact Hnodup |].
    intros k. rewrite Hmarks, marked_iff_pairs. cbn [In]. tauto.
  - intros queries self msg Hreply. unfold _deduplicate_queries.
    destruct (List.length queries <=? 1) eqn:Hshort.
    { apply Nat.leb_le in Hshort. rewrite (unique_from_short queries Hshort).
      now eexists. }
    destruct (List.length (unique_from [] queries) <=? 1); [now eexists |].
    destruct (similarity_failure _ _ _ Hreply) as (self' & Hrun).
    rewrite (bind_ok _ _ _ _ _ Hrun). now eexists.
Qed.

End Deduplication.

Lemma deduplicate_drops_marked_witness :
  exists out self',
    QueryRewriter._deduplicate_queries (E := Demo.online Demo.three_vectors)
      Demo.three_variants (QueryRewriter.__init__ QueryRewriter.HYBRID) = (Ok out, self')
    /\ Spec.subseq out (QueryRewriter.unique_from [] Demo.three_variants)
    /\ forall k q,
        nth_error (QueryRewriter.unique_from [] Demo.three_variants) k = Some q ->
        (In q out
         <-> ~ Spec.marked (E := Demo.online Demo.three_vectors)
                 (QueryRewriter.unique_from [] Demo.three_variants)
                 (map (Demo.vector_in Demo.three_vectors) Demo.three_variants) k).
Proof.
  apply (proj1 (proj2 (deduplicate_drops_marked (E := Demo.online Demo.three_vectors)))
           Demo.three_variants (QueryRewriter.__init__ QueryRewriter.HYBRID)
           (map (Demo.vector_in Demo.three_vectors) Demo.three_variants));
    reflexivity.
Defined.

(** C8, as the claim has it, fails: the second of three variants is more
    similar than the threshold to the first and longer than it, so it is
    dropped, although it forms with the third a pair that is not more
    similar than the threshold. *)
Lemma dissimilar_pair_loses_member :
  ~ Spec.keeps_dissimilar_pairs (E := Demo.online Demo.three_vectors)
      Demo.three_variants (QueryRewriter.__init__ QueryRewriter.HYBRID).
Proof.
  intros Hclaim.
  destruct (Hclaim (map (Demo.vector_in Demo.three_vectors) Demo.three_variants)
              ["cobertura del plan"; "copagos y deducibles"]
              (Spec.after_request (QueryRewriter.__init__ QueryRewriter.HYBRID))
              eq_refl eq_refl
              1 2 "cobertura del plan familiar" "copagos y deducibles"
              [99; 14]%Z [80; 60]%Z) as (Hkept & _);
    try reflexivity; [lia |].
  destruct Hkept as [H | [H | []]]; discriminate H.
Qed.

(** ** The fusion of the hits of several variants *)

Section Fusion.
Import Py VectorStore FusionSpec.
Context {B : Backend}.

Lemma NoDup_snoc {A} (l : list A) (x : A) : NoDup l -> ~ In x l -> NoDup (l ++ [x]).
Proof.
  intros Hl Hx. apply (Permutation_NoDup (l := x :: l)).
  - apply Permutation_cons_append.
  - now constructor.
Qed.

Lemma collect_app deduplicate l1 l2 : forall acc,
  collect deduplicate (l1 ++ l2) acc = collect deduplicate l2 (collect deduplicate l1 acc).
Proof.
  induction l1 as [| r l1 IH]; intros [all seen]; cbn [app collect]; [reflexivity |].
  destruct deduplicate; [destruct (mem (content r) seen) |]; apply IH.
Qed.

(** [search_multiple] is the searches, then the accumulation of all their
    hits, then the sort; an exception of a search is its exception. *)
Lemma gather_run deduplicate top_k queries : forall acc self,
  gather deduplicate top_k queries acc self
  = match search_each queries top_k self with
    | (Ok lists, self') => (Ok (collect deduplicate (List.concat lists) acc), self')
    | (Raise e, self') => (Raise e, self')
    end.
Proof.
  induction queries as [| query rest IH]; intros acc self; cbn [gather search_each].
  - reflexivity.
  - unfold bind.
    destruct (search query top_k None self) as [[results | e] s1]; [| reflexivity].
    rewrite IH.
    destruct (search_each rest top_k s1) as [[lists | e] s2]; [| reflexivity].
    cbn [ret List.concat]. now rewrite collect_app.
Qed.

Lemma search_multiple_run queries top_k deduplicate self :
  search_multiple queries top_k deduplicate self
  = match search_each queries top_k self with
    | (Ok lists, self') =>
        (Ok (sort_desc (fst (collect deduplicate (List.concat lists) ([], [])))), self')
    | (Raise e, self') => (Raise e, self')
    end.
Proof.
  unfold search_multiple, bind. rewrite gather_run.
  destruct (search_each queries top_k self) as [[lists | e] s1]; reflexivity.
Qed.

(** The accumulation with deduplication, from an accumulator whose seen
    contents are the contents of its hits. *)
Lemma collect_first_seen hits : forall all seen,
  NoDup (map content all) ->
  (forall c, In c seen <-> In c (map content all)) ->
  NoDup (map content (fst (collect true hits (all, seen))))
  /\ forall r,
      In r (fst (collect true hits (all, seen)))
      <-> In r all
          \/ (first_seen r hits /\ ~ In (content r) (map content all)).
Proof.
  induction hits as [| h hits IH]; intros all seen Hnodup Hseen; cbn [collect].
  - split; [exact Hnodup |]. intros r. split; [now left |].
    intros [H | ((before & after & Heq & _) & _)]; [exact H |].
    destruct before; discriminate.
  - destruct (mem (content h) seen) eqn:Hmem.
    + apply mem_In in Hmem. apply Hseen in Hmem.
      destruct (IH all seen Hnodup Hseen) as (Hnd & Hin). split; [exact Hnd |].
      intros r. rewrite Hin. split.
      * intros [H | ((before & after & Heq & Hfirst) & Hnew)]; [now left | right].
        split; [| exact Hnew]. exists (h :: before), after. split; [now rewrite Heq |].
        cbn [map]. intros [Hc | Hb]; [| contradiction]. apply Hnew. now rewrite <- Hc.
      * intros [H | ((before & after & Heq & Hfirst) & Hnew)]; [now left |].
        destruct before as [| b before]; cbn [app] in Heq; inversion Heq; subst.
        -- contradiction.
        -- right. split; [| exact Hnew]. exists before, after. split; [reflexivity |].
           intros Hb. apply Hfirst. now right.
    + assert (Hfresh : ~ In (content h) (map content all)).
      { intros Hin. apply Hseen, mem_In in Hin. congruence. }
      destruct (IH (all ++ [h]) (content h :: seen)) as (Hnd & Hin).
      * rewrite map_app. cbn [map].
        apply NoDup_snoc; assumption.
      * intros c. rewrite map_app, in_app_iff. cbn [map In]. rewrite Hseen. tauto.
      * split; [exact Hnd |]. intros r. rewrite Hin.
        rewrite map_app, !in_app_iff. cbn [map In]. split.
        -- intros [[H | [H | []]] | ((before & after & Heq & Hfirst) & Hnew)].
           ++ now left.
           ++ subst r. right. split; [| exact Hfresh]. now exists [], hits.
           ++ right. split; [| tauto]. exists (h :: before), after.
              split; [now rewrite Heq |]. cbn [map]. intros [Hc | Hb]; [| contradiction].
              apply Hnew. right. now left.
        -- intros [H | ((before & after & Heq & Hfirst) & Hnew)]; [left; now left |].
           destruct before as [| b before]; cbn [app] in Heq; inversion Heq; subst.
           ++ left. right. now left.
           ++ right. split.
              ** exists before, after. split; [reflexivity |]. intros Hb. apply Hfirst. now right.
              ** intros [Ha | [Hc | []]]; [contradiction |]. apply Hfirst. now left.
Qed.

End Fusion.

Section SortByScore.
Import Py VectorStore FusionSpec.
Context {B : Backend}.

(** Scores are compared with [<]; the two facts used of it hold of every
    total preorder, and so of floating-point scores that are numbers. *)
Hypothesis lt_asym : forall a b : Score, lt a b = true -> lt b a = false.
Hypothesis lt_negtrans :
  forall a b c : Score, lt a b = false -> lt b c = false -> lt a c = false.

Lemma insert_desc_perm r sorted : Permutation (insert_desc r sorted) (r :: sorted).
Proof.
  induction sorted as [| e rest IH]; cbn [insert_desc]; [reflexivity |].
  destruct (lt (score e) (score r)); [reflexivity |].
  rewrite IH. apply perm_swap.
Qed.

Lemma insert_desc_sorted r sorted :
  StronglySorted not_below sorted -> StronglySorted not_below (insert_desc r sorted).
Proof.
  induction 1 as [| e rest Hsorted IH Hall]; cbn [insert_desc].
  - constructor; constructor.
  - destruct (lt (score e) (score r)) eqn:Hlt.
    + constructor; [now constructor |]. constructor.
      * now apply lt_asym.
      * apply Forall_forall. intros x Hx. rewrite Forall_forall in Hall.
        apply (lt_negtrans _ (score e)); [now apply lt_asym | now apply Hall].
    + constructor; [exact IH |]. apply Forall_forall. intros x Hx.
      apply (Permutation_in _ (insert_desc_perm r rest)) in Hx.
      destruct Hx as [<- | Hx]; [exact Hlt |].
      rewrite Forall_forall in Hall. now apply Hall.
Qed.

Lemma sort_desc_from acc l :
  StronglySorted not_below acc ->
  StronglySorted not_below (fold_left (fun sorted r => insert_desc r sorted) l acc)
  /\ Permutation (fold_left (fun sorted r => insert_desc r sorted) l acc) (acc ++ l).
Proof.
  revert acc. induction l as [| r l IH]; intros acc Hacc; cbn [fold_left].
  - rewrite app_nil_r. split; [exact Hacc | reflexivity].
  - destruct (IH (insert_desc r acc) (insert_desc_sorted r acc Hacc)) as (Hs & Hp).
    split; [exact Hs |]. rewrite Hp, insert_desc_perm.
    cbn [app]. apply Permutation_middle.
Qed.

Lemma sort_desc_spec l :
  StronglySorted not_below (sort_desc l) /\ Permutation (sort_desc l) l.
Proof. apply (sort_desc_from [] l). constructor. Qed.

(** C5. When every search of the variants returns, the fusion with
    deduplication returns a list in which no content occurs twice, which
    holds exactly the hits that are the first to carry their content among
    the hits of all variants in search order (whatever the score of the
    later ones), and in which no hit has a smaller score than a hit behind
    it; the scores are taken to be compared by a [<] that is asymmetric and
    whose negation is transitive. *)
Theorem search_multiple_fuses queries top_k self lists self' :
  search_each queries top_k self = (Ok lists, self') ->
  exists out,
    search_multiple queries top_k true self = (Ok out, self')
    /\ NoDup (map content out)
    /\ (forall r, In r out <-> first_seen r (List.concat lists))
    /\ StronglySorted not_below out.
Proof.
  intros Heach. rewrite search_multiple_run, Heach.
  eexists. split; [reflexivity |].
  destruct (collect_first_seen (List.concat lists) [] []) as (Hnodup & Hin).
  - constructor.
  - intros c. cbn. tauto.
  - destruct (sort_desc_spec (fst (collect true (List.concat lists) ([], []))))
      as (Hsorted & Hperm).
    split; [| split; [| exact Hsorted]].
    + eapply Permutation_NoDup; [| exact Hnodup].
      apply Permutation_map. now symmetry.
    + intros r. split.
      * intros Hr. apply (Permutation_in _ Hperm), Hin in Hr.
        destruct Hr as [[] | (Hfirst & _)]. exact Hfirst.
      * intros Hfirst. apply (Permutation_in _ (Permutation_sym Hperm)), Hin.
        right. split; [exact Hfirst | intros []].
Qed.

End SortByScore.

Lemma search_multiple_fuses_witness :
  exists out,
    VectorStore.search_multiple (B := Demo.backend) ["plan"; "otro"] None true
      (VectorStore.mkSelf (Some 0)) = (Ok out, VectorStore.mkSelf (Some 2))
    /\ NoDup (map VectorStore.content out)
    /\ (forall r,
           In r out
           <-> FusionSpec.first_seen r
                 [VectorStore.mkResult (B := Demo.backend) "doc plan" "a.pdf" 3%Z;
                  VectorStore.mkResult (B := Demo.backend) "doc comun" "c.pdf" 9%Z;
                  VectorStore.mkResult (B := Demo.backend) "doc comun" "c.pdf" 1%Z;
                  VectorStore.mkResult (B := Demo.backend) "doc otro" "b.pdf" 5%Z])
    /\ StronglySorted FusionSpec.not_below out.
Proof.
  apply (search_multiple_fuses (B := Demo.backend)) with
    (lists := [[VectorStore.mkResult (B := Demo.backend) "doc plan" "a.pdf" 3%Z;
                VectorStore.mkResult (B := Demo.backend) "doc comun" "c.pdf" 9%Z];
               [VectorStore.mkResult (B := Demo.backend) "doc comun" "c.pdf" 1%Z;
                VectorStore.mkResult (B := Demo.backend) "doc otro" "b.pdf" 5%Z]]).
  - intros a b Hlt. apply Z.ltb_lt in Hlt. apply Z.ltb_ge. cbn in *. lia.
  - intros a b c Hab Hbc. apply Z.ltb_ge in Hab, Hbc. apply Z.ltb_ge. cbn in *. lia.
  - reflexivity.
Defined.

(** ** A failed search *)

Section FailedSearch.
Import Py VectorStore FusionSpec.
Context {B : Backend}.

Lemma search_each_failure top_k query after msg : forall before served,
  (forall i q, nth_error before i = Some q ->
               exists hits,
                 similarity_search_with_score (served + i) q (or_default top_k) None
                 = Returned hits) ->
  similarity_search_with_score (served + List.length before) query (or_default top_k) None
  = Failed msg ->
  search_each (before ++ query :: after) top_k (mkSelf (Some served))
  = (Raise (BackendError msg), mkSelf (Some (S (served + List.length before)))).
Proof.
  induction before as [| b before IH]; intros served Hbefore Hfail;
    cbn [app search_each List.length].
  - rewrite Nat.add_0_r in *. unfold bind, search. cbn [vector_store].
    now rewrite Hfail.
  - destruct (Hbefore 0 b eq_refl) as (hits & Hhits). rewrite Nat.add_0_r in Hhits.
    unfold bind at 1. unfold search at 1. cbn [vector_store]. rewrite Hhits.
    cbv beta iota. unfold bind at 1. rewrite (IH (S served)).
    + now rewrite Nat.add_succ_r.
    + intros i q Hq. destruct (Hbefore (S i) q Hq) as (h & Hh). exists h.
      now rewrite Nat.add_succ_r in Hh.
    + cbn [List.length] in Hfail. now rewrite Nat.add_succ_r in Hfail.
Qed.

Lemma search_each_unloaded top_k queries :
  search_each queries top_k (mkSelf None)
  = (Ok (map (fun _ => []) queries), mkSelf None).
Proof.
  induction queries as [| q rest IH]; cbn [search_each map]; [reflexivity |].
  unfold bind at 1. unfold search at 1. cbn [vector_store]. cbv beta iota.
  unfold bind at 1. rewrite IH. reflexivity.
Qed.

Lemma concat_of_empty {A C} (l : list C) : List.concat (map (fun _ => @nil A) l) = [].
Proof. induction l; cbn; auto. Qed.

(** C3, as the code has it. When the searches of the variants before a
    variant return and the search of that variant fails, the fusion raises
    the error of that search to its caller, returns no hits and searches
    no further variant; the fusion returns a result only when the search
    of every variant returned; and on a store that holds no documents yet
    every search returns no hit and the fusion returns the empty list. *)
Theorem failed_search_aborts_fusion :
  (forall before query after top_k deduplicate served msg,
      (forall i q, nth_error before i = Some q ->
                   exists hits,
                     similarity_search_with_score (served + i) q (or_default top_k) None
                     = Returned hits) ->
      similarity_search_with_score (served + List.length before) query
        (or_default top_k) None = Failed msg ->
      search_multiple (before ++ query :: after) top_k deduplicate (mkSelf (Some served))
      = (Raise (BackendError msg), mkSelf (Some (S (served + List.length before)))))
  /\ (forall queries top_k deduplicate self out self',
         search_multiple queries top_k deduplicate self = (Ok out, self') ->
         exists lists, search_each queries top_k self = (Ok lists, self'))
  /\ (forall queries top_k deduplicate,
         search_multiple queries top_k deduplicate (mkSelf None) = (Ok [], mkSelf None)).
Proof.
  split; [| split].
  - intros before query after top_k deduplicate served msg Hbefore Hfail.
    rewrite search_multiple_run.
    now rewrite (search_each_failure top_k query after msg before served Hbefore Hfail).
  - intros queries top_k deduplicate self out self' Hrun.
    rewrite search_multiple_run in Hrun.
    destruct (search_each queries top_k self) as [[lists | e] s1]; [| discriminate].
    inversion Hrun; subst. now exists lists.
  - intros queries top_k deduplicate.
    rewrite search_multiple_run, search_each_unloaded, concat_of_empty. reflexivity.
Qed.

End FailedSearch.

Lemma failed_search_aborts_fusion_witness :
  VectorStore.search_multiple (B := Demo.backend) ["plan"; "caida"; "otro"] None true
    (VectorStore.mkSelf (Some 0))
  = (Raise (BackendError "backend unreachable"), VectorStore.mkSelf (Some 2)).
Proof.
  apply (proj1 (failed_search_aborts_fusion (B := Demo.backend))
           ["plan"] "caida" ["otro"] None true 0 "backend unreachable").
  - intros [| i] q Hq; [| destruct i; discriminate Hq].
    inversion Hq; subst. eexists. reflexivity.
  - reflexivity.
Defined.

(** C3, as the claim has it, fails: of two variants the backend answers
    the first and fails on the second, and the fusion returns nothing. *)
Lemma partial_failure_not_absorbed :
  ~ FusionSpec.absorbs_failed_searches (B := Demo.backend) ["plan"; "caida"] None
      (VectorStore.mkSelf (Some 0)).
Proof.
  intros Hclaim. destruct Hclaim as (out & self' & Hrun).
  - exists "plan". split; [now left |]. intros n. eexists. reflexivity.
  - vm_compute in Hrun. discriminate Hrun.
Qed.

(** * Further properties of the code *)

(** ** [rewrite]: what a call leaves behind *)

Section RewriteFrame.
Import Py QueryRewriter Spec.
Context {E : Env}.

(** X1. Whatever a call of [rewrite] does (a hit, a fresh result, an
    exception), the strategy and the configured budget of the rewriter are
    afterwards what they were before, although the call lowers or raises
    the budget while it runs; and a call that raises leaves the cache
    untouched. *)
Theorem rewrite_restores_fields query context self out self' :
  rewrite query context self = (out, self') ->
  strategy self' = strategy self
  /\ max_queries self' = max_queries self
  /\ (forall e, out = Raise e -> _query_cache self' = _query_cache self).
Proof.
  intros Hrun.
  destruct (get (_get_cache_key self query context) (_query_cache self)) as [cached |] eqn:Hget.
  - rewrite (rewrite_hit _ _ _ _ Hget) in Hrun. inversion Hrun; subst. auto.
  - rewrite (rewrite_miss _ _ _ Hget) in Hrun.
    destruct (apply_strategy _ _ _) as [[r0 | e0] sb].
    + destruct (apply_deduplication r0 sb) as [[r | e1] sc]; inversion Hrun; subst; cbn.
      * repeat split. intros e He. discriminate He.
      * auto.
    + inversion Hrun; subst; cbn. auto.
Qed.

End RewriteFrame.

Lemma rewrite_restores_fields_witness :
  exists e self',
    QueryRewriter.rewrite (E := Demo.offline) "compare plan A versus plan B now" None
      (QueryRewriter.create_rewriter QueryRewriter.HYBRID 7) = (Raise e, self')
    /\ QueryRewriter.max_queries self' = 7%Z
    /\ QueryRewriter._query_cache self' = [].
Proof.
  assert (Hrun : exists e self',
             QueryRewriter.rewrite (E := Demo.offline) "compare plan A versus plan B now" None
               (QueryRewriter.create_rewriter QueryRewriter.HYBRID 7) = (Raise e, self'))
    by (eexists; eexists; vm_compute; reflexivity).
  destruct Hrun as (e & self' & Hrun). exists e, self'. split; [exact Hrun |].
  destruct (rewrite_restores_fields (E := Demo.offline) _ _ _ _ _ Hrun) as (_ & Hmax & Hcache).
  split; [exact Hmax | exact (Hcache e eq_refl)].
Defined.

Section CachedFailure.
Import Py QueryRewriter Spec.
Context {E : Env}.

(** X2. A failed generation is cached like a result. Under the
    expansion, decomposition and refinement strategies, when the completion
    request of an uncached call fails, [rewrite] returns the original query
    as the only variant with the error recorded, after that one request;
    and the same call on the rewriter it leaves returns this degraded
    result again from the cache: no new request is sent, whatever the
    service would answer by then. *)
Theorem failed_generation_is_cached self query context msg :
  strategy self <> HYBRID ->
  get (_get_cache_key self query context) (_query_cache self) = None ->
  (forall request, chat_completions_create (client self) request = Failed msg) ->
  exists self',
    rewrite query context self
    = (Ok (RewriteResult.mk query [query] (value (strategy self)) None (Some msg)), self')
    /\ client self' = S (client self)
    /\ rewrite query context self'
       = (Ok (RewriteResult.mk query [query] (value (strategy self)) None (Some msg)), self').
Proof.
  intros Hbase Hmiss Hfail.
  assert (Hrun : exists self',
             rewrite query context self
             = (Ok (RewriteResult.mk query [query] (value (strategy self)) None (Some msg)),
                self')
             /\ client self' = S (client self)).
  { rewrite (rewrite_miss _ _ _ Hmiss).
    unfold apply_strategy, bind at 1, get_self.
    set (s0 := with_max (_adjust_max_queries self query) self).
    change (strategy s0) with (strategy self).
    destruct (strategy self); [| | | contradiction].
    - unfold _expand_query, bind, get_self, complete.
      change (client s0) with (client self). rewrite Hfail. cbn. eexists. split; reflexivity.
    - unfold _decompose_query, bind, get_self, complete.
      change (client s0) with (client self). rewrite Hfail. cbn. eexists. split; reflexivity.
    - unfold _refine_query, bind, complete.
      change (client s0) with (client self). rewrite Hfail. cbn. eexists. split; reflexivity. }
  destruct Hrun as (self' & Hrun & Hclient). exists self'.
  split; [exact Hrun |]. split; [exact Hclient |].
  destruct (rewrite_keeps_key _ _ _ _ _ Hrun) as (Hs & Hm).
  apply rewrite_hit. rewrite (key_of_same_fields self self' query context Hs Hm).
  exact (rewrite_caches _ _ _ _ _ Hrun).
Qed.

End CachedFailure.

Lemma failed_generation_is_cached_witness :
  exists self',
    QueryRewriter.rewrite (E := Demo.offline) "que cubre el plan" None
      (QueryRewriter.create_rewriter QueryRewriter.DECOMPOSITION 3)
    = (Ok (RewriteResult.mk "que cubre el plan" ["que cubre el plan"] "decomposition"
             None (Some "connection refused")), self')
    /\ QueryRewriter.client self' = 1
    /\ QueryRewriter.rewrite (E := Demo.offline) "que cubre el plan" None self'
       = (Ok (RewriteResult.mk "que cubre el plan" ["que cubre el plan"] "decomposition"
                None (Some "connection refused")), self').
Proof.
  apply (failed_generation_is_cached (E := Demo.offline)
           (QueryRewriter.create_rewriter QueryRewriter.DECOMPOSITION 3)
           "que cubre el plan" None "connection refused").
  - discriminate.
  - reflexivity.
  - reflexivity.
Defined.

(** ** The adapted budget *)

Section AdaptedBudget.
Import Py QueryRewriter Spec.
Context {E : Env}.

(** X3. The budget a call runs under is the configured one for a medium
    query; for a simple query it is 2 when more than 2 are configured and
    the configured one otherwise; for a complex query it lies between 3 and
    5 whatever is configured. No other case exists. *)
Theorem adjusted_budget_range self query :
  (_determine_query_complexity query = "medium"
   /\ _adjust_max_queries self query = max_queries self)
  \/ (_determine_query_complexity query = "simple"
      /\ (_adjust_max_queries self query <= 2)%Z
      /\ (_adjust_max_queries self query <= max_queries self)%Z
      /\ ((max_queries self <= 2)%Z -> _adjust_max_queries self query = max_queries self))
  \/ (_determine_query_complexity query = "complex"
      /\ (3 <= _adjust_max_queries self query <= 5)%Z
      /\ ((3 <= max_queries self <= 5)%Z -> _adjust_max_queries self query = max_queries self)).
Proof.
  unfold _adjust_max_queries, _determine_query_complexity.
  destruct ((List.length (split query) <=? 5) && negb (has_multiple_questions query)).
  - right. left. change (String.eqb "simple" "simple") with true.
    cbv iota. repeat split; try reflexivity; lia.
  - destruct ((15 <? List.length (split query)) || has_multiple_questions query
              || has_comparisons query).
    + right. right. change (String.eqb "complex" "simple") with false.
      change (String.eqb "complex" "complex") with true. cbv iota.
      repeat split; try reflexivity; lia.
    + left. change (String.eqb "medium" "simple") with false.
      change (String.eqb "medium" "complex") with false. cbv iota. auto.
Qed.

End AdaptedBudget.

(** ** The decomposition and refinement strategies *)

Section BaseStrategies.
Import Py QueryRewriter Spec.
Context {E : Env}.

Lemma long_lines_stripped (lines : list string) :
  Forall (fun v => 10 < len v /\ exists line, In line lines /\ v = strip line)
         (long_lines lines).
Proof. apply Forall_forall. intros v Hv. now apply long_lines_spec. Qed.

(** X4. When the completion service answers a decomposition request, the
    answer is cut into stripped lines of more than ten characters and
    those are cut to the budget. Two or more of them are returned as they
    are; a single one is thrown away together with none, and the original
    query is returned alone. The flag [was_decomposed] says which of the two
    happened, the list of variants is never empty, and for a budget that is
    not negative it holds at most [max(1, max_queries)] variants. *)
Theorem decompose_query_shape self query context content :
  chat_completions_create (client self) (decomposition_request self query) = Returned content ->
  (0 <= max_queries self)%Z ->
  exists r,
    _decompose_query query context self = (Ok r, after_request self)
    /\ ((RewriteResult.rewritten r = [query]
         /\ List.length (slice_to (max_queries self)
                           (long_lines (split_on newline (strip content)))) <= 1
         /\ option_map (get "was_decomposed") (RewriteResult.metadata r)
            = Some (Some (RewriteResult.MBool false)))
        \/ (RewriteResult.rewritten r
            = slice_to (max_queries self) (long_lines (split_on newline (strip content)))
            /\ 2 <= List.length (RewriteResult.rewritten r)
            /\ Forall (fun v => 10 < len v
                                /\ exists line, In line (split_on newline (strip content))
                                                /\ v = strip line)
                      (RewriteResult.rewritten r)
            /\ option_map (get "was_decomposed") (RewriteResult.metadata r)
               = Some (Some (RewriteResult.MBool true))))
    /\ (Z.of_nat (List.length (RewriteResult.rewritten r)) <= Z.max 1 (max_queries self))%Z
    /\ RewriteResult.original r = query
    /\ RewriteResult.error r = None.
Proof.
  intros Hreply Hmax.
  unfold _decompose_query, bind, get_self, complete, ret. cbv beta iota zeta.
  unfold decomposition_request in Hreply. rewrite Hreply. cbv beta iota zeta.
  set (subs := slice_to (max_queries self) (long_lines (split_on newline (strip content)))).
  pose proof (length_slice_to (max_queries self)
                (long_lines (split_on newline (strip content))) Hmax) as Hlen.
  fold subs in Hlen.
  eexists. split; [reflexivity |].
  cbn [RewriteResult.rewritten RewriteResult.metadata RewriteResult.original
       RewriteResult.error option_map].
  change (get "was_decomposed" _)
    with (Some (RewriteResult.MBool (1 <? List.length subs))).
  destruct (1 <? List.length subs) eqn:Hmany.
  - apply Nat.ltb_lt in Hmany. split; [right | split; [lia | auto]].
    split; [reflexivity |]. split; [lia |]. split; [| reflexivity].
    apply Forall_forall. intros v Hv. apply slice_to_incl in Hv. now apply long_lines_spec.
  - apply Nat.ltb_ge in Hmany. split; [left | split; [cbn [List.length]; lia | auto]].
    split; [reflexivity |]. split; [exact Hmany | reflexivity].
Qed.


End BaseStrategies.

Lemma decompose_query_shape_witness :
  exists r,
    QueryRewriter._decompose_query (E := Demo.online []) "compara el plan A y el plan B" None
      (QueryRewriter.create_rewriter QueryRewriter.DECOMPOSITION 1)
    = (Ok r, Spec.after_request (QueryRewriter.create_rewriter QueryRewriter.DECOMPOSITION 1))
    /\ RewriteResult.rewritten r = ["compara el plan A y el plan B"].
Proof.
  destruct (decompose_query_shape (E := Demo.online [])
              (QueryRewriter.create_rewriter QueryRewriter.DECOMPOSITION 1)
              "compara el plan A y el plan B" None
              (Demo.answer (Spec.decomposition_request
                              (QueryRewriter.create_rewriter QueryRewriter.DECOMPOSITION 1)
                              "compara el plan A y el plan B")))
    as (r & Hrun & [(Hone & _) | (Heq & Htwo & _)] & _).
  - reflexivity.
  - vm_compute. discriminate.
  - exists r. split; [exact Hrun | exact Hone].
  - exfalso. rewrite Heq in Htwo. vm_compute in Htwo. lia.
Defined.

(** ** The variants of the hybrid strategy *)

Section HybridVariants.
Import Py QueryRewriter Spec.
Context {E : Env}.

Lemma unique_upto_spec m l : forall seen n,
  Forall (fun v => 10 < len v /\ exists q, In q l /\ v = strip q) (unique_upto m seen n l)
  /\ NoDup (map lower (unique_upto m seen n l))
  /\ (forall k, In k (map lower (unique_upto m seen n l)) -> ~ In k seen)
  /\ (Z.of_nat (List.length (unique_upto m seen n l)) <= Z.max 1 (m - Z.of_nat n))%Z.
Proof.
  induction l as [| q l IH]; intros seen n; cbn [unique_upto].
  - cbn. repeat split; [constructor | constructor | intros k [] | lia].
  - destruct (negb (mem (lower (strip q)) seen)) eqn:Hnew; cbn [andb].
    + destruct (10 <? len (strip q)) eqn:Hlong.
      * apply Nat.ltb_lt in Hlong. apply negb_true_iff in Hnew.
        assert (Hfresh : ~ In (lower (strip q)) seen).
        { intros Hin. apply mem_In in Hin. congruence. }
        destruct (m <=? Z.of_nat (S n))%Z eqn:Hstop.
        -- cbn [map List.length]. repeat split.
           ++ constructor; [| constructor]. split; [exact Hlong |]. exists q. split; [now left | reflexivity].
           ++ constructor; [intros [] | constructor].
           ++ intros k [<- | []]. exact Hfresh.
           ++ lia.
        -- apply Z.leb_gt in Hstop.
           destruct (IH (lower (strip q) :: seen) (S n)) as (Hall & Hnodup & Hseen & Hlen).
           cbn [map List.length]. repeat split.
           ++ constructor.
              ** split; [exact Hlong |]. exists q. split; [now left | reflexivity].
              ** eapply Forall_impl; [| exact Hall]. cbn beta.
                 intros v (Hv & q' & Hq' & Heq). split; [exact Hv |]. exists q'.
                 split; [now right | exact Heq].
           ++ constructor; [| exact Hnodup]. intros Hin. apply (Hseen _ Hin). now left.
           ++ intros k [<- | Hin]; [exact Hfresh |]. intros Hk. apply (Hseen _ Hin). now right.
           ++ lia.
      * destruct (IH seen n) as (Hall & Hnodup & Hseen & Hlen).
        repeat split; auto.
        eapply Forall_impl; [| exact Hall]. cbn beta.
        intros v (Hv & q' & Hq' & Heq). split; [exact Hv |]. exists q'.
        split; [now right | exact Heq].
    + destruct (IH seen n) as (Hall & Hnodup & Hseen & Hlen).
      repeat split; auto.
      eapply Forall_impl; [| exact Hall]. cbn beta.
      intros v (Hv & q' & Hq' & Heq). split; [exact Hv |]. exists q'.
      split; [now right | exact Heq].
Qed.

(** Whatever branch ran, the variants of a hybrid result are what the
    last loop makes of the candidates under the budget of the call. *)
Lemma hybrid_result_shape query context self r self' :
  _hybrid_rewrite query context self = (Ok r, self') ->
  exists all_queries,
    RewriteResult.rewritten r = unique_upto (max_queries self) [] 0 all_queries
    /\ RewriteResult.original r = query
    /\ RewriteResult.strategy r = "hybrid"
    /\ RewriteResult.metadata r <> None
    /\ RewriteResult.error r = None.
Proof.
  unfold _hybrid_rewrite. intros H.
  match type of H with
  | bind ?m _ _ = _ => assert (Hstable : stable m) by stable_tac
  end.
  apply bind_ok_inv in H. destruct H as (branch & s1 & Hbranch & H).
  apply Hstable in Hbranch. destruct Hbranch as (_ & Hmax & _).
  apply bind_ok_inv in H. destruct H as (s & s2 & Hget & H).
  inversion Hget; subst s s2. inversion H; subst. cbn.
  exists (fst branch). rewrite Hmax. repeat split; discriminate.
Qed.

(** X6. When the hybrid strategy returns, every variant has more than
    ten characters, no two variants are equal up to case, each is a
    candidate stripped of white space at both ends, and there are at most
    [max(1, max_queries)] of them: the last loop stops after the append that
    reaches the budget, so one variant gets through even when the budget is
    zero or negative. *)
Theorem hybrid_variants_are_clean query context self r self' :
  _hybrid_rewrite query context self = (Ok r, self') ->
  Forall (fun v => 10 < len v) (RewriteResult.rewritten r)
  /\ NoDup (map lower (RewriteResult.rewritten r))
  /\ (Z.of_nat (List.length (RewriteResult.rewritten r)) <= Z.max 1 (max_queries self))%Z
  /\ RewriteResult.original r = query
  /\ RewriteResult.error r = None.
Proof.
  intros Hrun. apply hybrid_result_shape in Hrun.
  destruct Hrun as (all_queries & Hvariants & Horig & _ & _ & Herr).
  destruct (unique_upto_spec (max_queries self) all_queries [] 0)
    as (Hall & Hnodup & _ & Hlen).
  rewrite Hvariants. repeat split; auto.
  - eapply Forall_impl; [| exact Hall]. cbn beta. tauto.
  - cbn in Hlen. lia.
Qed.

End HybridVariants.

Lemma hybrid_variants_are_clean_witness :
  exists r self',
    QueryRewriter._hybrid_rewrite (E := Demo.online []) "que cubre el plan de salud familiar"
      None (QueryRewriter.create_rewriter QueryRewriter.HYBRID 0) = (Ok r, self')
    /\ (Z.of_nat (List.length (RewriteResult.rewritten r)) <= 1)%Z
    /\ NoDup (map Py.lower (RewriteResult.rewritten r)).
Proof.
  assert (Hrun : exists r self',
             QueryRewriter._hybrid_rewrite (E := Demo.online [])
               "que cubre el plan de salud familiar" None
               (QueryRewriter.create_rewriter QueryRewriter.HYBRID 0) = (Ok r, self'))
    by (eexists; eexists; vm_compute; reflexivity).
  destruct Hrun as (r & self' & Hrun). exists r, self'. split; [exact Hrun |].
  destruct (hybrid_variants_are_clean (E := Demo.online []) _ _ _ _ _ Hrun)
    as (_ & Hnodup & Hlen & _).
  split; [exact Hlen | exact Hnodup].
Defined.

(** ** The exceptions of [rewrite] *)

Section RewriteExceptions.
Import Py QueryRewriter Spec.
Context {E : Env}.

(** [_decompose_query] never raises; its result carries metadata exactly
    when the service answered. *)
Lemma decompose_run query context self :
  exists r,
    _decompose_query query context self = (Ok r, after_request self)
    /\ ((exists msg,
            chat_completions_create (client self) (decomposition_request self query)
            = Failed msg
            /\ RewriteResult.metadata r = None
            /\ RewriteResult.rewritten r = [query])
        \/ RewriteResult.metadata r <> None).
Proof.
  unfold _decompose_query, bind, get_self, complete, ret, decomposition_request.
  cbv beta iota zeta.
  destruct (chat_completions_create (client self) _) as [content | msg].
  - eexists. split; [reflexivity |]. right. cbn. discriminate.
  - eexists. split; [reflexivity |]. left. exists msg. cbn. auto.
Qed.

Lemma hybrid_raises query context self e self' :
  _hybrid_rewrite query context self = (Raise e, self') ->
  e = KeyError "metadata"
  /\ _determine_query_complexity query = "complex"
  /\ exists msg,
      chat_completions_create (client self) (decomposition_request self query) = Failed msg.
Proof.
  destruct (String.eqb_spec (_determine_query_complexity query) "simple") as [Hsimple | Hns].
  { intros H. destruct (hybrid_simple_run query context self Hsimple) as (a & s & Hrun & _).
    rewrite Hrun in H. discriminate H. }
  unfold _hybrid_rewrite.
  destruct (String.eqb (_determine_query_complexity query) "simple") eqn:Hs.
  { apply String.eqb_eq in Hs. contradiction. }
  destruct (String.eqb_spec (_determine_query_complexity query) "complex") as [Hcomplex | Hnc].
  - destruct (decompose_run query context self) as (r0 & Hdec & Hmeta).
    rewrite bind_assoc, (bind_ok _ _ _ _ _ Hdec), bind_assoc.
    unfold item_metadata.
    destruct (RewriteResult.metadata r0) as [m |] eqn:Hm.
    + rewrite (bind_ok (ret m) _ _ m _ eq_refl).
      destruct (get_truthy "was_decomposed" m).
      * rewrite (bind_ok (ret _) _ _ _ _ eq_refl), (bind_ok get_self _ _ _ _ eq_refl).
        discriminate.
      * destruct (refine_run query context (after_request self)) as (x & rr & Href & Hone).
        rewrite bind_assoc, (bind_ok _ _ _ _ _ Href), Hone, bind_assoc.
        unfold item0. rewrite (bind_ok (ret x) _ _ x _ eq_refl).
        rewrite bind_assoc, (bind_ok get_self _ _ _ _ eq_refl).
        match goal with
        | |- context [expand_with_max ?m ?q ?c] =>
            destruct (expand_with_max_total m q c (after_request (after_request self)))
              as (rest & r1 & Hexp & _)
        end.
        rewrite bind_assoc, (bind_ok _ _ _ _ _ Hexp).
        rewrite (bind_ok (ret _) _ _ _ _ eq_refl), (bind_ok get_self _ _ _ _ eq_refl).
        discriminate.
    + rewrite (bind_raise (raise (KeyError "metadata")) _ _ _ _ eq_refl).
      intros H. inversion H; subst. split; [reflexivity |]. split; [exact Hcomplex |].
      destruct Hmeta as [(msg & Hfail & _) | Hsome]; [now exists msg | contradiction].
  - destruct (refine_run query context self) as (x & rr & Href & Hone).
    rewrite bind_assoc, (bind_ok _ _ _ _ _ Href), Hone, bind_assoc.
    unfold item0. rewrite (bind_ok (ret x) _ _ x _ eq_refl).
    rewrite bind_assoc, (bind_ok get_self _ _ _ _ eq_refl).
    destruct (negb (String.eqb x query) && gt_70_percent (len x) (len query)).
    + match goal with
      | |- context [expand_with_max ?m ?q ?c] =>
          destruct (expand_with_max_total m q c (after_request self))
            as (rest & r1 & Hexp & _)
      end.
      rewrite bind_assoc, (bind_ok _ _ _ _ _ Hexp).
      rewrite (bind_ok (ret _) _ _ _ _ eq_refl), (bind_ok get_self _ _ _ _ eq_refl).
      discriminate.
    + match goal with
      | |- context [expand_with_max ?m ?q ?c] =>
          destruct (expand_with_max_total m q c (after_request self))
            as (rest & r1 & Hexp & _)
      end.
      rewrite bind_assoc, (bind_ok _ _ _ _ _ Hexp).
      rewrite (bind_ok (ret _) _ _ _ _ eq_refl), (bind_ok get_self _ _ _ _ eq_refl).
      discriminate.
Qed.

(** A result without metadata is an error result, which holds the
    original query alone. *)
Lemma no_metadata_one_variant query context self r self' :
  apply_strategy query context self = (Ok r, self') ->
  RewriteResult.metadata r = None ->
  List.length (RewriteResult.rewritten r) = 1.
Proof.
  unfold apply_strategy. rewrite (bind_ok get_self _ _ _ _ eq_refl).
  destruct (strategy self); intros Hrun Hnone.
  - revert Hrun Hnone. unfold _expand_query, bind, get_self, complete, ret.
    cbv beta iota zeta.
    destruct (chat_completions_create _ _); intros H; inversion H; subst; cbn;
      [discriminate | reflexivity].
  - destruct (decompose_run query context self) as (r0 & Hdec & Hmeta).
    rewrite Hdec in Hrun. inversion Hrun; subst.
    destruct Hmeta as [(msg & _ & _ & Hone) | Hsome]; [now rewrite Hone | contradiction].
  - destruct (refine_run query context self) as (x & rr & Href & Hone).
    rewrite Href in Hrun. inversion Hrun; subst. now rewrite Hone.
  - apply hybrid_result_shape in Hrun. destruct Hrun as (_ & _ & _ & _ & Hsome & _).
    contradiction.
Qed.

Lemma rewrite_raise_cases query context self e self' :
  rewrite query context self = (Raise e, self') ->
  e = IndexError
  \/ (e = KeyError "metadata"
      /\ strategy self = HYBRID
      /\ _determine_query_complexity query = "complex"
      /\ exists msg,
          chat_completions_create (client self)
            (decomposition_request (with_max (_adjust_max_queries self query) self) query)
          = Failed msg).
Proof.
  intros Hrun.
  destruct (get (_get_cache_key self query context) (_query_cache self)) as [cached |] eqn:Hget.
  { rewrite (rewrite_hit _ _ _ _ Hget) in Hrun. discriminate Hrun. }
  rewrite (rewrite_miss _ _ _ Hget) in Hrun.
  set (s0 := with_max (_adjust_max_queries self query) self) in *.
  destruct (apply_strategy query context s0) as [[r0 | e0] sb] eqn:Hs.
  - destruct (apply_deduplication r0 sb) as [[r | e1] sc] eqn:Hd; [discriminate Hrun |].
    inversion Hrun; subst e1. left.
    destruct (RewriteResult.metadata r0) as [m |] eqn:Hm.
    + apply apply_deduplication_outcome in Hd. apply Hd. rewrite Hm. discriminate.
    + exfalso. pose proof (no_metadata_one_variant _ _ _ _ _ Hs Hm) as Hone.
      revert Hd. unfold apply_deduplication. rewrite Hone.
      change (1 <? 1) with false. cbv iota. discriminate.
  - inversion Hrun; subst e0. right.
    revert Hs. unfold apply_strategy. rewrite (bind_ok get_self _ _ _ _ eq_refl).
    change (strategy s0) with (strategy self).
    destruct (strategy self) eqn:Hstrategy; intros Hs.
    + destruct (expand_run query context s0) as (rest & r & Hexp & _).
      rewrite Hexp in Hs. discriminate Hs.
    + destruct (decompose_run query context s0) as (r & Hdec & _).
      rewrite Hdec in Hs. discriminate Hs.
    + destruct (refine_run query context s0) as (x & r & Href & _).
      rewrite Href in Hs. discriminate Hs.
    + apply hybrid_raises in Hs. destruct Hs as (He & Hcomplex & msg & Hfail).
      split; [exact He |]. split; [reflexivity |]. split; [exact Hcomplex |].
      now exists msg.
Qed.

(** X7. [rewrite] raises two exceptions and no other: [IndexError], out of
    the deduplication, and [KeyError] for the key [metadata], which it
    raises only under the hybrid strategy, for a query classified as
    complex, when the decomposition request sent under the adapted budget
    failed. Under the three base strategies a failed completion never
    raises. *)
Theorem rewrite_raises_only query context self e self' :
  rewrite query context self = (Raise e, self') ->
  e = IndexError
  \/ (e = KeyError "metadata"
      /\ strategy self = HYBRID
      /\ _determine_query_complexity query = "complex"
      /\ exists msg,
          chat_completions_create (client self)
            (decomposition_request (with_max (_adjust_max_queries self query) self) query)
          = Failed msg).
Proof. exact (rewrite_raise_cases query context self e self'). Qed.

End RewriteExceptions.

Lemma rewrite_raises_only_witness :
  exists e self',
    QueryRewriter.rewrite (E := Demo.offline) "compare plan A versus plan B now" None
      (QueryRewriter.create_rewriter QueryRewriter.HYBRID 3) = (Raise e, self')
    /\ (e = IndexError \/ e = KeyError "metadata").
Proof.
  assert (Hrun : exists e self',
             QueryRewriter.rewrite (E := Demo.offline) "compare plan A versus plan B now" None
               (QueryRewriter.create_rewriter QueryRewriter.HYBRID 3) = (Raise e, self'))
    by (eexists; eexists; vm_compute; reflexivity).
  destruct Hrun as (e & self' & Hrun). exists e, self'. split; [exact Hrun |].
  destruct (rewrite_raises_only (E := Demo.offline) _ _ _ _ _ Hrun) as [H | (H & _)];
    [now left | now right].
Defined.

(** ** What the deduplication never does *)

Section DeduplicationKeeps.
Import Py QueryRewriter Spec.
Context {E : Env}.

Lemma subseq_trans {A} (l1 l2 l3 : list A) : subseq l1 l2 -> subseq l2 l3 -> subseq l1 l3.
Proof.
  intros H12 H23. revert l1 H12.
  induction H23 as [| x l2 l3 H IH | x l2 l3 H IH]; intros l1 H12.
  - exact H12.
  - constructor. now apply IH.
  - inversion H12; subst.
    + apply subseq_skip. now apply IH.
    + apply subseq_keep. now apply IH.
Qed.

Lemma subseq_map {A C} (f : A -> C) (l1 l2 : list A) :
  subseq l1 l2 -> subseq (map f l1) (map f l2).
Proof. induction 1; cbn; constructor; assumption. Qed.

Lemma subseq_NoDup {A} (l1 l2 : list A) : subseq l1 l2 -> NoDup l2 -> NoDup l1.
Proof.
  induction 1 as [| x l1 l2 H IH | x l1 l2 H IH]; intros Hnodup.
  - constructor.
  - apply IH. now apply NoDup_cons_iff in Hnodup.
  - apply NoDup_cons_iff in Hnodup. destruct Hnodup as (Hx & Hl). constructor.
    + intros Hin. apply Hx. eapply subseq_In; eassumption.
    + now apply IH.
Qed.

Lemma mark_from_sound unique_queries pairs : forall to_remove marks,
  mark_from unique_queries to_remove pairs = Ok marks ->
  forall k, In k marks ->
    In k to_remove
    \/ exists i j s qi qj,
         In (i, j, s) pairs
         /\ nth_error unique_queries i = Some qi
         /\ nth_error unique_queries j = Some qj
         /\ ((len qj < len qi /\ k = i) \/ (len qi <= len qj /\ k = j)).
Proof.
  induction pairs as [| [[i j] s] pairs IH]; intros to_remove marks; cbn [mark_from].
  - intros H k Hk. inversion H; subst. now left.
  - destruct (nth_error unique_queries i) as [qi |] eqn:Hqi; [| discriminate].
    destruct (nth_error unique_queries j) as [qj |] eqn:Hqj; [| discriminate].
    destruct (len qj <? len qi) eqn:Hlen; intros H k Hk;
      destruct (IH _ _ H k Hk) as [[Heq | Hin] | (i' & j' & s' & qi' & qj' & Hin & Hrest)].
    + right. exists i, j, s, qi, qj. apply Nat.ltb_lt in Hlen.
      repeat split; auto. now left.
    + now left.
    + right. exists i', j', s', qi', qj'. split; [now right | exact Hrest].
    + right. exists i, j, s, qi, qj. apply Nat.ltb_ge in Hlen.
      repeat split; auto. now left.
    + now left.
    + right. exists i', j', s', qi', qj'. split; [now right | exact Hrest].
Qed.

(** A list that is not empty has a first shortest element. *)
Lemma first_shortest (l : list string) :
  l <> [] ->
  exists m q,
    nth_error l m = Some q
    /\ forall i qi, nth_error l i = Some qi ->
                    len q < len qi \/ (len q = len qi /\ m <= i).
Proof.
  induction l as [| q l IH]; intros Hne; [contradiction |].
  destruct l as [| q1 l1].
  - exists 0, q. split; [reflexivity |]. intros [| i] qi Hi; cbn in Hi.
    + inversion Hi; subst. right. split; [reflexivity | lia].
    + destruct i; discriminate.
  - destruct IH as (m & q' & Hm & Hmin); [discriminate |].
    destruct (le_lt_dec (len q) (len q')) as [Hle | Hlt].
    + exists 0, q. split; [reflexivity |]. intros [| i] qi Hi.
      * cbn in Hi. inversion Hi; subst. right. split; [reflexivity | lia].
      * cbn [nth_error] in Hi. destruct (Hmin i qi Hi) as [H | (H & _)]; lia.
    + exists (S m), q'. split; [exact Hm |]. intros [| i] qi Hi.
      * cbn in Hi. inversion Hi; subst. now left.
      * cbn [nth_error] in Hi. destruct (Hmin i qi Hi) as [H | (H & Hmi)]; [now left |].
        right. split; [exact H | lia].
Qed.

(** The first of the shortest survivors of the first stage is in no pair
    as the member to drop, so the second stage never drops everything. *)
Lemma deduplicate_subseq_nonempty queries self out self' :
  _deduplicate_queries queries self = (Ok out, self') ->
  subseq out queries
  /\ (1 < List.length queries -> NoDup (map exact_key out))
  /\ (queries <> [] -> out <> []).
Proof.
  unfold _deduplicate_queries.
  destruct (List.length queries <=? 1) eqn:Hshort.
  { intros H. inversion H; subst. apply Nat.leb_le in Hshort.
    split; [apply subseq_refl |]. split; [lia | auto]. }
  pose proof (unique_from_subseq [] queries) as Hsub.
  pose proof (unique_from_NoDup [] queries) as Hnodup.
  set (unique_queries := unique_from [] queries) in *.
  destruct (List.length unique_queries <=? 1) eqn:Hone.
  { intros H. inversion H; subst. split; [exact Hsub |]. split; [auto |].
    intros Hne Hempty. apply Hne.
    destruct queries as [| q l]; [reflexivity |].
    unfold unique_queries in Hempty. cbn in Hempty. discriminate Hempty. }
  apply Nat.leb_gt in Hone.
  destruct (similarity_never_raises unique_queries self) as (pairs & s1 & Hsim).
  rewrite (bind_ok _ _ _ _ _ Hsim).
  destruct pairs as [| p rest] eqn:Hpairs.
  { intros H. inversion H; subst. split; [exact Hsub |]. split; [auto |].
    intros _ Hempty. rewrite Hempty in Hone. cbn in Hone. lia. }
  rewrite <- Hpairs in *. clear Hpairs p rest.
  destruct (mark_from unique_queries [] pairs) as [marks | e] eqn:Hmark;
    [| discriminate].
  intros H. inversion H; subst out self'. clear H.
  pose proof (keep_from_subseq marks 0 unique_queries) as Hkeep.
  split; [eapply subseq_trans; eassumption |]. split.
  - intros _. eapply subseq_NoDup; [apply subseq_map; exact Hkeep | exact Hnodup].
  - intros _ Hempty.
    destruct (first_shortest unique_queries) as (m & q & Hm & Hmin).
    { intros Hnil. rewrite Hnil in Hone. cbn in Hone. lia. }
    assert (Hin : In q (keep_from marks 0 unique_queries)).
    { apply in_keep_from. exists m. split; [exact Hm |]. cbn [Nat.add]. intros Hmarked.
      destruct (mark_from_sound _ _ _ _ Hmark m Hmarked)
        as [[] | (i & j & s & qi & qj & Hpair & Hqi & Hqj & Hcase)].
      assert (Hlt : i < j).
      { revert Hsim Hpair. unfold _calculate_semantic_similarity.
        destruct (List.length unique_queries <=? 1); [intros H; inversion H; subst; intros [] |].
        unfold bind, embed. destruct (embeddings_create _ _) as [embeddings | msg];
          intros H; inversion H; subst; [| intros []].
        intros Hp. now apply in_similar_pairs in Hp. }
      destruct Hcase as [(Hlen & Hk) | (Hlen & Hk)]; subst m.
      - assert (q = qi) by congruence. subst qi.
        destruct (Hmin j qj Hqj) as [H | (H & _)]; lia.
      - assert (q = qj) by congruence. subst qj.
        destruct (Hmin i qi Hqi) as [H | (H & Hle)]; lia. }
    rewrite Hempty in Hin. exact Hin.
Qed.

(** X8. When [_deduplicate_queries] returns, what it returns is its input
    with some variants left out and the others in their order; for an
    input of two or more variants no two of them are equal up to case and
    surrounding white space; and it is never empty for an input that is
    not. *)
Theorem deduplicate_keeps_a_variant queries self out self' :
  _deduplicate_queries queries self = (Ok out, self') ->
  subseq out queries
  /\ (1 < List.length queries -> NoDup (map exact_key out))
  /\ (queries <> [] -> out <> []).
Proof. apply deduplicate_subseq_nonempty. Qed.

End DeduplicationKeeps.

Lemma deduplicate_keeps_a_variant_witness :
  exists out self',
    QueryRewriter._deduplicate_queries (E := Demo.online Demo.three_vectors)
      Demo.three_variants (QueryRewriter.__init__ QueryRewriter.HYBRID) = (Ok out, self')
    /\ Spec.subseq out Demo.three_variants
    /\ out <> [].
Proof.
  assert (Hrun : exists out self',
             QueryRewriter._deduplicate_queries (E := Demo.online Demo.three_vectors)
               Demo.three_variants (QueryRewriter.__init__ QueryRewriter.HYBRID)
             = (Ok out, self'))
    by (eexists; eexists; vm_compute; reflexivity).
  destruct Hrun as (out & self' & Hrun). exists out, self'. split; [exact Hrun |].
  destruct (deduplicate_keeps_a_variant (E := Demo.online Demo.three_vectors) _ _ _ _ Hrun)
    as (Hsub & _ & Hne).
  split; [exact Hsub | apply Hne; discriminate].
Defined.

(** ** Fresh results of the base strategies *)

Section BaseResults.
Import Py QueryRewriter Spec.
Context {E : Env}.

Lemma decompose_nonempty query context self r self' :
  _decompose_query query context self = (Ok r, self') ->
  RewriteResult.rewritten r <> [] /\ RewriteResult.original r = query.
Proof.
  unfold _decompose_query, bind, get_self, complete, ret. cbv beta iota zeta.
  destruct (chat_completions_create (client self) _) as [content | msg];
    intros H; inversion H; subst;
    cbn [RewriteResult.rewritten RewriteResult.original]; [| split; [discriminate | reflexivity]].
  split; [| reflexivity].
  destruct (1 <? List.length _) eqn:Hmany; [| discriminate].
  apply Nat.ltb_lt in Hmany. intros Hnil. rewrite Hnil in Hmany. cbn in Hmany. lia.
Qed.

Lemma apply_deduplication_nonempty r0 self r self' :
  apply_deduplication r0 self = (Ok r, self') ->
  RewriteResult.rewritten r0 <> [] -> RewriteResult.rewritten r <> [].
Proof.
  unfold apply_deduplication.
  destruct (1 <? List.length (RewriteResult.rewritten r0));
    [| intros H; inversion H; subst; auto].
  intros H Hne. apply bind_ok_inv in H. destruct H as (l & s1 & Hd & H).
  apply deduplicate_subseq_nonempty in Hd. destruct Hd as (_ & _ & Hl).
  specialize (Hl Hne). revert H.
  cbn [RewriteResult.with_rewritten RewriteResult.rewritten].
  destruct (List.length l <? List.length (RewriteResult.rewritten r0)).
  - unfold bind, item_metadata. cbn [RewriteResult.metadata RewriteResult.with_rewritten].
    destruct (RewriteResult.metadata r0); intros H; inversion H; subst. exact Hl.
  - intros H; inversion H; subst. exact Hl.
Qed.

(** X9. Under the expansion, decomposition and refinement strategies a
    call of [rewrite] that is not answered from the cache and returns,
    returns a result for the query it was given whose list of variants is
    not empty. *)
Theorem base_strategy_variants_nonempty self query context r self' :
  strategy self <> HYBRID ->
  get (_get_cache_key self query context) (_query_cache self) = None ->
  rewrite query context self = (Ok r, self') ->
  RewriteResult.rewritten r <> [] /\ RewriteResult.original r = query.
Proof.
  intros Hbase Hmiss Hrun. rewrite (rewrite_miss _ _ _ Hmiss) in Hrun.
  set (s0 := with_max (_adjust_max_queries self query) self) in *.
  destruct (apply_strategy query context s0) as [[r0 | e0] sb] eqn:Hs; [| discriminate Hrun].
  destruct (apply_deduplication r0 sb) as [[r1 | e1] sc] eqn:Hd; [| discriminate Hrun].
  inversion Hrun; subst r1 self'. clear Hrun.
  assert (H0 : RewriteResult.rewritten r0 <> [] /\ RewriteResult.original r0 = query).
  { revert Hs. unfold apply_strategy. rewrite (bind_ok get_self _ _ _ _ eq_refl).
    change (strategy s0) with (strategy self).
    destruct (strategy self); [| | | contradiction]; intros Hs.
    - destruct (expand_run query context s0) as (rest & r1 & Hexp & Hrw).
      rewrite Hexp in Hs. inversion Hs; subst r1. rewrite Hrw. split; [discriminate |].
      revert Hexp. unfold _expand_query, bind, get_self, complete, ret. cbv beta iota zeta.
      destruct (chat_completions_create _ _); intros H; inversion H; reflexivity.
    - now apply decompose_nonempty in Hs.
    - destruct (refine_run query context s0) as (x & r1 & Href & Hone).
      rewrite Href in Hs. inversion Hs; subst r1. rewrite Hone. split; [discriminate |].
      revert Href. unfold _refine_query, bind, complete, ret. cbv beta iota zeta.
      destruct (chat_completions_create _ _); intros H; inversion H; reflexivity. }
  destruct H0 as (Hne & Horig). split.
  - eapply apply_deduplication_nonempty; eassumption.
  - apply apply_deduplication_outcome in Hd. destruct Hd as (Ho & _). now rewrite Ho.
Qed.

End BaseResults.

Lemma base_strategy_variants_nonempty_witness :
  exists r self',
    QueryRewriter.rewrite (E := Demo.online []) "Hola" None
      (QueryRewriter.create_rewriter QueryRewriter.REFINEMENT 3) = (Ok r, self')
    /\ RewriteResult.rewritten r <> []
    /\ RewriteResult.original r = "Hola".
Proof.
  assert (Hrun : exists r self',
             QueryRewriter.rewrite (E := Demo.online []) "Hola" None
               (QueryRewriter.create_rewriter QueryRewriter.REFINEMENT 3) = (Ok r, self'))
    by (eexists; eexists; vm_compute; reflexivity).
  destruct Hrun as (r & self' & Hrun). exists r, self'. split; [exact Hrun |].
  apply (base_strategy_variants_nonempty (E := Demo.online [])
           (QueryRewriter.create_rewriter QueryRewriter.REFINEMENT 3) "Hola" None r self').
  - discriminate.
  - reflexivity.
  - exact Hrun.
Defined.

(** ** Contexts and batches *)

Section ContextsAndBatches.
Import Py QueryRewriter Spec.
Context {E : Env}.

(** X10. A call with an empty context dictionary is the call with no
    context: the two have one cache key, send the same requests and return
    the same result, so either one is answered from the entry the other
    stored. *)
Theorem empty_context_is_no_context query self :
  _get_cache_key self query (Some []) = _get_cache_key self query None
  /\ rewrite query (Some []) self = rewrite query None self
  /\ forall r self1,
      rewrite query None self = (Ok r, self1) ->
      rewrite query (Some []) self1 = (Ok r, self1).
Proof.
  assert (Hsame : rewrite query (Some []) self = rewrite query None self) by reflexivity.
  split; [reflexivity |]. split; [exact Hsame |].
  intros r self1 Hrun.
  change (rewrite query (Some []) self1) with (rewrite query None self1).
  destruct (rewrite_keeps_key _ _ _ _ _ Hrun) as (Hs & Hm).
  apply rewrite_hit. rewrite (key_of_same_fields self self1 query None Hs Hm).
  exact (rewrite_caches _ _ _ _ _ Hrun).
Qed.

(** X11. A batch over the queries [l1] followed by [l2] is the batch over
    [l1] followed, on the rewriter it leaves, by the batch over [l2]: the
    results come in the order of the queries, the second part sees the
    cache the first part filled, and an exception in the first part stops
    the batch before the second part sends anything. *)
Theorem batch_rewrite_app l1 l2 context self :
  batch_rewrite (l1 ++ l2) context self
  = match batch_rewrite l1 context self with
    | (Ok results1, self1) =>
        match batch_rewrite l2 context self1 with
        | (Ok results2, self2) => (Ok (results1 ++ results2), self2)
        | (Raise e, self2) => (Raise e, self2)
        end
    | (Raise e, self1) => (Raise e, self1)
    end.
Proof.
  revert self. induction l1 as [| query l1 IH]; intros self; cbn [app batch_rewrite].
  - unfold ret. destruct (batch_rewrite l2 context self) as [[results2 | e] self2]; reflexivity.
  - unfold bind, ret.
    destruct (rewrite query context self) as [[r | e] s1]; [| reflexivity].
    rewrite IH.
    destruct (batch_rewrite l1 context s1) as [[results1 | e] s2]; [| reflexivity].
    cbv beta iota.
    destruct (batch_rewrite l2 context s2) as [[results2 | e] s3]; reflexivity.
Qed.

(** X12. A query that stands twice in a row in a batch is computed once:
    when [rewrite] returns a result for it, the batch of the query twice
    returns that result twice and leaves the rewriter as the single call
    leaves it, no further request sent. *)
Theorem batch_rewrite_repeated query context self r self1 :
  rewrite query context self = (Ok r, self1) ->
  batch_rewrite [query; query] context self = (Ok [r; r], self1).
Proof.
  intros Hrun. cbn [batch_rewrite].
  rewrite (bind_ok _ _ _ _ _ Hrun).
  destruct (rewrite_keeps_key _ _ _ _ _ Hrun) as (Hs & Hm).
  assert (Hagain : rewrite query context self1 = (Ok r, self1)).
  { apply rewrite_hit. rewrite (key_of_same_fields self self1 query context Hs Hm).
    exact (rewrite_caches _ _ _ _ _ Hrun). }
  rewrite (bind_ok _ _ _ _ _ (bind_ok _ _ _ _ _ Hagain)). reflexivity.
Qed.

End ContextsAndBatches.

Lemma batch_rewrite_repeated_witness :
  exists r self1,
    QueryRewriter.batch_rewrite (E := Demo.online []) ["What is AI?"; "What is AI?"] None
      (QueryRewriter.create_rewriter QueryRewriter.HYBRID 3) = (Ok [r; r], self1)
    /\ QueryRewriter.client self1 = 2.
Proof.
  assert (Hrun : exists r self1,
             QueryRewriter.rewrite (E := Demo.online []) "What is AI?" None
               (QueryRewriter.create_rewriter QueryRewriter.HYBRID 3) = (Ok r, self1)
             /\ QueryRewriter.client self1 = 2)
    by (eexists; eexists; split; vm_compute; reflexivity).
  destruct Hrun as (r & self1 & Hrun & Hclient). exists r, self1.
  split; [| exact Hclient].
  exact (batch_rewrite_repeated (E := Demo.online []) _ _ _ _ _ Hrun).
Defined.

(** ** More on the fusion *)

Section FusionOrder.
Import Py VectorStore FusionSpec RankSpec.
Context {B : Backend}.

Hypothesis lt_asym : forall a b : Score, lt a b = true -> lt b a = false.
Hypothesis lt_negtrans :
  forall a b c : Score, lt a b = false -> lt b c = false -> lt a c = false.

Lemma collect_all l : forall all seen,
  fst (collect false l (all, seen)) = all ++ l.
Proof.
  induction l as [| r l IH]; intros all seen; cbn [collect].
  - now rewrite app_nil_r.
  - rewrite IH, <- app_assoc. reflexivity.
Qed.




(** X13. Without deduplication the fusion loses and adds nothing: when
    every search returns, it returns all the hits of all the variants,
    each as often as it was found, in descending order of score. *)
Theorem search_multiple_keeps_all queries top_k self lists self' :
  search_each queries top_k self = (Ok lists, self') ->
  exists out,
    search_multiple queries top_k false self = (Ok out, self')
    /\ Permutation out (List.concat lists)
    /\ StronglySorted not_below out.
Proof.
  intros Heach. rewrite search_multiple_run, Heach, collect_all. cbn [app].
  eexists. split; [reflexivity |].
  destruct (sort_desc_spec lt_asym lt_negtrans (List.concat lists)) as (Hsorted & Hperm).
  split; assumption.
Qed.


End FusionOrder.

Lemma search_multiple_keeps_all_witness :
  exists out,
    VectorStore.search_multiple (B := Demo.backend) ["plan"; "otro"] None false
      (VectorStore.mkSelf (Some 0)) = (Ok out, VectorStore.mkSelf (Some 2))
    /\ Permutation out
         [VectorStore.mkResult (B := Demo.backend) "doc plan" "a.pdf" 3%Z;
          VectorStore.mkResult (B := Demo.backend) "doc comun" "c.pdf" 9%Z;
          VectorStore.mkResult (B := Demo.backend) "doc comun" "c.pdf" 1%Z;
          VectorStore.mkResult (B := Demo.backend) "doc otro" "b.pdf" 5%Z]
    /\ StronglySorted FusionSpec.not_below out.
Proof.
  apply (search_multiple_keeps_all (B := Demo.backend)) with
    (lists := [[VectorStore.mkResult (B := Demo.backend) "doc plan" "a.pdf" 3%Z;
                VectorStore.mkResult (B := Demo.backend) "doc comun" "c.pdf" 9%Z];
               [VectorStore.mkResult (B := Demo.backend) "doc comun" "c.pdf" 1%Z;
                VectorStore.mkResult (B := Demo.backend) "doc otro" "b.pdf" 5%Z]]).
  - intros a b Hlt. apply Z.ltb_lt in Hlt. apply Z.ltb_ge. cbn in *. lia.
  - intros a b c Hab Hbc. apply Z.ltb_ge in Hab, Hbc. apply Z.ltb_ge. cbn in *. lia.
  - reflexivity.
Defined.


Section FusionRequests.
Import Py VectorStore FusionSpec.
Context {B : Backend}.

Lemma search_each_requests top_k queries : forall served lists self',
  search_each queries top_k (mkSelf (Some served)) = (Ok lists, self') ->
  self' = mkSelf (Some (served + List.length queries))
  /\ List.length lists = List.length queries
  /\ forall i q,
      nth_error queries i = Some q ->
      exists hits,
        similarity_search_with_score (served + i) q (or_default top_k) None = Returned hits
        /\ nth_error lists i = Some (map format hits).
Proof.
  induction queries as [| query rest IH]; intros served lists self'; cbn [search_each].
  - intros H. inversion H; subst. rewrite Nat.add_0_r. split; [reflexivity |].
    split; [reflexivity |]. intros [| i] q Hq; discriminate Hq.
  - unfold bind at 1. unfold search at 1. cbn [vector_store].
    destruct (similarity_search_with_score served query (or_default top_k) None)
      as [hits | msg] eqn:Hreply; [| discriminate].
    cbv beta iota. unfold bind at 1.
    destruct (search_each rest top_k (mkSelf (Some (S served)))) as [[others | e] s1] eqn:Hrest;
      [| discriminate].
    intros H. inversion H; subst lists self'. clear H.
    destruct (IH _ _ _ Hrest) as (Hs1 & Hlen & Heach).
    split; [rewrite Hs1; cbn [List.length]; now rewrite Nat.add_succ_r |].
    split; [cbn [List.length]; now rewrite Hlen |].
    intros [| i] q Hq; cbn [nth_error] in *.
    + inversion Hq; subst q. exists hits. rewrite Nat.add_0_r. auto.
    + destruct (Heach i q Hq) as (h & Hh & Hnth). exists h.
      rewrite Nat.add_succ_r. auto.
Qed.

(** X15. A fusion that returns on a loaded store has sent exactly one
    search per variant, in the order of the variants, each for the same
    number of hits (the default when [top_k] is absent or zero) and with no
    metadata filter; every one of these searches returned. *)
Theorem search_multiple_one_search_per_variant queries top_k deduplicate served out self' :
  search_multiple queries top_k deduplicate (mkSelf (Some served)) = (Ok out, self') ->
  self' = mkSelf (Some (served + List.length queries))
  /\ forall i q,
      nth_error queries i = Some q ->
      exists hits,
        similarity_search_with_score (served + i) q (or_default top_k) None = Returned hits
        /\ (deduplicate = false -> forall h, In h hits -> In (format h) out).
Proof.
  intros Hrun. rewrite search_multiple_run in Hrun.
  destruct (search_each queries top_k (mkSelf (Some served))) as [[lists | e] s1] eqn:Heach;
    [| discriminate].
  inversion Hrun; subst out self'. clear Hrun.
  destruct (search_each_requests _ _ _ _ _ Heach) as (Hs1 & _ & Hsent).
  split; [exact Hs1 |]. intros i q Hq.
  destruct (Hsent i q Hq) as (hits & Hreply & Hnth). exists hits.
  split; [exact Hreply |]. intros -> h Hh.
  assert (Hperm : Permutation (sort_desc (List.concat lists)) (List.concat lists)).
  { clear. unfold sort_desc.
    assert (Hgen : forall l acc,
               Permutation (fold_left (fun sorted r => insert_desc r sorted) l acc) (acc ++ l)).
    { induction l as [| r l IH]; intros acc; cbn [fold_left].
      - now rewrite app_nil_r.
      - rewrite IH.
        assert (Hins : forall sorted, Permutation (insert_desc r sorted) (r :: sorted)).
        { induction sorted as [| e rest IHs]; cbn [insert_desc]; [reflexivity |].
          destruct (lt (score e) (score r)); [reflexivity |].
          rewrite IHs. apply perm_swap. }
        rewrite Hins. cbn [app]. apply Permutation_middle. }
    apply (Hgen (List.concat lists) []). }
  rewrite collect_all. cbn [app fst].
  apply (Permutation_in _ (Permutation_sym Hperm)).
  apply in_concat. exists (map format hits). split.
  - eapply nth_error_In; eassumption.
  - now apply in_map.
Qed.

End FusionRequests.

Lemma search_multiple_one_search_per_variant_witness :
  exists out,
    VectorStore.search_multiple (B := Demo.backend) ["plan"; "otro"] None false
      (VectorStore.mkSelf (Some 0)) = (Ok out, VectorStore.mkSelf (Some 2))
    /\ forall i q,
         nth_error ["plan"; "otro"] i = Some q ->
         exists hits,
           VectorStore.similarity_search_with_score (Backend := Demo.backend) (0 + i) q
             (VectorStore.or_default (B := Demo.backend) None) None = Returned hits
           /\ (false = false ->
               forall h, In h hits -> In (VectorStore.format (B := Demo.backend) h) out).
Proof.
  assert (Hrun : exists out self',
             VectorStore.search_multiple (B := Demo.backend) ["plan"; "otro"] None false
               (VectorStore.mkSelf (Some 0)) = (Ok out, self'))
    by (eexists; eexists; vm_compute; reflexivity).
  destruct Hrun as (out & self' & Hrun).
  destruct (search_multiple_one_search_per_variant (B := Demo.backend) _ _ _ _ _ _ Hrun)
    as (Hs & Hsent).
  exists out. split; [rewrite Hrun, Hs; reflexivity | exact Hsent].
Defined.

(** ** The pipeline's [query] *)

Section PipelineFacts.
Import Py RAGPipeline PipelineSpec.
Context {E : QueryRewriter.Env} {B : VectorStore.Backend}.
Variable answer_service : nat -> AnswerRequest -> Reply string.

(** X16. When rewriting is on and [rewrite] raises, [query] does not
    raise: it returns the error response, whose [error] is the text of the
    exception and whose answer is that text after "An error occurred: ",
    without metadata or sources. Nothing is searched and no answer is
    requested; only the rewriter has moved. *)
Theorem query_reports_rewrite_exception question top_k context return_sources
    self rewriter e rewriter' :
  enable_rewrite self = true ->
  query_rewriter self = Some rewriter ->
  QueryRewriter.rewrite question context rewriter = (Raise e, rewriter') ->
  query answer_service question top_k context return_sources self
  = (Ok (error_response e), with_rewriter rewriter' self).
Proof.
  intros Hon Hrw Hraise.
  unfold query, catch, rewrite_step, bind, get_self, on_rewriter.
  rewrite Hon, Hrw, Hraise. reflexivity.
Qed.

(** X17. When rewriting is on and [rewrite] returns a result with no
    variant at all, [query] indexes the empty list: it returns the error
    response of [IndexError], with the text "list index out of range", and
    the store is not searched. *)
Theorem query_fails_on_no_variants question top_k context return_sources
    self rewriter r rewriter' :
  enable_rewrite self = true ->
  query_rewriter self = Some rewriter ->
  QueryRewriter.rewrite question context rewriter = (Ok r, rewriter') ->
  RewriteResult.rewritten r = [] ->
  query answer_service question top_k context return_sources self
  = (Ok (error_response IndexError), with_rewriter rewriter' self)
  /\ error (error_response IndexError) = Some "list index out of range".
Proof.
  intros Hon Hrw Hrun Hempty. split; [| reflexivity].
  unfold query, catch, rewrite_step, retrieve_step, bind, get_self, on_rewriter.
  rewrite Hon, Hrw, Hrun. cbn [fst snd ret]. rewrite Hempty. reflexivity.
Qed.

(** [query], step by step: every exception of a step ends in the error
    response; no document ends in the not-found response, without a request
    for an answer. *)
Lemma query_run question top_k context return_sources self :
  query answer_service question top_k context return_sources self
  = match rewrite_step question context self with
    | (Raise e, s1) => (Ok (error_response e), s1)
    | (Ok step1, s1) =>
        match retrieve_step (fst step1) top_k s1 with
        | (Raise e, s2) => (Ok (error_response e), s2)
        | (Ok [], s2) => (Ok (not_found_response (snd step1)), s2)
        | (Ok (d :: ds), s2) =>
            match answer_service (client s2)
                    {| question := question; documents := d :: ds |} with
            | Returned content =>
                (Ok (answered_response (snd step1) top_k return_sources (model s2)
                       (d :: ds) content),
                 after_answer s2)
            | Failed msg => (Ok (error_response (BackendError msg)), after_answer s2)
            end
        end
    end.
Proof.
  unfold query, catch. unfold bind at 1.
  destruct (rewrite_step question context self) as [[step1 | e] s1]; [| reflexivity].
  unfold bind at 1.
  destruct (retrieve_step (fst step1) top_k s1) as [[[| d ds] | e] s2]; try reflexivity.
  unfold bind, _generate_answer, get_self, ret.
  destruct (answer_service (client s2) _); reflexivity.
Qed.

Lemma rewrite_step_off question context self :
  enable_rewrite self = false \/ query_rewriter self = None ->
  rewrite_step question context self = (Ok ([question], None), self).
Proof.
  intros Hoff. unfold rewrite_step, bind, get_self.
  destruct Hoff as [Hoff | Hoff]; rewrite Hoff; [reflexivity |].
  destruct (enable_rewrite self); reflexivity.
Qed.

Lemma rewrite_step_on question context self rewriter :
  enable_rewrite self = true ->
  query_rewriter self = Some rewriter ->
  rewrite_step question context self
  = match QueryRewriter.rewrite question context rewriter with
    | (Ok r, rewriter') =>
        (Ok (RewriteResult.rewritten r, Some (info_of r)), with_rewriter rewriter' self)
    | (Raise e, rewriter') => (Raise e, with_rewriter rewriter' self)
    end.
Proof.
  intros Hon Hrw. unfold rewrite_step, bind, get_self, on_rewriter. rewrite Hon, Hrw.
  destruct (QueryRewriter.rewrite question context rewriter) as [[r | e] rw']; reflexivity.
Qed.

(** The retrieval on a store that holds no documents yet. *)
Lemma retrieve_step_unloaded queries top_k self :
  VectorStore.vector_store (vector_store self) = None ->
  queries <> [] ->
  retrieve_step queries top_k self = (Ok [], self).
Proof.
  intros Hnone Hne. unfold retrieve_step.
  destruct self as [en mq cl md [vs] rw]. cbn in Hnone. subst vs.
  destruct (1 <? List.length queries).
  - unfold on_store. cbn [vector_store].
    rewrite search_multiple_run, search_each_unloaded, concat_of_empty. reflexivity.
  - destruct queries as [| first rest]; [contradiction |]. reflexivity.
Qed.

(** X18. On a store that holds no documents yet, [query] returns the
    not-found response and requests no answer: with rewriting off, nothing
    at all is requested and the pipeline is left as it was; with rewriting
    on, the rewriter is still called, and its variants (at least one) are
    recorded in the response. *)
Theorem query_on_empty_store question top_k context return_sources self :
  VectorStore.vector_store (vector_store self) = None ->
  (enable_rewrite self = false \/ query_rewriter self = None ->
   query answer_service question top_k context return_sources self
   = (Ok (not_found_response None), self))
  /\ (forall rewriter r rewriter',
         enable_rewrite self = true ->
         query_rewriter self = Some rewriter ->
         QueryRewriter.rewrite question context rewriter = (Ok r, rewriter') ->
         RewriteResult.rewritten r <> [] ->
         query answer_service question top_k context return_sources self
         = (Ok (not_found_response (Some (info_of r))), with_rewriter rewriter' self)).
Proof.
  intros Hnone. split.
  - intros Hoff. rewrite query_run, (rewrite_step_off _ _ _ Hoff). cbn [fst snd].
    rewrite retrieve_step_unloaded; [reflexivity | exact Hnone | discriminate].
  - intros rewriter r rewriter' Hon Hrw Hrun Hne.
    rewrite query_run, (rewrite_step_on _ _ _ _ Hon Hrw), Hrun. cbn [fst snd].
    rewrite retrieve_step_unloaded; [reflexivity | exact Hnone | exact Hne].
Qed.

(** X19. With rewriting off, or with no rewriter, [query] is one search
    for the question itself: its error becomes the error response; no hit
    gives the not-found response; otherwise the hits go to the answer
    service in the order of the backend, neither sorted nor deduplicated,
    and the rewriter, if any, is not touched. *)
Theorem query_without_rewriting question top_k context return_sources self :
  enable_rewrite self = false \/ query_rewriter self = None ->
  query answer_service question top_k context return_sources self
  = match VectorStore.search question top_k None (vector_store self) with
    | (Raise e, store) => (Ok (error_response e), with_store store self)
    | (Ok [], store) => (Ok (not_found_response None), with_store store self)
    | (Ok (d :: ds), store) =>
        match answer_service (client self)
                {| question := question; documents := d :: ds |} with
        | Returned content =>
            (Ok (answered_response None top_k return_sources (model self) (d :: ds) content),
             after_answer (with_store store self))
        | Failed msg =>
            (Ok (error_response (BackendError msg)), after_answer (with_store store self))
        end
    end.
Proof.
  intros Hoff. rewrite query_run, (rewrite_step_off _ _ _ Hoff). cbn [fst snd].
  unfold retrieve_step. change (1 <? List.length [question]) with false. cbv iota.
  unfold on_store.
  destruct (VectorStore.search question top_k None (vector_store self))
    as [[[| d ds] | e] store]; reflexivity.
Qed.

(** Neither step of [query] touches the answer client or the model. *)
Lemma rewrite_step_frame question context self out s1 :
  rewrite_step question context self = (out, s1) ->
  client s1 = client self /\ model s1 = model self.
Proof.
  unfold rewrite_step, bind, get_self, on_rewriter.
  destruct (enable_rewrite self); [| intros H; inversion H; auto].
  destruct (query_rewriter self) as [rewriter |]; [| intros H; inversion H; auto].
  destruct (QueryRewriter.rewrite question context rewriter) as [[r | e] rw'];
    intros H; inversion H; auto.
Qed.

Lemma retrieve_step_frame top_k queries s1 out s2 :
  retrieve_step queries top_k s1 = (out, s2) ->
  client s2 = client s1 /\ model s2 = model s1.
Proof.
  unfold retrieve_step, on_store.
  destruct (1 <? List.length queries).
  - destruct (VectorStore.search_multiple _ _ _ _); intros H; inversion H; auto.
  - destruct queries as [| first rest]; [intros H; inversion H; auto |].
    destruct (VectorStore.search _ _ _ _); intros H; inversion H; auto.
Qed.

Lemma query_response_kinds_aux question top_k context return_sources self :
  exists response self',
    query answer_service question top_k context return_sources self = (Ok response, self').
Proof.
  rewrite query_run.
  destruct (rewrite_step question context self) as [[step1 | e] s1];
    [| now eexists; eexists].
  destruct (retrieve_step (fst step1) top_k s1) as [[[| d ds] | e] s2];
    try (now eexists; eexists).
  destruct (answer_service (client s2) _); now eexists; eexists.
Qed.

Lemma query_response_cases question top_k context return_sources self :
  exists response self',
    query answer_service question top_k context return_sources self = (Ok response, self')
    /\ ((exists e, response = error_response e)
        \/ (exists info, response = not_found_response info /\ client self' = client self)
        \/ (exists info docs content,
               response = answered_response info top_k return_sources (model self) docs content
               /\ docs <> []
               /\ client self' = S (client self)
               /\ forall srcs,
                   sources response = Some srcs ->
                   List.length srcs <= List.length docs
                   /\ ((0 <= VectorStore.or_default top_k)%Z ->
                       (Z.of_nat (List.length srcs) <= VectorStore.or_default top_k)%Z))).
Proof.
  rewrite query_run.
  pose proof (retrieve_step_frame top_k) as Hretr.
  destruct (rewrite_step question context self) as [[step1 | e] s1] eqn:H1.
  2: { eexists. eexists. split; [reflexivity |]. left. now exists e. }
  destruct (rewrite_step_frame _ _ _ _ _ H1) as (Hc1 & Hm1).
  destruct (retrieve_step (fst step1) top_k s1) as [[[| d ds] | e] s2] eqn:H2.
  - destruct (Hretr _ _ _ _ H2) as (Hc2 & _).
    eexists. eexists. split; [reflexivity |]. right. left. exists (snd step1).
    split; [reflexivity | congruence].
  - destruct (Hretr _ _ _ _ H2) as (Hc2 & Hm2).
    destruct (answer_service (client s2) _) as [content | msg].
    + eexists. eexists. split; [reflexivity |]. right. right.
      exists (snd step1), (d :: ds), content.
      split; [now rewrite Hm2, Hm1 |]. split; [discriminate |].
      split; [cbn; congruence |].
      intros srcs. unfold answered_response. cbn [sources].
      destruct return_sources; [| discriminate]. intros Hs. inversion Hs; subst srcs.
      rewrite length_map. split.
      * unfold slice_to. destruct (0 <=? VectorStore.or_default top_k)%Z;
          rewrite length_firstn; lia.
      * intros Hk. now apply length_slice_to.
    + eexists. eexists. split; [reflexivity |]. left. now eexists.
  - eexists. eexists. split; [reflexivity |]. left. now exists e.
Qed.

(** X20. [query] never raises, and its response is of one of three
    kinds. An error response has an [error], no metadata and no sources. A
    not-found response reports zero documents, an empty list of sources
    and no model, and no answer was requested for it. An answered response
    reports the model and the number of retrieved documents, which is not
    zero, and, when sources were asked for, a list of sources that is a
    cut of the retrieved documents: never more of them than were
    retrieved, and at most [top_k] (the default when absent or zero) when
    that number is not negative. *)
Theorem query_response_kinds question top_k context return_sources self :
  exists response self',
    query answer_service question top_k context return_sources self = (Ok response, self')
    /\ ((exists e, response = error_response e)
        \/ (exists info, response = not_found_response info /\ client self' = client self)
        \/ (exists info docs content,
               response = answered_response info top_k return_sources (model self) docs content
               /\ docs <> []
               /\ client self' = S (client self)
               /\ forall srcs,
                   sources response = Some srcs ->
                   List.length srcs <= List.length docs
                   /\ ((0 <= VectorStore.or_default top_k)%Z ->
                       (Z.of_nat (List.length srcs) <= VectorStore.or_default top_k)%Z))).
Proof. exact (query_response_cases question top_k context return_sources self). Qed.


End PipelineFacts.

Lemma query_reports_rewrite_exception_witness :
  exists rewriter',
    RAGPipeline.query (E := Demo.offline) (B := Demo.backend) DemoPipeline.answers
      "compare plan A versus plan B now" None None true (DemoPipeline.pipeline true)
    = (Ok (PipelineSpec.error_response (B := Demo.backend) (KeyError "metadata")),
       PipelineSpec.with_rewriter rewriter' (DemoPipeline.pipeline true))
    /\ RAGPipeline.error (PipelineSpec.error_response (B := Demo.backend) (KeyError "metadata"))
       = Some "'metadata'".
Proof.
  assert (Hrun : exists rewriter',
             QueryRewriter.rewrite (E := Demo.offline) "compare plan A versus plan B now" None
               (QueryRewriter.create_rewriter QueryRewriter.HYBRID 3)
             = (Raise (KeyError "metadata"), rewriter'))
    by (eexists; vm_compute; reflexivity).
  destruct Hrun as (rewriter' & Hrun). exists rewriter'. split; [| reflexivity].
  apply (query_reports_rewrite_exception (E := Demo.offline) (B := Demo.backend))
    with (rewriter := QueryRewriter.create_rewriter QueryRewriter.HYBRID 3);
    [reflexivity | reflexivity | exact Hrun].
Defined.

Lemma query_fails_on_no_variants_witness :
  exists rewriter',
    RAGPipeline.query (E := Demo.offline) (B := Demo.backend) DemoPipeline.answers
      "Hola" None None true (DemoPipeline.pipeline true)
    = (Ok (PipelineSpec.error_response (B := Demo.backend) IndexError),
       PipelineSpec.with_rewriter rewriter' (DemoPipeline.pipeline true))
    /\ RAGPipeline.error (PipelineSpec.error_response (B := Demo.backend) IndexError)
       = Some "list index out of range".
Proof.
  assert (Hrun : exists r rewriter',
             QueryRewriter.rewrite (E := Demo.offline) "Hola" None
               (QueryRewriter.create_rewriter QueryRewriter.HYBRID 3) = (Ok r, rewriter')
             /\ RewriteResult.rewritten r = [])
    by (eexists; eexists; split; vm_compute; reflexivity).
  destruct Hrun as (r & rewriter' & Hrun & Hnone). exists rewriter'.
  apply (query_fails_on_no_variants (E := Demo.offline) (B := Demo.backend))
    with (rewriter := QueryRewriter.create_rewriter QueryRewriter.HYBRID 3) (r := r);
    [reflexivity | reflexivity | exact Hrun | exact Hnone].
Defined.

Lemma query_on_empty_store_witness :
  RAGPipeline.query (E := Demo.offline) (B := Demo.backend) DemoPipeline.answers
    "Que cubre el plan?" (Some 4%Z) None true
    (RAGPipeline.mkSelf false 3 0 "gpt-4-turbo-preview" (VectorStore.mkSelf None) None)
  = (Ok (PipelineSpec.not_found_response (B := Demo.backend) None),
     RAGPipeline.mkSelf false 3 0 "gpt-4-turbo-preview" (VectorStore.mkSelf None) None).
Proof.
  apply (proj1 (query_on_empty_store (E := Demo.offline) (B := Demo.backend)
                  DemoPipeline.answers "Que cubre el plan?" (Some 4%Z) None true
                  (RAGPipeline.mkSelf false 3 0 "gpt-4-turbo-preview"
                     (VectorStore.mkSelf None) None)
                  eq_refl)).
  left. reflexivity.
Defined.

Lemma query_without_rewriting_witness :
  RAGPipeline.query (E := Demo.offline) (B := Demo.backend) DemoPipeline.answers
    "plan" (Some 1%Z) None true (DemoPipeline.pipeline false)
  = (Ok (PipelineSpec.answered_response (B := Demo.backend) None (Some 1%Z) true
           "gpt-4-turbo-preview"
           [VectorStore.mkResult (B := Demo.backend) "doc plan" "a.pdf" 3%Z;
            VectorStore.mkResult (B := Demo.backend) "doc comun" "c.pdf" 9%Z]
           "  Segun el documento 1, el plan cubre la hospitalizacion.  "),
     PipelineSpec.after_answer
       (PipelineSpec.with_store (VectorStore.mkSelf (Some 1)) (DemoPipeline.pipeline false))).
Proof.
  rewrite (query_without_rewriting (E := Demo.offline) (B := Demo.backend)
             DemoPipeline.answers "plan" (Some 1%Z) None true (DemoPipeline.pipeline false)
             (or_introl eq_refl)).
  reflexivity.
Defined.

(** ** The text functions of the document processor *)

Section TextFacts.
Import Py DocumentProcessor TextSpec.

Lemma append_assoc (a b c : string) : ((a ++ b) ++ c = a ++ (b ++ c))%string.
Proof. induction a as [| x a IH]; cbn; [reflexivity | now rewrite IH]. Qed.

Lemma rev_onto_app s : forall acc, rev_onto s acc = (reverse s ++ acc)%string.
Proof.
  unfold reverse. induction s as [| c s IH]; intros acc; cbn [rev_onto].
  - reflexivity.
  - rewrite IH, (IH (String c "")), append_assoc. reflexivity.
Qed.

Lemma append_nil_r (s : string) : (s ++ "")%string = s.
Proof. induction s as [| c s IH]; cbn; [reflexivity | now rewrite IH]. Qed.

Lemma reverse_cons c s : reverse (String c s) = (reverse s ++ String c "")%string.
Proof. unfold reverse at 1. cbn [rev_onto]. apply rev_onto_app. Qed.

Lemma reverse_app a b : reverse (a ++ b) = (reverse b ++ reverse a)%string.
Proof.
  induction a as [| c a IH]; cbn [append].
  - change (reverse "") with "". now rewrite append_nil_r.
  - rewrite !reverse_cons, IH, append_assoc. reflexivity.
Qed.

Lemma reverse_involutive s : reverse (reverse s) = s.
Proof.
  induction s as [| c s IH]; [reflexivity |].
  rewrite reverse_cons, reverse_app, IH. reflexivity.
Qed.

Lemma lstrip_app a b :
  lstrip_by isspace (a ++ b)
  = if all_space a then lstrip_by isspace b else (lstrip_by isspace a ++ b)%string.
Proof.
  induction a as [| c a IH]; cbn [append lstrip_by all_space]; [reflexivity |].
  destruct (isspace c); cbn [andb]; [exact IH | reflexivity].
Qed.

Lemma all_space_reverse s : all_space (reverse s) = all_space s.
Proof.
  assert (Happ : forall a b, all_space (a ++ b) = all_space a && all_space b).
  { induction a as [| c a IH]; intros b; cbn [append all_space]; [reflexivity |].
    now rewrite IH, andb_assoc. }
  induction s as [| c s IH]; [reflexivity |].
  rewrite reverse_cons, Happ, IH. cbn [all_space]. rewrite andb_true_r. apply andb_comm.
Qed.

Lemma lstrip_all_space s : all_space s = true -> lstrip_by isspace s = "".
Proof.
  induction s as [| c s IH]; cbn [all_space lstrip_by]; [reflexivity |].
  destruct (isspace c); [exact IH | discriminate].
Qed.

Lemma rstrip_empty s : rstrip s = "" <-> all_space s = true.
Proof.
  induction s as [| c s IH]; cbn [rstrip all_space]; [tauto |].
  destruct (rstrip s) eqn:Hr.
  - destruct (isspace c); cbn [andb].
    + split; [intros _; now apply IH | reflexivity].
    + split; discriminate.
  - split; [discriminate |]. intros H. apply andb_true_iff in H.
    destruct H as (_ & H). apply IH in H. discriminate.
Qed.

(** [strip] is [rstrip] after [lstrip]. *)
Lemma rstrip_spec s : reverse (lstrip_by isspace (reverse s)) = rstrip s.
Proof.
  induction s as [| c s IH]; [reflexivity |].
  rewrite reverse_cons, lstrip_app, all_space_reverse. cbn [rstrip].
  destruct (all_space s) eqn:Hall.
  - apply rstrip_empty in Hall. rewrite Hall. cbn [lstrip_by].
    destruct (isspace c); reflexivity.
  - rewrite reverse_app, IH. cbn.
    destruct (rstrip s) eqn:Hr; [| reflexivity].
    assert (all_space s = true) by now apply rstrip_empty. congruence.
Qed.

Lemma strip_spec s : strip s = rstrip (lstrip_by isspace s).
Proof. unfold strip, strip_by. apply rstrip_spec. Qed.

Lemma lstrip_sub_spaces s : forall in_run,
  lstrip_by isspace (sub_spaces_from in_run s) = sub_spaces_from true s.
Proof.
  induction s as [| c s IH]; intros in_run; cbn [sub_spaces_from]; [reflexivity |].
  destruct (isspace c) eqn:Hc.
  - destruct in_run; [apply IH |]. cbn [lstrip_by].
    change (isspace " ") with true. cbv iota. apply IH.
  - cbn [lstrip_by]. now rewrite Hc.
Qed.

Lemma preprocess_text_run text :
  preprocess_text text = rstrip (sub_spaces_from true text).
Proof.
  unfold preprocess_text, sub_spaces. now rewrite strip_spec, lstrip_sub_spaces.
Qed.

Lemma rstrip_word w : forall rest,
  no_space w = true -> rstrip (w ++ rest) = (w ++ rstrip rest)%string.
Proof.
  induction w as [| c w IH]; intros rest Hw; cbn [append]; [reflexivity |].
  cbn [no_space] in Hw. apply andb_true_iff in Hw. destruct Hw as (Hc & Hw).
  apply negb_true_iff in Hc. cbn [rstrip]. rewrite (IH _ Hw), Hc.
  destruct (w ++ rstrip rest)%string; reflexivity.
Qed.

Lemma no_space_app a b : no_space (a ++ b) = no_space a && no_space b.
Proof.
  induction a as [| c a IH]; cbn [append no_space]; [reflexivity |].
  now rewrite IH, andb_assoc.
Qed.

Lemma no_space_reverse s : no_space (reverse s) = no_space s.
Proof.
  induction s as [| c s IH]; [reflexivity |].
  rewrite reverse_cons, no_space_app, IH. cbn [no_space].
  rewrite andb_true_r. apply andb_comm.
Qed.

Lemma reverse_empty s : reverse s = "" -> s = "".
Proof.
  destruct s as [| c s]; [reflexivity |]. rewrite reverse_cons.
  destruct (reverse s); discriminate.
Qed.

(** The words of [split]: none is empty, none holds white space. *)
Lemma split_from_words s : forall cur,
  no_space cur = true ->
  Forall (fun w => w <> "" /\ no_space w = true) (split_from cur s).
Proof.
  induction s as [| c s IH]; intros cur Hcur; cbn [split_from].
  - destruct (String.eqb_spec cur "") as [-> | Hne]; constructor; [| constructor].
    split; [intros H; apply Hne; now apply reverse_empty | now rewrite no_space_reverse].
  - destruct (isspace c) eqn:Hc.
    + destruct (String.eqb_spec cur "") as [-> | Hne]; [now apply IH |].
      constructor; [| now apply IH].
      split; [intros H; apply Hne; now apply reverse_empty | now rewrite no_space_reverse].
    + apply IH. cbn [no_space]. now rewrite Hc, Hcur.
Qed.

Lemma join_empty sep l :
  Forall (fun w => w <> "" /\ no_space w = true) l -> join sep l = "" -> l = [].
Proof.
  destruct l as [| x rest]; [reflexivity |]. intros Hall Hjoin.
  inversion Hall as [| ? ? (Hx & _) _]; subst. exfalso. apply Hx.
  cbn [join] in Hjoin. destruct rest; [exact Hjoin |].
  destruct x; [reflexivity | discriminate].
Qed.

Lemma join_cons sep x l :
  join sep (x :: l) = match l with [] => x | _ => (x ++ sep ++ join sep l)%string end.
Proof. destruct l; reflexivity. Qed.

Lemma sub_spaces_words s :
  rstrip (sub_spaces_from true s) = join " " (split_from "" s)
  /\ forall cur, cur <> "" -> no_space cur = true ->
       rstrip (reverse cur ++ sub_spaces_from false s) = join " " (split_from cur s).
Proof.
  induction s as [| c s (IHrun & IHword)].
  - split; [reflexivity |]. intros cur Hne Hcur. cbn [sub_spaces_from split_from].
    rewrite append_nil_r.
    destruct (String.eqb_spec cur "") as [-> | _]; [contradiction |]. cbn [join].
    rewrite <- (append_nil_r (reverse cur)) at 1.
    rewrite rstrip_word by now rewrite no_space_reverse. cbn [rstrip]. apply append_nil_r.
  - cbn [sub_spaces_from split_from]. destruct (isspace c) eqn:Hc.
    + split; [exact IHrun |]. intros cur Hne Hcur.
      destruct (String.eqb_spec cur "") as [-> | _]; [contradiction |].
      rewrite rstrip_word by now rewrite no_space_reverse.
      rewrite join_cons. cbn [rstrip]. rewrite IHrun.
      pose proof (split_from_words s "" eq_refl) as Hwords.
      destruct (split_from "" s) as [| w ws] eqn:Hsplit.
      * cbn [join]. change (isspace " ") with true. cbv iota. apply append_nil_r.
      * destruct (join " " (w :: ws)) eqn:Hjoin; [| reflexivity].
        apply (join_empty _ _ Hwords) in Hjoin. discriminate.
    + split.
      * rewrite <- (IHword (String c "")); [reflexivity | discriminate |].
        cbn [no_space]. now rewrite Hc.
      * intros cur Hne Hcur.
        rewrite <- (IHword (String c cur)); [| discriminate | cbn [no_space]; now rewrite Hc, Hcur].
        rewrite reverse_cons, append_assoc. reflexivity.
Qed.

Lemma preprocess_text_words text :
  preprocess_text text = join " " (split text).
Proof. rewrite preprocess_text_run. apply sub_spaces_words. Qed.

(** X22. [preprocess_text] returns the words of the text joined by
    single spaces, the words being the maximal runs of characters that are
    not white space: the result of [preprocess_text(text)] is that of
    [' '.join(text.split())]. In particular a text of white space only, or
    the empty text, gives the empty text. *)
Theorem preprocess_text_joins_words text :
  preprocess_text text = join " " (split text)
  /\ (all_space text = true -> preprocess_text text = "").
Proof.
  split; [apply preprocess_text_words |].
  intros Hall. rewrite preprocess_text_run.
  apply rstrip_empty. clear - Hall.
  assert (Hgen : forall s, all_space s = true -> sub_spaces_from true s = "").
  { induction s as [| c s IH]; cbn [all_space sub_spaces_from]; [reflexivity |].
    intros H. apply andb_true_iff in H. destruct H as (Hc & Hs).
    rewrite Hc. now apply IH. }
  now rewrite Hgen.
Qed.

Lemma split_from_word w : forall cur s,
  no_space w = true -> split_from cur (w ++ s) = split_from (reverse w ++ cur) s.
Proof.
  induction w as [| c w IH]; intros cur s Hw; cbn [append]; [reflexivity |].
  cbn [no_space] in Hw. apply andb_true_iff in Hw. destruct Hw as (Hc & Hw).
  apply negb_true_iff in Hc. cbn [split_from]. rewrite Hc, (IH _ _ Hw).
  now rewrite reverse_cons, append_assoc.
Qed.

Lemma split_join l :
  Forall (fun w => w <> "" /\ no_space w = true) l -> split (join " " l) = l.
Proof.
  unfold split. induction 1 as [| x rest (Hx & Hw) Hrest IH]; [reflexivity |].
  assert (Hcur : String.eqb (reverse x) "" = false).
  { apply String.eqb_neq. intros H. apply Hx. now apply reverse_empty. }
  rewrite join_cons. destruct rest as [| y rest].
  - rewrite <- (append_nil_r x) at 1. rewrite (split_from_word x "" "" Hw), append_nil_r.
    cbn [split_from]. rewrite Hcur, reverse_involutive. reflexivity.
  - rewrite (split_from_word x "" _ Hw), append_nil_r.
    cbn [append split_from]. change (isspace " ") with true. cbv iota.
    rewrite Hcur, reverse_involutive, IH. reflexivity.
Qed.

(** X23. [preprocess_text] keeps the words of the text, and cleaning a
    cleaned text changes nothing. *)
Theorem preprocess_text_idempotent text :
  split (preprocess_text text) = split text
  /\ preprocess_text (preprocess_text text) = preprocess_text text.
Proof.
  assert (Hsplit : split (preprocess_text text) = split text).
  { rewrite preprocess_text_words. apply split_join.
    apply (split_from_words text "" eq_refl). }
  split; [exact Hsplit |].
  rewrite (preprocess_text_words (preprocess_text text)), Hsplit.
  symmetry. apply preprocess_text_words.
Qed.

End TextFacts.

(** ** The chunks of [load_text] *)

Section ChunkFacts.
Import Py DocumentProcessor.
Variable Any : Type.
Variable split_text : string -> list string.

Lemma get_set {V} (k k' : string) (v : V) (d : list (string * V)) :
  get k (set k' v d) = if String.eqb k k' then Some v else get k d.
Proof.
  induction d as [| [k1 v1] d IH]; cbn [set get]; [reflexivity |].
  destruct (String.eqb_spec k' k1) as [-> | Hne]; cbn [get].
  - destruct (String.eqb k k1); reflexivity.
  - rewrite IH. destruct (String.eqb_spec k k') as [-> | Hkk'].
    + destruct (String.eqb_spec k' k1); [contradiction | reflexivity].
    + reflexivity.
Qed.

Lemma get_update (k : string) (m : list (string * MetaValue Any)) : forall d,
  NoDup (keys m) ->
  get k (update Any d m) = match get k m with Some v => Some v | None => get k d end.
Proof.
  unfold update. induction m as [| [k1 v1] m IH]; intros d Hnodup; cbn [fold_left get].
  - reflexivity.
  - cbn [keys map fst] in Hnodup. inversion Hnodup as [| ? ? Hnotin Hrest]; subst.
    rewrite (IH _ Hrest). cbn [fst snd]. rewrite get_set.
    destruct (String.eqb_spec k k1) as [-> | Hne]; [| reflexivity].
    apply get_in_keys in Hnotin. now rewrite Hnotin.
Qed.

Lemma load_text_from_spec metadata chunks : forall i,
  match metadata with Some m => NoDup (keys m) | None => True end ->
  map (content Any) (load_text_from Any i chunks metadata) = chunks
  /\ forall j chunk,
      nth_error (load_text_from Any i chunks metadata) j = Some chunk ->
      forall k,
        get k (DocumentProcessor.metadata Any chunk)
        = match match metadata with Some m => get k m | None => None end with
          | Some v => Some v
          | None =>
              get k [("source", MStr Any "raw_text");
                     ("chunk_id", MInt Any (Z.of_nat (i + j)));
                     ("chunk_size", MInt Any (Z.of_nat (len (content Any chunk))))]
          end.
Proof.
  induction chunks as [| c rest IH]; intros i Hm; cbn [load_text_from map].
  - split; [reflexivity |]. intros [| j] chunk H; discriminate H.
  - destruct (IH (S i) Hm) as (Hcontent & Hmeta). split.
    + cbn [content]. now rewrite Hcontent.
    + intros [| j] chunk Hnth k; cbn [nth_error] in Hnth.
      * inversion Hnth; subst chunk. clear Hnth. cbn [content DocumentProcessor.metadata].
        rewrite Nat.add_0_r.
        destruct metadata as [[| kv m] |]; [reflexivity | | reflexivity].
        exact (get_update k (kv :: m)
                 [("source", MStr Any "raw_text");
                  ("chunk_id", MInt Any (Z.of_nat i));
                  ("chunk_size", MInt Any (Z.of_nat (len c)))] Hm).
      * rewrite (Hmeta j chunk Hnth k). now rewrite Nat.add_succ_r.
Qed.

(** X24. [load_text] returns one chunk per piece of the splitter, in
    order, with the piece as content. In the metadata of the chunk of index
    [i] every key of the caller's metadata has the caller's value, also
    the keys [source], [chunk_id] and [chunk_size], which the caller thus
    overrides; a key the caller does not give is [source] with
    "raw_text", [chunk_id] with [i] or [chunk_size] with the length of the
    piece, and no other. *)
Theorem load_text_chunks text metadata :
  match metadata with Some m => NoDup (keys m) | None => True end ->
  map (content Any) (load_text Any split_text text metadata) = split_text text
  /\ forall i chunk,
      nth_error (load_text Any split_text text metadata) i = Some chunk ->
      forall k,
        get k (DocumentProcessor.metadata Any chunk)
        = match match metadata with Some m => get k m | None => None end with
          | Some v => Some v
          | None =>
              get k [("source", MStr Any "raw_text");
                     ("chunk_id", MInt Any (Z.of_nat i));
                     ("chunk_size", MInt Any (Z.of_nat (len (content Any chunk))))]
          end.
Proof. intros Hm. exact (load_text_from_spec metadata (split_text text) 0 Hm). Qed.

End ChunkFacts.

Lemma load_text_chunks_witness :
  map (DocumentProcessor.content bool)
    (DocumentProcessor.load_text bool Py.split "uno dos"
       (Some [("chunk_id", DocumentProcessor.MStr bool "mine");
              ("draft", DocumentProcessor.MAny bool true)]))
  = Py.split "uno dos"
  /\ forall i chunk,
      nth_error
        (DocumentProcessor.load_text bool Py.split "uno dos"
           (Some [("chunk_id", DocumentProcessor.MStr bool "mine");
                  ("draft", DocumentProcessor.MAny bool true)])) i = Some chunk ->
      forall k,
        Py.get k (DocumentProcessor.metadata bool chunk)
        = match Py.get k [("chunk_id", DocumentProcessor.MStr bool "mine");
                          ("draft", DocumentProcessor.MAny bool true)] with
          | Some v => Some v
          | None =>
              Py.get k
                [("source", DocumentProcessor.MStr bool "raw_text");
                 ("chunk_id", DocumentProcessor.MInt bool (Z.of_nat i));
                 ("chunk_size",
                  DocumentProcessor.MInt bool
                    (Z.of_nat (Py.len (DocumentProcessor.content bool chunk))))]
          end.
Proof.
  apply (load_text_chunks bool Py.split "uno dos"
           (Some [("chunk_id", DocumentProcessor.MStr bool "mine");
                  ("draft", DocumentProcessor.MAny bool true)])).
  cbn. constructor; [intros [H | []]; discriminate H |].
  constructor; [intros [] | constructor].
Defined.

(** ** The endpoints *)

Section ApiFacts.
Import Py PipelineSpec ApiSpec.
Context {E : QueryRewriter.Env} {B : VectorStore.Backend}.
Variable answer_service : nat -> RAGPipeline.AnswerRequest -> Reply string.
Variable validation_error : RAGPipeline.Response -> string.

Lemma settings_kept_refl self : settings_kept self self.
Proof.
  unfold settings_kept. split; [reflexivity |]. split; [reflexivity |].
  destruct (RAGPipeline.query_rewriter self) as [rewriter |]; [| reflexivity].
  now exists rewriter.
Qed.

Lemma settings_kept_trans s1 s2 s3 :
  settings_kept s1 s2 -> settings_kept s2 s3 -> settings_kept s1 s3.
Proof.
  unfold settings_kept. intros (He1 & Hm1 & Hr1) (He2 & Hm2 & Hr2).
  split; [congruence |]. split; [congruence |].
  destruct (RAGPipeline.query_rewriter s1) as [rw1 |].
  - destruct Hr1 as (rw2 & Hrw2 & Hs2 & Hq2). rewrite Hrw2 in Hr2.
    destruct Hr2 as (rw3 & Hrw3 & Hs3 & Hq3). exists rw3.
    split; [exact Hrw3 |]. split; congruence.
  - rewrite Hr1 in Hr2. exact Hr2.
Qed.

Lemma rewrite_step_settings question context self out s1 :
  RAGPipeline.rewrite_step question context self = (out, s1) -> settings_kept self s1.
Proof.
  unfold RAGPipeline.rewrite_step, bind, RAGPipeline.get_self, RAGPipeline.on_rewriter.
  destruct (RAGPipeline.enable_rewrite self) eqn:Hon;
    [| intros H; inversion H; subst; apply settings_kept_refl].
  destruct (RAGPipeline.query_rewriter self) as [rewriter |] eqn:Hrw;
    [| intros H; inversion H; subst; apply settings_kept_refl].
  destruct (QueryRewriter.rewrite question context rewriter) as [[r | e] rw'] eqn:Hrun;
    intros H; inversion H; subst; clear H;
    destruct (rewrite_keeps_key _ _ _ _ _ Hrun) as (Hs & Hm);
    unfold settings_kept; rewrite Hrw; cbn;
    (split; [reflexivity |]); (split; [reflexivity |]); exists rw'; auto.
Qed.

Lemma retrieve_step_settings top_k queries s1 out s2 :
  RAGPipeline.retrieve_step queries top_k s1 = (out, s2) -> settings_kept s1 s2.
Proof.
  unfold RAGPipeline.retrieve_step, RAGPipeline.on_store.
  assert (Hstore : forall store, settings_kept s1 (with_store store s1)).
  { intros store. unfold settings_kept, with_store. cbn.
    split; [reflexivity |]. split; [reflexivity |].
    destruct (RAGPipeline.query_rewriter s1) as [rewriter |]; [| reflexivity].
    now exists rewriter. }
  destruct (1 <? List.length queries).
  - destruct (VectorStore.search_multiple _ _ _ _) as [o st]; intros H; inversion H; subst.
    apply Hstore.
  - destruct queries as [| first rest];
      [intros H; inversion H; subst; apply settings_kept_refl |].
    destruct (VectorStore.search _ _ _ _) as [o st]; intros H; inversion H; subst.
    apply Hstore.
Qed.

Lemma after_answer_settings self : settings_kept self (after_answer self).
Proof.
  unfold settings_kept, after_answer. cbn.
  split; [reflexivity |]. split; [reflexivity |].
  destruct (RAGPipeline.query_rewriter self) as [rewriter |]; [| reflexivity].
  now exists rewriter.
Qed.

Lemma query_settings question top_k context return_sources self out self' :
  RAGPipeline.query answer_service question top_k context return_sources self = (out, self') ->
  settings_kept self self'.
Proof.
  rewrite query_run.
  destruct (RAGPipeline.rewrite_step question context self) as [[step1 | e] s1] eqn:H1;
    pose proof (rewrite_step_settings _ _ _ _ _ H1) as Hk1;
    [| intros H; inversion H; subst; exact Hk1].
  destruct (RAGPipeline.retrieve_step (fst step1) top_k s1) as [[[| d ds] | e] s2] eqn:H2;
    pose proof (settings_kept_trans _ _ _ Hk1 (retrieve_step_settings _ _ _ _ _ H2)) as Hk2;
    try (intros H; inversion H; subst; exact Hk2).
  destruct (answer_service (RAGPipeline.client s2) _); intros H; inversion H; subst;
    exact (settings_kept_trans _ _ _ Hk2 (after_answer_settings s2)).
Qed.

(** X25. [POST /query] never leaves a per-request override behind:
    whether it answers or raises its HTTP error, the pipeline it leaves has
    the rewriting switch and the budget it had before, and the same
    rewriter strategy. The budget of the rewriter, if there is one, is then
    the budget of the pipeline, whatever the rewriter's own budget was
    before the request. *)
Theorem api_query_restores_settings request pipeline :
  exists out pipeline',
    Api.query answer_service validation_error request (Some pipeline) = (out, Some pipeline')
    /\ RAGPipeline.enable_rewrite pipeline' = RAGPipeline.enable_rewrite pipeline
    /\ RAGPipeline.max_queries pipeline' = RAGPipeline.max_queries pipeline
    /\ match RAGPipeline.query_rewriter pipeline with
       | None => RAGPipeline.query_rewriter pipeline' = None
       | Some rewriter =>
           exists rewriter',
             RAGPipeline.query_rewriter pipeline' = Some rewriter'
             /\ QueryRewriter.strategy rewriter' = QueryRewriter.strategy rewriter
             /\ QueryRewriter.max_queries rewriter' = RAGPipeline.max_queries pipeline
       end.
Proof.
  unfold Api.query.
  set (p2 := match Api.max_queries request with
             | Some n => Api.set_rewriter_max_queries n _
             | None => _
             end).
  assert (Hp2 : RAGPipeline.max_queries p2 = RAGPipeline.max_queries pipeline
                /\ match RAGPipeline.query_rewriter pipeline with
                   | None => RAGPipeline.query_rewriter p2 = None
                   | Some rewriter =>
                       exists rewriter2,
                         RAGPipeline.query_rewriter p2 = Some rewriter2
                         /\ QueryRewriter.strategy rewriter2 = QueryRewriter.strategy rewriter
                   end).
  { subst p2. unfold Api.set_rewriter_max_queries, Api.set_enable_rewrite.
    destruct pipeline as [en mq cl md vs [rewriter |]];
      destruct (Api.enable_rewrite request) as [b |];
      destruct (Api.max_queries request) as [n |]; cbn;
      split; try reflexivity; eexists; split; reflexivity. }
  destruct Hp2 as (Hmax2 & Hrw2).
  destruct (query_response_kinds_aux answer_service (Api.question request)
              (Api.top_k request) (Api.context request) (Api.return_sources request) p2)
    as (result & p3 & Hrun).
  rewrite Hrun. destruct (query_settings _ _ _ _ _ _ _ Hrun) as (_ & Hmax3 & Hrw3).
  assert (Hend : forall pipeline',
             pipeline' = Api.set_rewriter_max_queries (RAGPipeline.max_queries pipeline)
                           (Api.set_enable_rewrite (RAGPipeline.enable_rewrite pipeline) p3) ->
             RAGPipeline.enable_rewrite pipeline' = RAGPipeline.enable_rewrite pipeline
             /\ RAGPipeline.max_queries pipeline' = RAGPipeline.max_queries pipeline
             /\ match RAGPipeline.query_rewriter pipeline with
                | None => RAGPipeline.query_rewriter pipeline' = None
                | Some rewriter =>
                    exists rewriter',
                      RAGPipeline.query_rewriter pipeline' = Some rewriter'
                      /\ QueryRewriter.strategy rewriter' = QueryRewriter.strategy rewriter
                      /\ QueryRewriter.max_queries rewriter' = RAGPipeline.max_queries pipeline
                end).
  { intros pipeline' ->. unfold Api.set_rewriter_max_queries, Api.set_enable_rewrite.
    cbn [RAGPipeline.query_rewriter].
    destruct (RAGPipeline.query_rewriter pipeline) as [rewriter |].
    - destruct Hrw2 as (rw2 & Hrw2 & Hs2). rewrite Hrw2 in Hrw3.
      destruct Hrw3 as (rw3 & Hrw3 & Hs3 & _). rewrite Hrw3. cbn.
      split; [reflexivity |]. split; [congruence |]. eexists. split; [reflexivity |].
      cbn. split; [congruence | reflexivity].
    - rewrite Hrw2 in Hrw3. rewrite Hrw3. cbn. split; [reflexivity |].
      split; [congruence | reflexivity]. }
  cbv zeta.
  destruct (RAGPipeline.response_metadata result) as [meta |];
    eexists; eexists; (split; [reflexivity |]); now apply Hend.
Qed.

(** X26. [POST /query] answers with a body exactly when the result of
    the pipeline, run under the overrides of the request, is not an error
    response; the body then carries the answer, the sources and the
    metadata of that result. An error response of the pipeline has no
    metadata, fails the response model, and reaches the client as HTTP 500
    with the text of the validation error as detail. *)
Theorem api_query_status request pipeline :
  exists result pipeline2,
    RAGPipeline.query answer_service (Api.question request) (Api.top_k request)
      (Api.context request) (Api.return_sources request)
      (ApiSpec.with_overrides request pipeline) = (Ok result, pipeline2)
    /\ match fst (Api.query answer_service validation_error request (Some pipeline)) with
       | Api.Respond response =>
           RAGPipeline.error result = None
           /\ RAGPipeline.response_metadata result = Some (Api.metadata response)
           /\ Api.answer response = RAGPipeline.answer result
           /\ Api.sources response = RAGPipeline.sources result
       | Api.HTTPException status_code detail =>
           status_code = 500
           /\ detail = validation_error result
           /\ exists e, result = error_response e
       end.
Proof.
  destruct (query_response_cases answer_service (Api.question request)
              (Api.top_k request) (Api.context request) (Api.return_sources request)
              (ApiSpec.with_overrides request pipeline))
    as (result & p3 & Hrun & Hkind).
  exists result, p3. split; [exact Hrun |].
  unfold Api.query. fold (ApiSpec.with_overrides request pipeline). rewrite Hrun. cbv zeta.
  destruct Hkind as [(e & ->) | [(info & -> & _) | (info & docs & content & -> & _)]].
  - cbn. split; [reflexivity |]. split; [reflexivity |]. now exists e.
  - cbn. auto.
  - cbn. auto.
Qed.

(** X27. [POST /rewrite] answers 503 when the pipeline has no rewriter
    and leaves the pipeline alone. Otherwise it calls [rewrite] with no
    context and returns its result, or, when [rewrite] raises, HTTP 500
    whose detail is one of two texts: that of the [IndexError] or that of
    the [KeyError] on the key [metadata]. *)
Theorem api_rewrite_query_status question pipeline :
  match RAGPipeline.query_rewriter pipeline with
  | None =>
      Api.rewrite_query question (Some pipeline)
      = (Api.HTTPException 503 "Query rewriter not available", Some pipeline)
  | Some rewriter =>
      exists rewriter',
        snd (Api.rewrite_query question (Some pipeline))
        = Some (with_rewriter rewriter' pipeline)
        /\ match fst (Api.rewrite_query question (Some pipeline)) with
           | Api.Respond result =>
               QueryRewriter.rewrite question None rewriter = (Ok result, rewriter')
           | Api.HTTPException status_code detail =>
               status_code = 500
               /\ (detail = "list index out of range" \/ detail = "'metadata'")
           end
  end.
Proof.
  unfold Api.rewrite_query, RAGPipeline.on_rewriter.
  destruct (RAGPipeline.query_rewriter pipeline) as [rewriter |]; [| reflexivity].
  destruct (QueryRewriter.rewrite question None rewriter) as [[result | e] rewriter'] eqn:Hrun;
    exists rewriter'; cbn [fst snd]; (split; [reflexivity |]); [reflexivity |].
  split; [reflexivity |].
  destruct (rewrite_raise_cases _ _ _ _ _ Hrun) as [-> | (-> & _)]; [now left | now right].
Qed.

End ApiFacts.
